(** * aw_datastore: the bucket/event store, its peewee backend and the
      [Datastore]/[Bucket] front end

    Shallow embedding of [aw_datastore/datastore.py] and
    [aw_datastore/storages/peewee.py].

    Conventions of the embedding.
    - A Python [datetime] is the UTC instant it denotes, counted in
      microseconds since the epoch (a [Z]); its [microsecond] field is the
      remainder modulo one second.  A [timedelta] is a signed count of
      microseconds.  The calendar range of [datetime] (years 1..9999) and
      time zones are not represented: every instant is a UTC instant.
    - The SQLite tables behind the peewee models are lists of rows, in
      insertion order.  A timestamp column holds the text [str(datetime)];
      two such texts compare as the instants do.  The one comparison that
      SQLite makes on a computed value, the text [strftime] builds in
      [dt_plus_duration], is modelled with SQLite's binary64 arithmetic
      and as the comparison of texts that it is.  A [timedelta] is held in
      a row as its count of microseconds, standing for the float
      [total_seconds()] that the column holds; the count is taken to be
      below 2^53 in magnitude (some 285 years), where this float
      determines it.
    - Python exceptions are values of [exn]; an operation is a function from
      the state to a result and the state reached, and the state reached is
      kept when an exception propagates (statements already executed stay
      executed). *)

From Stdlib Require Import ZArith List Ascii String Lia.
From Stdlib Require PrimFloat FloatOps SpecFloat Uint63.
From stdpp Require Import base decidable option numbers list sorting
  strings pretty gmap fin_maps.

Local Open Scope Z_scope.

(** ** Exceptions and the state-and-exception monad *)

Inductive exn : Type :=
| IntegrityError   (* peewee.IntegrityError: a UNIQUE constraint failed *)
| DoesNotExist     (* peewee.DoesNotExist and the [DoesNotExist] of each model:
                      [.get()] matched no row *)
| KeyError
| ValueError
| TypeError.

#[global] Instance exn_eq_dec : EqDecision exn.
Proof. solve_decision. Defined.

Inductive result (A : Type) : Type :=
| Ok (a : A)
| Raise (e : exn).
Arguments Ok {A} a.
Arguments Raise {A} e.

Definition M (S A : Type) : Type := S → result A * S.

#[global] Instance M_ret {S} : MRet (M S) := λ A a s, (Ok a, s).

#[global] Instance M_bind {S} : MBind (M S) := λ A B f m s,
  match m s with
  | (Ok a, s') => f a s'
  | (Raise e, s') => (Raise e, s')
  end.

Definition raise {S A} (e : exn) : M S A := λ s, (Raise e, s).
Definition get_state {S} : M S S := λ s, (Ok s, s).
Definition put_state {S} (s : S) : M S unit := λ _, (Ok tt, s).
Definition modify_state {S} (f : S → S) : M S unit := λ s, (Ok tt, f s).

(** [try: m except e => h]: Python's [try/except] for one exception class. *)
Definition try_except {S A} (m : M S A) (e : exn) (h : M S A) : M S A := λ s,
  match m s with
  | (Raise e', s') => if decide (e' = e) then h s' else (Raise e', s')
  | r => r
  end.

(** [for x in l: body x] *)
Fixpoint for_each {S A} (l : list A) (body : A → M S unit) : M S unit :=
  match l with
  | [] => mret tt
  | x :: l' => _ ← body x; for_each l' body
  end.

(** A list comprehension [[f x for x in l]] whose element expression can
    raise. *)
Fixpoint comprehension {S A B} (l : list A) (f : A → M S B) : M S (list B) :=
  match l with
  | [] => mret []
  | x :: l' => y ← f x; ys ← comprehension l' f; mret (y :: ys)
  end.

(** ** Instants and durations *)

Definition datetime : Type := Z.
Definition timedelta : Type := Z.

Definition microsecond (d : datetime) : Z := d `mod` 1000000.

(** [d.replace(microsecond=us)]; [ValueError] outside [0..999999]. *)
Definition replace_microsecond {S} (d : datetime) (us : Z) : M S datetime :=
  if decide (0 ≤ us ≤ 999999)
  then mret (d - microsecond d + us)
  else raise ValueError.

(** [timedelta(seconds=s)] and [timedelta(hours=h)] *)
Definition timedelta_seconds (s : Z) : timedelta := s * 1000000.
Definition timedelta_hours (h : Z) : timedelta := h * 3600 * 1000000.

(** A readable way to write instants in examples:
    day [d] since the epoch, at [h:m:s.us]. *)
Definition at_time (d h m s us : Z) : datetime :=
  (((d * 24 + h) * 60 + m) * 60 + s) * 1000000 + us.

(** [int(x / 1000)] for an [int] x: true division, then truncation towards
    zero. *)
Definition int_div (x y : Z) : Z := x `quot` y.

(** *** Boundary normalisation of [Bucket.get] *)

(** [starttime.replace(microsecond=1000 * int(starttime.microsecond / 1000))] *)
Definition round_starttime {S} (starttime : datetime) : M S datetime :=
  replace_microsecond starttime (1000 * int_div (microsecond starttime) 1000).

(** The [if endtime:] block of [Bucket.get]. *)
Definition round_endtime {S} (endtime : datetime) : M S datetime :=
  let milliseconds := 1 + int_div (microsecond endtime) 1000 in
  let second_offset := int_div milliseconds 1000 in
  let microseconds := (1000 * milliseconds) `mod` 1000000 in
  endtime' ← replace_microsecond endtime microseconds;
  mret (endtime' + timedelta_seconds second_offset).

(** ** [hashlib.md5(...).hexdigest()]

    RFC 1321 on 32-bit words held in [Z], with the wrap-around written
    out. *)

Module MD5.

Definition w32 (x : Z) : Z := x `mod` 2 ^ 32.
Definition add32 (x y : Z) : Z := w32 (x + y).
Definition not32 (x : Z) : Z := Z.lxor x 0xFFFFFFFF.
Definition rotl32 (x : Z) (c : Z) : Z :=
  Z.lor (w32 (Z.shiftl x c)) (Z.shiftr x (32 - c)).

Definition K : list Z :=
  [ 0xd76aa478; 0xe8c7b756; 0x242070db; 0xc1bdceee;
    0xf57c0faf; 0x4787c62a; 0xa8304613; 0xfd469501;
    0x698098d8; 0x8b44f7af; 0xffff5bb1; 0x895cd7be;
    0x6b901122; 0xfd987193; 0xa679438e; 0x49b40821;
    0xf61e2562; 0xc040b340; 0x265e5a51; 0xe9b6c7aa;
    0xd62f105d; 0x02441453; 0xd8a1e681; 0xe7d3fbc8;
    0x21e1cde6; 0xc33707d6; 0xf4d50d87; 0x455a14ed;
    0xa9e3e905; 0xfcefa3f8; 0x676f02d9; 0x8d2a4c8a;
    0xfffa3942; 0x8771f681; 0x6d9d6122; 0xfde5380c;
    0xa4beea44; 0x4bdecfa9; 0xf6bb4b60; 0xbebfbc70;
    0x289b7ec6; 0xeaa127fa; 0xd4ef3085; 0x04881d05;
    0xd9d4d039; 0xe6db99e5; 0x1fa27cf8; 0xc4ac5665;
    0xf4292244; 0x432aff97; 0xab9423a7; 0xfc93a039;
    0x655b59c3; 0x8f0ccc92; 0xffeff47d; 0x85845dd1;
    0x6fa87e4f; 0xfe2ce6e0; 0xa3014314; 0x4e0811a1;
    0xf7537e82; 0xbd3af235; 0x2ad7d2bb; 0xeb86d391 ].

Definition shifts : list Z :=
  [ 7; 12; 17; 22; 7; 12; 17; 22; 7; 12; 17; 22; 7; 12; 17; 22;
    5; 9; 14; 20; 5; 9; 14; 20; 5; 9; 14; 20; 5; 9; 14; 20;
    4; 11; 16; 23; 4; 11; 16; 23; 4; 11; 16; 23; 4; 11; 16; 23;
    6; 10; 15; 21; 6; 10; 15; 21; 6; 10; 15; 21; 6; 10; 15; 21 ].

(** Message padding: a 1 bit, zeros up to 56 modulo 64 bytes, then the
    bit length as 8 little-endian bytes. *)
Definition le_bytes (n : nat) (x : Z) : list Z :=
  map (λ i, Z.land (Z.shiftr x (8 * Z.of_nat i)) 0xFF) (seq 0 n).

Definition pad (msg : list Z) : list Z :=
  let len := Z.of_nat (length msg) in
  msg ++ [0x80] ++ replicate (Z.to_nat ((55 - len) `mod` 64)) 0
      ++ le_bytes 8 ((8 * len) `mod` 2 ^ 64).

Definition word_at (bytes : list Z) (i : nat) : Z :=
  let b k := nth (4 * i + k) bytes 0 in
  b 0%nat + Z.shiftl (b 1%nat) 8 + Z.shiftl (b 2%nat) 16 + Z.shiftl (b 3%nat) 24.

Definition round (m : list Z) (st : Z * Z * Z * Z) (i : nat) : Z * Z * Z * Z :=
  let '(a, b, c, d) := st in
  let '(f, g) :=
    if decide (i < 16)%nat then
      (Z.lor (Z.land b c) (Z.land (not32 b) d), i)
    else if decide (i < 32)%nat then
      (Z.lor (Z.land d b) (Z.land (not32 d) c), ((5 * i + 1) `mod` 16)%nat)
    else if decide (i < 48)%nat then
      (Z.lxor (Z.lxor b c) d, ((3 * i + 5) `mod` 16)%nat)
    else
      (Z.lxor c (Z.lor b (not32 d)), ((7 * i) `mod` 16)%nat) in
  let f' := add32 (add32 (add32 f a) (nth i K 0)) (nth g m 0) in
  (d, add32 b (rotl32 f' (nth i shifts 0)), b, c).

Definition block (st : Z * Z * Z * Z) (bytes : list Z) : Z * Z * Z * Z :=
  let m := map (word_at bytes) (seq 0 16) in
  let '(a0, b0, c0, d0) := st in
  let '(a, b, c, d) := foldl (round m) st (seq 0 64) in
  (add32 a0 a, add32 b0 b, add32 c0 c, add32 d0 d).

Definition digest (msg : list Z) : list Z :=
  let p := pad msg in
  let blocks := map (λ k, take 64 (drop (64 * k) p)) (seq 0 (length p / 64)) in
  let '(a, b, c, d) :=
    foldl block (0x67452301, 0xefcdab89, 0x98badcfe, 0x10325476) blocks in
  le_bytes 4 a ++ le_bytes 4 b ++ le_bytes 4 c ++ le_bytes 4 d.

Definition hex_digit (x : Z) : ascii :=
  nth (Z.to_nat x) (list_ascii_of_string "0123456789abcdef") "0"%char.

Definition hex (bytes : list Z) : string :=
  string_of_list_ascii
    (concat (map (λ b, [hex_digit (b `div` 16); hex_digit (b `mod` 16)]) bytes)).

(** [s.encode("utf-8")]: a [string] is held as its UTF-8 bytes. *)
Definition encode (s : string) : list Z :=
  map (λ c, Z.of_nat (nat_of_ascii c)) (list_ascii_of_string s).

Definition hexdigest (s : string) : string := hex (digest (encode s)).

End MD5.

(** [str(x)] for the two kinds of value the storage passes as [user]:
    [None] and an [int]. *)
Definition str_user (user : option Z) : string :=
  match user with
  | None => "None"
  | Some u => pretty u
  end.

Definition calculate_bucket_hash_key (name : string) (user : option Z) : string :=
  MD5.hexdigest (name +:+ str_user user).
#[global] Arguments calculate_bucket_hash_key : simpl never.

(** ** The data model *)

(** [aw_core.models.Event] *)
Module Event.
(** Modelled from the spec: the class [aw_core.models.Event], which the
    storage code imports and whose source is not part of the two files
    embedded here.  Per the data model it carries an optional [id] (absent
    before the first persist), a [timestamp], a [duration] and an opaque
    JSON-like [data] document; the document is held in its encoded text
    form, so [json.dumps]/[json.loads] are the identity on it.  The
    timestamp of an event is normalised to millisecond resolution: a value
    of this type stands for an event whose timestamp is a whole number of
    milliseconds, and assigning the timestamp drops the part below the
    millisecond. *)
Record t : Type := mk {
  id : option Z;
  timestamp : datetime;
  duration : timedelta;
  data : string
}.
Definition set_id (x : option Z) (e : t) : t := mk x (timestamp e) (duration e) (data e).
Definition set_timestamp (x : datetime) (e : t) : t :=
  mk (id e) (1000 * (x `div` 1000)) (duration e) (data e).
Definition set_duration (x : timedelta) (e : t) : t := mk (id e) (timestamp e) x (data e).
End Event.

(** [class UserModel(BaseModel)]; [id] is the auto-assigned primary key. *)
Module UserModel.
Record t : Type := mk {
  id : Z;
  username : string;
  uuid : string;
  created : datetime;
  data : string
}.
End UserModel.

(** [class BucketModel(BaseModel)]; [id] carries [unique=True], [key] is the
    integer primary key, [hash_key] is a plain column, [user] the foreign
    key to [UserModel] (the id of the owner, or NULL). *)
Module BucketModel.
Record t : Type := mk {
  key : Z;
  id : string;
  created : datetime;
  name : option string;
  type : string;
  client : string;
  hostname : string;
  datastr : option string;
  user : option Z;
  hash_key : string
}.
(** The dictionary that [BucketModel.json] returns: every column but
    [key]; under ["user"] it holds what the attribute [self.user] gives,
    the owner's [UserModel] instance or [None]. *)
Record json_t : Type := mk_json {
  json_id : string;
  json_created : datetime;
  json_name : option string;
  json_type : string;
  json_client : string;
  json_hostname : string;
  json_data : string;
  json_user : option UserModel.t;
  json_hash_key : string
}.
(** The dictionary for a bucket whose attribute [user] was read as
    [owner]. *)
Definition json_of (owner : option UserModel.t) (b : t) : json_t :=
  mk_json (id b) (created b) (name b) (type b) (client b) (hostname b)
    (match datastr b with
     | Some s => if decide (s = "") then "{}" else s
     | None => "{}"
     end)
    owner (hash_key b).
End BucketModel.

(** [class EventModel(BaseModel)]; [id] is the auto-assigned primary key
    ([None] on an instance that was never saved), [bucket] the key of the
    owning [BucketModel] row. *)
Module EventModel.
Record t : Type := mk {
  id : option Z;
  bucket : Z;
  timestamp : datetime;
  duration : timedelta;
  datastr : string
}.
Definition set_id (x : option Z) (e : t) : t :=
  mk x (bucket e) (timestamp e) (duration e) (datastr e).
Definition from_event (bucket_key : Z) (event : Event.t) : t :=
  mk (Event.id event) bucket_key (Event.timestamp event) (Event.duration event)
     (Event.data event).
(** [EventModel.json], passed as keyword arguments to [Event]. *)
Definition json (e : t) : Event.t :=
  Event.mk (id e) (timestamp e) (duration e) (datastr e).
End EventModel.

#[global] Instance Event_eq_dec : EqDecision Event.t.
Proof. solve_decision. Defined.
#[global] Instance EventModel_eq_dec : EqDecision EventModel.t.
Proof. solve_decision. Defined.

(** ** The database behind the models *)

(** Statements sent to SQLite, as a trace. *)
Inductive statement : Type :=
| SELECT (table : string)
| INSERT (table : string) (rows : nat)
| UPDATE (table : string) (pk : Z)
| DELETE (table : string).

Module Db.
Record t : Type := mk {
  bucketmodel : list BucketModel.t;
  eventmodel : list EventModel.t;
  usermodel : list UserModel.t;
  bucket_hash_keys : gmap string Z;   (* [PeeweeStorage.bucket_hash_keys] *)
  statements : list statement
}.
Definition empty : t := mk [] [] [] ∅ [].
Definition set_bucketmodel (x : list BucketModel.t) (s : t) : t :=
  mk x (eventmodel s) (usermodel s) (bucket_hash_keys s) (statements s).
Definition set_eventmodel (x : list EventModel.t) (s : t) : t :=
  mk (bucketmodel s) x (usermodel s) (bucket_hash_keys s) (statements s).
Definition set_usermodel (x : list UserModel.t) (s : t) : t :=
  mk (bucketmodel s) (eventmodel s) x (bucket_hash_keys s) (statements s).
Definition set_bucket_hash_keys (x : gmap string Z) (s : t) : t :=
  mk (bucketmodel s) (eventmodel s) (usermodel s) x (statements s).
Definition set_statements (x : list statement) (s : t) : t :=
  mk (bucketmodel s) (eventmodel s) (usermodel s) (bucket_hash_keys s) x.

Definition execute_sql (st : statement) : M t unit :=
  modify_state (λ s, set_statements (statements s ++ [st]) s).

(** The rowid SQLite gives to a row inserted without one: 1 in an empty
    table, otherwise one more than the largest in use. *)
Definition next_rowid (used : list Z) : Z :=
  match used with
  | [] => 1
  | x :: xs => 1 + foldr Z.max x xs
  end.
End Db.

(** [d[k]] on a Python dict *)
Definition dict_getitem {S V} (d : gmap string V) (k : string) : M S V :=
  match d !! k with
  | Some v => mret v
  | None => raise KeyError
  end.

(** *** Queries on [EventModel] *)

(** A peewee [SELECT] under construction: the conjunction of its [where]
    clauses, whether [order_by(EventModel.timestamp.desc())] was given, and
    the [limit]. *)
Module Query.
Record t : Type := mk {
  clauses : list (EventModel.t → bool);
  order_by_timestamp_desc : bool;
  limit_ : option Z
}.
Definition select : t := mk [] false None.
Definition where_ (p : EventModel.t → bool) (q : t) : t :=
  mk (clauses q ++ [p]) (order_by_timestamp_desc q) (limit_ q).
Definition order_by_desc (q : t) : t := mk (clauses q) true (limit_ q).
Definition limit (n : Z) (q : t) : t := mk (clauses q) (order_by_timestamp_desc q) (Some n).

Definition matches (q : t) (r : EventModel.t) : bool :=
  forallb (λ p, p r) (clauses q).

(** [ORDER BY timestamp DESC] *)
Definition newer_first (r1 r2 : EventModel.t) : Prop :=
  EventModel.timestamp r2 ≤ EventModel.timestamp r1.
#[global] Instance newer_first_dec : RelDecision newer_first.
Proof. intros r1 r2. unfold newer_first. apply _. Defined.

(** The rows in the order SQLite returns them under
    [ORDER BY timestamp DESC]: newest first, rows of equal timestamp in the
    order of the table (the sorter is fed in table order and is stable). *)
Fixpoint insert_desc (r : EventModel.t) (l : list EventModel.t) : list EventModel.t :=
  match l with
  | [] => [r]
  | x :: l' =>
      if decide (EventModel.timestamp x ≤ EventModel.timestamp r)
      then r :: l
      else x :: insert_desc r l'
  end.
Definition sort_desc (rows : list EventModel.t) : list EventModel.t :=
  foldr insert_desc [] rows.

(** SQLite's [LIMIT n]: a negative [n] is no bound. *)
Definition apply_limit {A} (n : option Z) (l : list A) : list A :=
  match n with
  | Some n => if decide (n < 0) then l else take (Z.to_nat n) l
  | None => l
  end.

(** The rows the statement selects, before [LIMIT]. *)
Definition selected (q : t) (rows : list EventModel.t) : list EventModel.t :=
  let hits := List.filter (matches q) rows in
  if order_by_timestamp_desc q then sort_desc hits else hits.

Definition result_rows (q : t) (rows : list EventModel.t) : list EventModel.t :=
  apply_limit (limit_ q) (selected q rows).

(** [q.execute()] *)
Definition execute (q : t) : M Db.t (list EventModel.t) :=
  _ ← Db.execute_sql (SELECT "eventmodel");
  s ← get_state;
  mret (result_rows q (Db.eventmodel s)).

(** [q.get()]: the first row of the result, [DoesNotExist] when empty. *)
Definition get (q : t) : M Db.t EventModel.t :=
  _ ← Db.execute_sql (SELECT "eventmodel");
  s ← get_state;
  match result_rows (limit 1 q) (Db.eventmodel s) with
  | r :: _ => mret r
  | [] => raise DoesNotExist
  end.

(** [q.count()] *)
Definition count (q : t) : M Db.t Z :=
  _ ← Db.execute_sql (SELECT "eventmodel");
  s ← get_state;
  mret (Z.of_nat (length (result_rows q (Db.eventmodel s)))).
End Query.

(** *** Row operations of the two models *)

(** [BucketModel.select()] *)
Definition BucketModel_select : M Db.t (list BucketModel.t) :=
  _ ← Db.execute_sql (SELECT "bucketmodel");
  s ← get_state;
  mret (Db.bucketmodel s).

(** [BucketModel.create(...)]: an [INSERT]; the [unique=True] column [id]
    rejects a value already present, the primary key is assigned by
    SQLite. *)
Definition BucketModel_create (row : BucketModel.t) : M Db.t BucketModel.t :=
  _ ← Db.execute_sql (INSERT "bucketmodel" 1);
  s ← get_state;
  if decide (BucketModel.id row ∈ map BucketModel.id (Db.bucketmodel s))
  then raise IntegrityError
  else
    let row' :=
      BucketModel.mk (Db.next_rowid (map BucketModel.key (Db.bucketmodel s)))
        (BucketModel.id row) (BucketModel.created row) (BucketModel.name row)
        (BucketModel.type row) (BucketModel.client row)
        (BucketModel.hostname row) (BucketModel.datastr row)
        (BucketModel.user row) (BucketModel.hash_key row) in
    _ ← put_state (Db.set_bucketmodel (Db.bucketmodel s ++ [row']) s);
    mret row'.

(** [BucketModel.get(BucketModel.hash_key == h)] *)
Definition BucketModel_get_by_hash_key (h : string) : M Db.t BucketModel.t :=
  _ ← Db.execute_sql (SELECT "bucketmodel");
  s ← get_state;
  match List.filter (λ b, bool_decide (BucketModel.hash_key b = h)) (Db.bucketmodel s) with
  | b :: _ => mret b
  | [] => raise DoesNotExist
  end.

(** [BucketModel.get(BucketModel.key == k)] *)
Definition BucketModel_get_by_key (k : Z) : M Db.t BucketModel.t :=
  _ ← Db.execute_sql (SELECT "bucketmodel");
  s ← get_state;
  match List.filter (λ b, bool_decide (BucketModel.key b = k)) (Db.bucketmodel s) with
  | b :: _ => mret b
  | [] => raise DoesNotExist
  end.

(** The attribute [bucket.user] of a [BucketModel] instance read from the
    table.  peewee resolves a foreign key that is not NULL with
    [UserModel.get(UserModel.id == value)], which raises
    [UserModel.DoesNotExist] when no such row exists (SQLite does not
    enforce the reference when the bucket is written); a NULL foreign key
    reads as [None] without a query. *)
Definition BucketModel_user (b : BucketModel.t) : M Db.t (option UserModel.t) :=
  match BucketModel.user b with
  | Some u =>
      _ ← Db.execute_sql (SELECT "usermodel");
      s ← get_state;
      match List.filter (λ row, bool_decide (UserModel.id row = u)) (Db.usermodel s) with
      | row :: _ => mret (Some row)
      | [] => raise DoesNotExist
      end
  | None => mret None
  end.

(** [bucket.json()] *)
Definition BucketModel_json (b : BucketModel.t) : M Db.t BucketModel.json_t :=
  owner ← BucketModel_user b;
  mret (BucketModel.json_of owner b).

(** One row added to [eventmodel] with a fresh primary key. *)
Definition insert_row (e : EventModel.t) (rows : list EventModel.t) : list EventModel.t :=
  rows ++ [EventModel.set_id (Some (Db.next_rowid (omap EventModel.id rows))) e].

(** The row with primary key [pk], if any, overwritten with the fields of
    [e]. *)
Definition update_row (pk : Z) (e : EventModel.t) (rows : list EventModel.t) : list EventModel.t :=
  map (λ r, if decide (EventModel.id r = Some pk) then e else r) rows.

(** [e.save()].  peewee: an instance whose primary key is set is written
    with [UPDATE ... WHERE id = pk] (every other column is set); an instance
    without a primary key is written with [INSERT] and receives the new
    key. *)
Definition EventModel_save (e : EventModel.t) : M Db.t EventModel.t :=
  match EventModel.id e with
  | Some pk =>
      _ ← Db.execute_sql (UPDATE "eventmodel" pk);
      _ ← modify_state (λ s, Db.set_eventmodel (update_row pk e (Db.eventmodel s)) s);
      mret e
  | None =>
      _ ← Db.execute_sql (INSERT "eventmodel" 1);
      s ← get_state;
      let rows := insert_row e (Db.eventmodel s) in
      _ ← put_state (Db.set_eventmodel rows s);
      mret (EventModel.set_id (Some (Db.next_rowid (omap EventModel.id (Db.eventmodel s)))) e)
  end.

(** [EventModel.insert_many(chunk).execute()]: one [INSERT] statement for the
    whole chunk. *)
Definition EventModel_insert_many (chunk : list EventModel.t) : M Db.t unit :=
  _ ← Db.execute_sql (INSERT "eventmodel" (length chunk));
  modify_state (λ s, Db.set_eventmodel (foldl (λ rows e, insert_row e rows) (Db.eventmodel s) chunk) s).

(** [EventModel.delete().where(EventModel.bucket == k).execute()] *)
Definition EventModel_delete_bucket (k : Z) : M Db.t unit :=
  _ ← Db.execute_sql (DELETE "eventmodel");
  modify_state (λ s, Db.set_eventmodel
    (List.filter (λ r, negb (bool_decide (EventModel.bucket r = k))) (Db.eventmodel s)) s).

(** [BucketModel.delete().where(BucketModel.key == k).execute()] *)
Definition BucketModel_delete_key (k : Z) : M Db.t unit :=
  _ ← Db.execute_sql (DELETE "bucketmodel");
  modify_state (λ s, Db.set_bucketmodel
    (List.filter (λ b, negb (bool_decide (BucketModel.key b = k))) (Db.bucketmodel s)) s).

(** ** Module-level helpers of [peewee.py] *)

(** [range(0, stop, step)] for a positive [step] *)
Definition range0 (stop step : nat) : list nat :=
  map (λ k, k * step)%nat (seq 0 ((stop + step - 1) / step)).

(** [chunks(ls, n)]: the slices [ls[i : i + n]] for [i] in
    [range(0, len(ls), n)].  [range] raises [ValueError] for a zero step. *)
Definition chunks {S A} (ls : list A) (n : nat) : M S (list (list A)) :=
  if decide (n = 0%nat) then raise ValueError
  else mret (map (λ i, take n (drop i ls)) (range0 (length ls) n)).

(** *** SQLite's date functions

    What [julianday], [strftime] with the ['unixepoch'] modifier and the
    comparison of the resulting text compute, in SQLite's own arithmetic:
    IEEE binary64 for the values, 64-bit integers of milliseconds for the
    Julian day numbers. *)
Module Sqlite.

Definition float_of_Z (n : Z) : PrimFloat.float :=
  if decide (n < 0)
  then PrimFloat.opp (PrimFloat.of_uint63 (Uint63.of_Z (- n)))
  else PrimFloat.of_uint63 (Uint63.of_Z n).

(** The C conversion of a double to a 64-bit integer: towards zero. *)
Definition truncate (f : PrimFloat.float) : Z :=
  match FloatOps.Prim2SF f with
  | SpecFloat.S754_finite sign m e =>
      let v := if decide (0 ≤ e) then Z.pos m * 2 ^ e else Z.pos m `div` 2 ^ (- e) in
      if sign then - v else v
  | _ => 0
  end.

Definition half : PrimFloat.float := PrimFloat.div (float_of_Z 1) (float_of_Z 2).

(** The Julian day number of the Unix epoch, in milliseconds, as an
    integer and as the constant [2440587.5] days. *)
Definition epoch_jd_ms : Z := 210866760000000.
Definition epoch_jd : PrimFloat.float := PrimFloat.div (float_of_Z 4881175) (float_of_Z 2).

(** The Julian day number, in milliseconds, that SQLite reads from the
    text [str(dt)], ["YYYY-MM-DD HH:MM:SS[.ffffff]+00:00"]: the date, hour
    and minute are exact, the seconds are parsed as a double and rounded
    with [(int)(s * 1000 + 0.5)]. *)
Definition julian_ms (dt : datetime) : Z :=
  let in_minute := dt `mod` 60000000 in
  let seconds := in_minute `div` 1000000 in
  let fraction := in_minute `mod` 1000000 in
  let s := PrimFloat.add (float_of_Z seconds)
             (PrimFloat.div (float_of_Z fraction) (float_of_Z 1000000)) in
  epoch_jd_ms + (dt - in_minute) `div` 1000
  + truncate (PrimFloat.add (PrimFloat.mul s (float_of_Z 1000)) half).

(** [julianday(dt)] *)
Definition julianday (dt : datetime) : PrimFloat.float :=
  PrimFloat.div (float_of_Z (julian_ms dt)) (float_of_Z 86400000).

(** [strftime("%Y-%m-%d %H:%M:%f+00:00", r, "unixepoch")] for a number [r]
    of seconds since the epoch: the text shows the instant to the
    millisecond, which stands for the text here, as a count of milliseconds
    since the epoch; outside the years SQLite handles the result is
    [NULL]. *)
Definition strftime_unixepoch (r : PrimFloat.float) : option Z :=
  let jd := PrimFloat.add (PrimFloat.mul r (float_of_Z 1000)) (float_of_Z epoch_jd_ms) in
  if PrimFloat.leb (float_of_Z 0) jd && PrimFloat.ltb jd (float_of_Z 464269060800000)
  then Some (truncate (PrimFloat.add jd half) - epoch_jd_ms)
  else None.

(** [str(start) <= text], where [text] is the text of [strftime] above for
    the millisecond count [t].  Both texts start with
    ["YYYY-MM-DD HH:MM:SS"], which orders as the whole seconds do.  Then
    [str(start)] goes on with ["+00:00"] when its microsecond field is 0
    and with [".ffffff+00:00"] otherwise, and the text of [strftime] with
    [".mmm+00:00"]; ['+'] sorts before ['.'] and before every digit. *)
Definition isoformat_le_strftime (start : datetime) (t : Z) : bool :=
  if decide (microsecond start = 0)
  then bool_decide (start `div` 1000 ≤ t)
  else bool_decide (start `div` 1000 < t).

End Sqlite.

(** [timedelta.total_seconds()] *)
Definition total_seconds (d : timedelta) : PrimFloat.float :=
  PrimFloat.div (Sqlite.float_of_Z d) (Sqlite.float_of_Z 1000000).

(** [dt_plus_duration(dt, duration)]: the SQL expression
    [strftime(fmt, (julianday(dt) - 2440587.5) * 86400.0 + duration, 'unixepoch')]
    on the columns [dt] and [duration] of a row. *)
Definition dt_plus_duration (dt : datetime) (duration : timedelta) : option Z :=
  Sqlite.strftime_unixepoch
    (PrimFloat.add
       (PrimFloat.mul (PrimFloat.sub (Sqlite.julianday dt) Sqlite.epoch_jd)
          (Sqlite.float_of_Z 86400))
       (total_seconds duration)).

(** [starttime <= dt_plus_duration(dt, duration)], a comparison of texts;
    it does not hold when the right-hand side is [NULL]. *)
Definition starttime_le_dt_plus_duration (starttime : datetime) (dt : datetime)
    (duration : timedelta) : bool :=
  match dt_plus_duration dt duration with
  | Some t => Sqlite.isoformat_le_strftime starttime t
  | None => false
  end.

(** ** The storage-strategy interface

    [AbstractStorage], as far as [Datastore] and [Bucket] call it.  [S] is
    the state of the storage object. *)
Module AbstractStorage.
Class t (S : Type) : Type := {
  buckets : M S (gmap string BucketModel.json_t);
  create_bucket :
    string → string → string → string → datetime →
    option string → option string → option Z → M S string;
  delete_bucket : string → M S unit;
  get_metadata : string → M S BucketModel.json_t;
  get_event : string → Z → M S (option Event.t);
  get_events : string → Z → option datetime → option datetime → M S (list Event.t);
  get_eventcount : string → option datetime → option datetime → M S Z;
  insert_one : string → Event.t → M S Event.t;
  insert_many : string → list Event.t → M S unit;
  replace_last : string → Event.t → M S Event.t
}.
End AbstractStorage.

(** ** [class PeeweeStorage(AbstractStorage)] *)

Module PeeweeStorage.

Definition update_bucket_hash_keys : M Db.t unit :=
  buckets ← BucketModel_select;
  modify_state (Db.set_bucket_hash_keys
    (foldl (λ d bucket, <[BucketModel.hash_key bucket := BucketModel.key bucket]> d) ∅ buckets)).

Definition buckets : M Db.t (gmap string BucketModel.json_t) :=
  rows ← BucketModel_select;
  entries ← comprehension rows
    (λ bucket, j ← BucketModel_json bucket; mret (BucketModel.hash_key bucket, j));
  mret (foldl (λ d (kv : string * BucketModel.json_t), <[kv.1 := kv.2]> d) ∅ entries).

Definition create_bucket (bucket_id type_id client hostname : string)
    (created : datetime) (name : option string) (data : option string)
    (user : option Z) : M Db.t string :=
  let user_id := user in
  _ ← BucketModel_create
        (BucketModel.mk 0 bucket_id created name type_id client hostname
           (Some (default "{}" data)) user_id
           (calculate_bucket_hash_key bucket_id user_id));
  _ ← update_bucket_hash_keys;
  mret (calculate_bucket_hash_key bucket_id user_id).

Definition delete_bucket (bucket_hash_key : string) : M Db.t unit :=
  s ← get_state;
  match Db.bucket_hash_keys s !! bucket_hash_key with
  | Some k =>
      _ ← EventModel_delete_bucket k;
      _ ← BucketModel_delete_key k;
      update_bucket_hash_keys
  | None => raise ValueError
  end.

Definition get_metadata (bucket_hash_key : string) : M Db.t BucketModel.json_t :=
  s ← get_state;
  match Db.bucket_hash_keys s !! bucket_hash_key with
  | Some k => bucket ← BucketModel_get_by_key k; BucketModel_json bucket
  | None => raise ValueError
  end.

Definition insert_one (bucket_hash_key : string) (event : Event.t) : M Db.t Event.t :=
  s ← get_state;
  bucket_key ← dict_getitem (Db.bucket_hash_keys s) bucket_hash_key;
  e ← EventModel_save (EventModel.from_event bucket_key event);
  mret (Event.set_id (EventModel.id e) event).

Definition insert_many (bucket_hash_key : string) (events : list Event.t) : M Db.t unit :=
  (* These events are updates which need to be applied one by one *)
  let events_updates := List.filter (λ e, bool_decide (Event.id e ≠ None)) events in
  _ ← for_each events_updates (λ e, _ ← insert_one bucket_hash_key e; mret tt);
  (* These events can be inserted with insert_many *)
  events_dictlist ←
    comprehension (List.filter (λ e, bool_decide (Event.id e = None)) events)
      (λ event,
         s ← get_state;
         bucket ← dict_getitem (Db.bucket_hash_keys s) bucket_hash_key;
         mret (EventModel.mk None bucket (Event.timestamp event)
                 (Event.duration event) (Event.data event)));
  cs ← chunks events_dictlist 100;
  for_each cs EventModel_insert_many.

Definition _get_event (bucket_hash_key : string) (event_id : Z) : M Db.t (option EventModel.t) :=
  try_except
    (s ← get_state;
     bucket_key ← dict_getitem (Db.bucket_hash_keys s) bucket_hash_key;
     e ← Query.get
           (Query.where_ (λ r, bool_decide (EventModel.bucket r = bucket_key))
              (Query.where_ (λ r, bool_decide (EventModel.id r = Some event_id))
                 Query.select));
     mret (Some e))
    DoesNotExist
    (mret None).

Definition _get_last (bucket_hash_key : string) : M Db.t EventModel.t :=
  s ← get_state;
  bucket_key ← dict_getitem (Db.bucket_hash_keys s) bucket_hash_key;
  Query.get
    (Query.order_by_desc
       (Query.where_ (λ r, bool_decide (EventModel.bucket r = bucket_key))
          Query.select)).

Definition replace_last (bucket_hash_key : string) (event : Event.t) : M Db.t Event.t :=
  e ← _get_last bucket_hash_key;
  let e := EventModel.mk (EventModel.id e) (EventModel.bucket e)
             (Event.timestamp event) (Event.duration event) (Event.data event) in
  e ← EventModel_save e;
  mret (Event.set_id (EventModel.id e) event).

Definition get_event (bucket_hash_key : string) (event_id : Z) : M Db.t (option Event.t) :=
  res ← _get_event bucket_hash_key event_id;
  mret (EventModel.json <$> res).

Definition _where_range (q : Query.t) (starttime endtime : option datetime) : Query.t :=
  let q :=
    match starttime with
    | Some starttime =>
        (* Faster WHERE to speed up slow query below; assumes events aren't >24h *)
        let q := Query.where_
          (λ r, bool_decide (starttime - timedelta_hours 24 ≤ EventModel.timestamp r)) q in
        Query.where_
          (λ r, starttime_le_dt_plus_duration starttime
                  (EventModel.timestamp r) (EventModel.duration r)) q
    | None => q
    end in
  match endtime with
  | Some endtime => Query.where_ (λ r, bool_decide (EventModel.timestamp r ≤ endtime)) q
  | None => q
  end.

(** The body of the trimming loop of [get_events], for one event. *)
Definition trim (starttime endtime : option datetime) (e : Event.t) : Event.t :=
  let e :=
    match starttime with
    | Some starttime =>
        if decide (Event.timestamp e < starttime) then
          let e_end := Event.timestamp e + Event.duration e in
          let e := Event.set_timestamp starttime e in
          Event.set_duration (e_end - Event.timestamp e) e
        else e
    | None => e
    end in
  match endtime with
  | Some endtime =>
      if decide (Event.timestamp e + Event.duration e > endtime)
      then Event.set_duration (endtime - Event.timestamp e) e
      else e
  | None => e
  end.

(** The query [get_events] builds for a bucket key. *)
Definition events_query (bucket_key limit : Z) (starttime endtime : option datetime) : Query.t :=
  _where_range
    (Query.limit limit
       (Query.order_by_desc
          (Query.where_ (λ r, bool_decide (EventModel.bucket r = bucket_key))
             Query.select)))
    starttime endtime.

Definition get_events (bucket_hash_key : string) (limit : Z)
    (starttime endtime : option datetime) : M Db.t (list Event.t) :=
  if decide (limit = 0) then mret []
  else
    bucket ← BucketModel_get_by_hash_key bucket_hash_key;
    let bucket_key := BucketModel.key bucket in
    res ← Query.execute (events_query bucket_key limit starttime endtime);
    let events := map EventModel.json res in
    (* Trim events that are out of range *)
    mret (map (trim starttime endtime) events).

Definition get_eventcount (bucket_hash_key : string)
    (starttime endtime : option datetime) : M Db.t Z :=
  s ← get_state;
  bucket_key ← dict_getitem (Db.bucket_hash_keys s) bucket_hash_key;
  Query.count
    (_where_range
       (Query.where_ (λ r, bool_decide (EventModel.bucket r = bucket_key)) Query.select)
       starttime endtime).

End PeeweeStorage.

#[global] Instance PeeweeStorage_AbstractStorage : AbstractStorage.t Db.t := {
  buckets := PeeweeStorage.buckets;
  create_bucket := PeeweeStorage.create_bucket;
  delete_bucket := PeeweeStorage.delete_bucket;
  get_metadata := PeeweeStorage.get_metadata;
  get_event := PeeweeStorage.get_event;
  get_events := PeeweeStorage.get_events;
  get_eventcount := PeeweeStorage.get_eventcount;
  insert_one := PeeweeStorage.insert_one;
  insert_many := PeeweeStorage.insert_many;
  replace_last := PeeweeStorage.replace_last
}.

(** ** [class Datastore] and [class Bucket] *)

(** A [Bucket] object: its reference to the datastore is the state the
    operations run in, its own field is the hash key. *)
Module Bucket_.
Record t : Type := mk { bucket_hash_key : string }.
End Bucket_.

(** Records written through [logging]. *)
Inductive log_record : Type :=
| LogInfo (msg : string) (subject : string)
| LogError (msg : string) (subject : string)
| LogWarningFuture (bucket_hash_key : string) (now : datetime) (event : Event.t).

Module Datastore.

Record t (S : Type) : Type := mk {
  bucket_instances : gmap string Bucket_.t;
  storage_strategy : S;
  logger : list log_record
}.
Arguments mk {S} _ _ _.
Arguments bucket_instances {S} _.
Arguments storage_strategy {S} _.
Arguments logger {S} _.

(** [Datastore.__init__] over an already constructed storage object. *)
Definition init {S} (storage : S) : t S := mk ∅ storage [].

Section Methods.
Context {S : Type} `{AbstractStorage.t S}.

(** A call [self.storage_strategy.method(...)]. *)
Definition call {A} (m : M S A) : M (t S) A := λ ds,
  let '(r, s') := m (storage_strategy ds) in
  (r, mk (bucket_instances ds) s' (logger ds)).

Definition log (r : log_record) : M (t S) unit :=
  modify_state (λ ds, mk (bucket_instances ds) (storage_strategy ds) (logger ds ++ [r])).

Definition buckets : M (t S) (gmap string BucketModel.json_t) :=
  call AbstractStorage.buckets.

Definition __getitem__ (bucket_hash_key : string) : M (t S) Bucket_.t :=
  ds ← get_state;
  _ ← (if decide (bucket_instances ds !! bucket_hash_key = None) then
         bs ← buckets;
         if decide (is_Some (bs !! bucket_hash_key)) then
           let bucket := Bucket_.mk bucket_hash_key in
           modify_state (λ ds, mk (<[bucket_hash_key := bucket]> (bucket_instances ds))
                                  (storage_strategy ds) (logger ds))
         else
           _ ← log (LogError "Cannot create a Bucket object" bucket_hash_key);
           raise KeyError
       else mret tt);
  ds ← get_state;
  dict_getitem (bucket_instances ds) bucket_hash_key.

(** [now] is the reading of [datetime.now(timezone.utc)]. *)
Definition create_bucket (now : datetime) (bucket_id type client hostname : string)
    (created : option datetime) (name : option string) (data : option string)
    (user : option Z) : M (t S) Bucket_.t :=
  let created := default now created in
  _ ← log (LogInfo "Creating bucket" bucket_id);
  bucket_hash_key ←
    call (AbstractStorage.create_bucket bucket_id type client hostname created name data user);
  __getitem__ bucket_hash_key.

Definition delete_bucket (bucket_hash_key : string) : M (t S) unit :=
  _ ← log (LogInfo "Deleting bucket" bucket_hash_key);
  _ ← modify_state (λ ds, mk (delete bucket_hash_key (bucket_instances ds))
                             (storage_strategy ds) (logger ds));
  call (AbstractStorage.delete_bucket bucket_hash_key).

End Methods.
End Datastore.

(** Arguments of [Bucket.insert]: an [Event], a [list] of events, or any
    other Python object. *)
Inductive insert_argument : Type :=
| AnEvent (event : Event.t)
| AList (events : list Event.t)
| AnotherObject (repr : string).

Module Bucket.
Section Methods.
Context {S : Type} `{AbstractStorage.t S}.

Definition metadata (self : Bucket_.t) : M (Datastore.t S) BucketModel.json_t :=
  Datastore.call (AbstractStorage.get_metadata (Bucket_.bucket_hash_key self)).

(** [if x: x = f(x)] on an optional argument; a [datetime] is never
    falsy. *)
Definition if_given {A} (x : option A) (f : A → M (Datastore.t S) A) : M (Datastore.t S) (option A) :=
  match x with
  | Some v => v' ← f v; mret (Some v')
  | None => mret None
  end.

Definition get (self : Bucket_.t) (limit : Z) (starttime endtime : option datetime)
    : M (Datastore.t S) (list Event.t) :=
  starttime ← if_given starttime round_starttime;
  endtime ← if_given endtime round_endtime;
  Datastore.call (AbstractStorage.get_events (Bucket_.bucket_hash_key self) limit starttime endtime).

Definition get_by_id (self : Bucket_.t) (event_id : Z) : M (Datastore.t S) (option Event.t) :=
  Datastore.call (AbstractStorage.get_event (Bucket_.bucket_hash_key self) event_id).

Definition get_eventcount (self : Bucket_.t) (starttime endtime : option datetime)
    : M (Datastore.t S) Z :=
  Datastore.call (AbstractStorage.get_eventcount (Bucket_.bucket_hash_key self) starttime endtime).

Definition warn_if_future (self : Bucket_.t) (now : datetime) (event : Event.t)
    : M (Datastore.t S) unit :=
  if decide (Event.timestamp event + Event.duration event > now)
  then Datastore.log (LogWarningFuture (Bucket_.bucket_hash_key self) now event)
  else mret tt.

(** [now] is the reading of [datetime.now(tz=timezone.utc)]; the
    [warn_older_event] branches are dead ([warn_older_event = False]), and
    with them [oldest_event], which nothing else reads. *)
Definition insert (self : Bucket_.t) (now : datetime) (events : insert_argument)
    : M (Datastore.t S) (option Event.t) :=
  match events with
  | AnEvent events =>
      _ ← warn_if_future self now events;
      inserted ← Datastore.call (AbstractStorage.insert_one (Bucket_.bucket_hash_key self) events);
      mret (Some inserted)
  | AList events =>
      _ ← for_each events (warn_if_future self now);
      _ ← Datastore.call (AbstractStorage.insert_many (Bucket_.bucket_hash_key self) events);
      mret None
  | AnotherObject _ => raise TypeError
  end.

Definition replace_last (self : Bucket_.t) (event : Event.t) : M (Datastore.t S) Event.t :=
  Datastore.call (AbstractStorage.replace_last (Bucket_.bucket_hash_key self) event).

End Methods.
End Bucket.

(** ** A test double for the storage strategy

    A storage that only records which of its methods were called, in
    order, and answers with fixed values: the call-count instrumentation
    used to observe what [Datastore] and [Bucket] ask of their backend. *)
Module SpyStorage.

Definition t : Type := list string.

Definition called {A} (method : string) (answer : result A) : M t A :=
  λ calls, (answer, calls ++ [method]).

#[global] Instance SpyStorage_AbstractStorage : AbstractStorage.t t := {
  buckets := called "buckets" (Ok ∅);
  create_bucket := λ bucket_id _ _ _ _ _ _ user,
    called "create_bucket" (Ok (calculate_bucket_hash_key bucket_id user));
  delete_bucket := λ _, called "delete_bucket" (Ok tt);
  get_metadata := λ _, called "get_metadata" (Raise ValueError);
  get_event := λ _ _, called "get_event" (Ok None);
  get_events := λ _ _ _ _, called "get_events" (Ok []);
  get_eventcount := λ _ _ _, called "get_eventcount" (Ok 0);
  insert_one := λ _ event, called "insert_one" (Ok event);
  insert_many := λ _ _, called "insert_many" (Ok tt);
  replace_last := λ _ event, called "replace_last" (Ok event)
}.

End SpyStorage.

(** ** The remaining operations of [PeeweeStorage], [Datastore] and
       [Bucket] *)

(** [bucket.save()] on a [BucketModel] instance read from the table: its
    primary key [key] is set, so peewee writes it with
    [UPDATE ... WHERE key = k], every other column being set. *)
Definition BucketModel_save (b : BucketModel.t) : M Db.t unit :=
  _ ← Db.execute_sql (UPDATE "bucketmodel" (BucketModel.key b));
  modify_state (λ s, Db.set_bucketmodel
    (map (λ r, if decide (BucketModel.key r = BucketModel.key b) then b else r)
       (Db.bucketmodel s)) s).

(** The outcome of an operation that can also end in [AttributeError]
    (a field assigned on [None]), an exception that [exn] does not list. *)
Inductive or_AttributeError (A : Type) : Type :=
| AttributeError
| Returned (a : A).
Arguments AttributeError {A}.
Arguments Returned {A} a.

(** The [user] argument of [get_buckets_for_user]: the string ["all"], or
    the owner to select ([None] selects the buckets without owner). *)
Inductive user_filter : Type :=
| AllUsers
| User (user : option Z).

(** One value of the dictionary that [get_buckets_for_user] returns. *)
Record bucket_summary : Type := mk_bucket_summary {
  summary_json : BucketModel.json_t;
  events_count : Z;
  estimated_size : Z
}.

Module PeeweeStorageOps.

Definition update_bucket (bucket_hash_key : string)
    (type_id client hostname name data : option string) : M Db.t unit :=
  s ← get_state;
  match Db.bucket_hash_keys s !! bucket_hash_key with
  | Some k =>
      bucket ← BucketModel_get_by_key k;
      let bucket :=
        BucketModel.mk (BucketModel.key bucket) (BucketModel.id bucket)
          (BucketModel.created bucket)
          (match name with Some n => Some n | None => BucketModel.name bucket end)
          (default (BucketModel.type bucket) type_id)
          (default (BucketModel.client bucket) client)
          (default (BucketModel.hostname bucket) hostname)
          (match data with Some d => Some d | None => BucketModel.datastr bucket end)
          (BucketModel.user bucket) (BucketModel.hash_key bucket) in
      BucketModel_save bucket
  | None => raise ValueError
  end.

(** [delete]: returns the number of rows deleted. *)
Definition delete (bucket_hash_key : string) (event_id : Z) : M Db.t Z :=
  s ← get_state;
  bucket_key ← dict_getitem (Db.bucket_hash_keys s) bucket_hash_key;
  _ ← Db.execute_sql (DELETE "eventmodel");
  s ← get_state;
  let hit (r : EventModel.t) : bool :=
    bool_decide (EventModel.id r = Some event_id)
    && bool_decide (EventModel.bucket r = bucket_key) in
  _ ← put_state (Db.set_eventmodel (List.filter (λ r, negb (hit r)) (Db.eventmodel s)) s);
  mret (Z.of_nat (length (List.filter hit (Db.eventmodel s)))).

Definition replace (bucket_hash_key : string) (event_id : Z) (event : Event.t)
    : M Db.t (or_AttributeError Event.t) :=
  e ← PeeweeStorage._get_event bucket_hash_key event_id;
  match e with
  | None => mret AttributeError
  | Some e =>
      let e := EventModel.mk (EventModel.id e) (EventModel.bucket e)
                 (Event.timestamp event) (Event.duration event) (Event.data event) in
      e ← EventModel_save e;
      mret (Returned (Event.set_id (EventModel.id e) event))
  end.

(** [datetime.strptime('2020-01-01 00:00:00', ...)] is a naive datetime,
    which [astimezone] reads as local time: [utc_offset] is the offset of
    the local zone from UTC at that date, in microseconds. *)
Definition local_2020 (utc_offset : timedelta) : datetime :=
  at_time 18262 0 0 0 0 - utc_offset.

(** [now] is the reading of [datetime.now()]. *)
Definition get_buckets_for_user (utc_offset : timedelta) (now : datetime) (user : user_filter)
    : M Db.t (gmap string bucket_summary) :=
  rows ← BucketModel_select;
  let rows :=
    match user with
    | AllUsers => rows
    | User u => List.filter (λ b, bool_decide (BucketModel.user b = u)) rows
    end in
  entries ← comprehension rows
    (λ b, j ← BucketModel_json b;
          n ← PeeweeStorage.get_eventcount (BucketModel.hash_key b)
                (Some (local_2020 utc_offset)) (Some now);
          mret (BucketModel.hash_key b, (j, n)));
  let buckets :=
    foldl (λ d (kv : string * (BucketModel.json_t * Z)), <[kv.1 := kv.2]> d) ∅ entries in
  mret ((λ v : BucketModel.json_t * Z, mk_bucket_summary v.1 v.2 (v.2 * 150)) <$> buckets).

End PeeweeStorageOps.

(** [Datastore] and [Bucket] methods over the peewee storage that call the
    operations above. *)
Module DatastoreOps.

Definition update_bucket (bucket_hash_key : string)
    (type_id client hostname name data : option string) : M (Datastore.t Db.t) unit :=
  _ ← Datastore.log (LogInfo "Updating bucket" bucket_hash_key);
  Datastore.call (PeeweeStorageOps.update_bucket bucket_hash_key type_id client hostname name data).

Definition get_buckets_for_user (utc_offset : timedelta) (now : datetime) (user : user_filter)
    : M (Datastore.t Db.t) (gmap string bucket_summary) :=
  Datastore.call (PeeweeStorageOps.get_buckets_for_user utc_offset now user).

End DatastoreOps.

Module BucketOps.

Definition delete (self : Bucket_.t) (event_id : Z) : M (Datastore.t Db.t) Z :=
  Datastore.call (PeeweeStorageOps.delete (Bucket_.bucket_hash_key self) event_id).

Definition replace (self : Bucket_.t) (event_id : Z) (event : Event.t)
    : M (Datastore.t Db.t) (or_AttributeError Event.t) :=
  Datastore.call (PeeweeStorageOps.replace (Bucket_.bucket_hash_key self) event_id event).

End BucketOps.

(** ** Vocabulary of the statements below *)

(** The row [r] passes the clause [starttime <= dt_plus_duration(...)] of
    [_where_range]. *)
Definition reaches (starttime : datetime) (r : EventModel.t) : Prop :=
  starttime_le_dt_plus_duration starttime (EventModel.timestamp r) (EventModel.duration r)
  = true.

(** The bucket row that [BucketModel.get(BucketModel.hash_key == h)]
    returns. *)
Definition bucket_row (h : string) (s : Db.t) : option BucketModel.t :=
  head (List.filter (λ b, bool_decide (BucketModel.hash_key b = h)) (Db.bucketmodel s)).

(** The state after the statements [sts] were sent and no table changed. *)
Definition after_statements (sts : list statement) (s : Db.t) : Db.t :=
  Db.set_statements (Db.statements s ++ sts) s.

(** A store with the users 1 and 2 and no bucket. *)
Definition store_with_two_users : Db.t :=
  Db.set_usermodel
    [UserModel.mk 1 "first" "uuid-1" 0 "{}"; UserModel.mk 2 "second" "uuid-2" 0 "{}"]
    Db.empty.

(** A store with one bucket "b" (no owner) holding one event that starts
    at the epoch and lasts 48 hours. *)
Definition store_with_long_event : Db.t :=
  snd ((h ← PeeweeStorage.create_bucket "b" "t" "c" "host" 0 None None None;
        PeeweeStorage.insert_one h (Event.mk None 0 (timedelta_hours 48) "{}"))
       Db.empty).


(** A store with one bucket "b" (no owner) and no event. *)
Definition store_with_empty_bucket : Db.t :=
  snd (PeeweeStorage.create_bucket "b" "t" "c" "host" 0 None None None Db.empty).

(** The slices that [chunks] yields. *)
Definition slices {A} (ls : list A) (n : nat) : list (list A) :=
  map (λ i, take n (drop i ls)) (range0 (length ls) n).

(** What [e.save()] does to the table, and the statement it sends. *)
Definition saved_rows (e : EventModel.t) (rows : list EventModel.t) : list EventModel.t :=
  match EventModel.id e with
  | Some pk => update_row pk e rows
  | None => insert_row e rows
  end.

Definition save_statement (e : EventModel.t) : statement :=
  match EventModel.id e with
  | Some pk => UPDATE "eventmodel" pk
  | None => INSERT "eventmodel" 1
  end.

(** One write to [eventmodel]: the table changed by [g a], the statement
    [st a] sent. *)
Definition write_step {A} (g : A → list EventModel.t → list EventModel.t)
    (st : A → statement) (s : Db.t) (a : A) : Db.t :=
  Db.mk (Db.bucketmodel s) (g a (Db.eventmodel s)) (Db.usermodel s) (Db.bucket_hash_keys s)
    (Db.statements s ++ [st a]).

(** The row that [insert_many] builds for an event without id. *)
Definition new_row (key : Z) (event : Event.t) : EventModel.t :=
  EventModel.mk None key (Event.timestamp event) (Event.duration event) (Event.data event).

(** The table after the events with an id were written one by one. *)
Definition replace_row (key : Z) (rows : list EventModel.t) (event : Event.t) : list EventModel.t :=
  match Event.id event with
  | Some pk => update_row pk (EventModel.from_event key event) rows
  | None => rows
  end.

(** The query of [_get_last]. *)
Definition last_query (key : Z) : Query.t :=
  Query.order_by_desc
    (Query.where_ (λ r, bool_decide (EventModel.bucket r = key)) Query.select).

(** The warnings [insert] logs for the events that reach past [now]. *)
Definition future_warnings (h : string) (now : datetime) (events : list Event.t) : list log_record :=
  map (LogWarningFuture h now)
    (List.filter (λ e, bool_decide (Event.timestamp e + Event.duration e > now)) events).

(** The primary-key constraint of [eventmodel]: every stored row has an id,
    and no id occurs twice. *)
Definition primary_keys_ok (rows : list EventModel.t) : Prop :=
  NoDup (map EventModel.id rows) ∧ Forall (λ r, is_Some (EventModel.id r)) rows.

(** The handle of bucket "b" (no owner). *)
Definition bucket_b : Bucket_.t := Bucket_.mk (calculate_bucket_hash_key "b" None).


(** ** Vocabulary of the further statements *)

(** What [update_bucket_hash_keys] computes from the bucket table. *)
Definition hash_keys_of (rows : list BucketModel.t) : gmap string Z :=
  foldl (λ d bucket, <[BucketModel.hash_key bucket := BucketModel.key bucket]> d) ∅ rows.

(** No table and not the key cache differs between two states. *)
Definition same_store (s s' : Db.t) : Prop :=
  Db.bucketmodel s' = Db.bucketmodel s
  ∧ Db.eventmodel s' = Db.eventmodel s
  ∧ Db.usermodel s' = Db.usermodel s
  ∧ Db.bucket_hash_keys s' = Db.bucket_hash_keys s.

(** The user row that [UserModel.get(UserModel.id == u)] returns. *)
Definition user_row (u : Z) (s : Db.t) : option UserModel.t :=
  head (List.filter (λ row, bool_decide (UserModel.id row = u)) (Db.usermodel s)).

(** What the attribute [user] of a bucket row reads as where it can be
    read: the user row its foreign key names, [None] for a bucket without
    owner. *)
Definition owner_of (s : Db.t) (b : BucketModel.t) : option UserModel.t :=
  match BucketModel.user b with
  | Some u => user_row u s
  | None => None
  end.

(** The attribute [user] of the bucket row can be read: the bucket has no
    owner, or its owner has a user row. *)
Definition owner_known (s : Db.t) (b : BucketModel.t) : Prop :=
  match BucketModel.user b with
  | Some u => is_Some (user_row u s)
  | None => True
  end.
#[global] Instance owner_known_dec s b : Decision (owner_known s b).
Proof. unfold owner_known. destruct (BucketModel.user b); apply _. Defined.

(** The owner of every stored bucket has a user row. *)
Definition owners_known (s : Db.t) : Prop :=
  Forall (owner_known s) (Db.bucketmodel s).
#[global] Instance owners_known_dec s : Decision (owners_known s).
Proof. unfold owners_known. apply _. Defined.

(** The metadata dictionary of a bucket row in the state [s]. *)
Definition json_in (s : Db.t) (b : BucketModel.t) : BucketModel.json_t :=
  BucketModel.json_of (owner_of s b) b.

(** The state of a storage that is in order: the key cache is what
    [update_bucket_hash_keys] would compute, primary keys and bucket ids are
    unique, every event belongs to a stored bucket, and every bucket carries
    the hash key of its id and owner. *)
Record consistent (s : Db.t) : Prop := mk_consistent {
  cache_fresh : Db.bucket_hash_keys s = hash_keys_of (Db.bucketmodel s);
  event_keys_ok : primary_keys_ok (Db.eventmodel s);
  bucket_keys_unique : NoDup (map BucketModel.key (Db.bucketmodel s));
  bucket_ids_unique : NoDup (map BucketModel.id (Db.bucketmodel s));
  events_owned :
    ∀ r, r ∈ Db.eventmodel s → EventModel.bucket r ∈ map BucketModel.key (Db.bucketmodel s);
  hash_keys_computed :
    ∀ b, b ∈ Db.bucketmodel s →
         BucketModel.hash_key b
         = calculate_bucket_hash_key (BucketModel.id b) (BucketModel.user b)
}.

(** The calls a client can make on the storage. *)
Inductive storage_call : Type :=
| Call_create_bucket (bucket_id type_id client hostname : string) (created : datetime)
    (name data : option string) (user : option Z)
| Call_update_bucket (h : string) (type_id client hostname name data : option string)
| Call_delete_bucket (h : string)
| Call_insert_one (h : string) (event : Event.t)
| Call_insert_many (h : string) (events : list Event.t)
| Call_replace_last (h : string) (event : Event.t)
| Call_replace (h : string) (event_id : Z) (event : Event.t)
| Call_delete (h : string) (event_id : Z)
| Call_buckets
| Call_get_metadata (h : string)
| Call_get_event (h : string) (event_id : Z)
| Call_get_events (h : string) (limit : Z) (starttime endtime : option datetime)
| Call_get_eventcount (h : string) (starttime endtime : option datetime)
| Call_get_buckets_for_user (utc_offset : timedelta) (now : datetime) (user : user_filter).

(** The state the storage is in after a call, whatever its outcome. *)
Definition state_after (c : storage_call) (s : Db.t) : Db.t :=
  match c with
  | Call_create_bucket bucket_id type_id client hostname created name data user =>
      snd (PeeweeStorage.create_bucket bucket_id type_id client hostname created name data user s)
  | Call_update_bucket h type_id client hostname name data =>
      snd (PeeweeStorageOps.update_bucket h type_id client hostname name data s)
  | Call_delete_bucket h => snd (PeeweeStorage.delete_bucket h s)
  | Call_insert_one h event => snd (PeeweeStorage.insert_one h event s)
  | Call_insert_many h events => snd (PeeweeStorage.insert_many h events s)
  | Call_replace_last h event => snd (PeeweeStorage.replace_last h event s)
  | Call_replace h event_id event => snd (PeeweeStorageOps.replace h event_id event s)
  | Call_delete h event_id => snd (PeeweeStorageOps.delete h event_id s)
  | Call_buckets => snd (PeeweeStorage.buckets s)
  | Call_get_metadata h => snd (PeeweeStorage.get_metadata h s)
  | Call_get_event h event_id => snd (PeeweeStorage.get_event h event_id s)
  | Call_get_events h limit starttime endtime =>
      snd (PeeweeStorage.get_events h limit starttime endtime s)
  | Call_get_eventcount h starttime endtime =>
      snd (PeeweeStorage.get_eventcount h starttime endtime s)
  | Call_get_buckets_for_user utc_offset now user =>
      snd (PeeweeStorageOps.get_buckets_for_user utc_offset now user s)
  end.

(** The calls that only read. *)
Definition is_query (c : storage_call) : bool :=
  match c with
  | Call_buckets | Call_get_metadata _ | Call_get_event _ _ | Call_get_events _ _ _ _
  | Call_get_eventcount _ _ _ | Call_get_buckets_for_user _ _ _ => true
  | _ => false
  end.

#[global] Instance BucketModel_eq_dec : EqDecision BucketModel.t.
Proof. solve_decision. Defined.

(** The row that [create_bucket] adds to a bucket table [rows]. *)
Definition created_row (bucket_id type_id client hostname : string) (created : datetime)
    (name data : option string) (user : option Z) (rows : list BucketModel.t) : BucketModel.t :=
  BucketModel.mk (Db.next_rowid (map BucketModel.key rows)) bucket_id created name
    type_id client hostname (Some (default "{}" data)) user
    (calculate_bucket_hash_key bucket_id user).

(** The row that [update_bucket] writes in place of [bucket]. *)
Definition patched_row (type_id client hostname name data : option string)
    (bucket : BucketModel.t) : BucketModel.t :=
  BucketModel.mk (BucketModel.key bucket) (BucketModel.id bucket)
    (BucketModel.created bucket)
    (match name with Some n => Some n | None => BucketModel.name bucket end)
    (default (BucketModel.type bucket) type_id)
    (default (BucketModel.client bucket) client)
    (default (BucketModel.hostname bucket) hostname)
    (match data with Some d => Some d | None => BucketModel.datastr bucket end)
    (BucketModel.user bucket) (BucketModel.hash_key bucket).

(** The rows of bucket [key] with primary key [event_id]. *)
Definition is_event (event_id key : Z) (r : EventModel.t) : bool :=
  bool_decide (EventModel.id r = Some event_id) && bool_decide (EventModel.bucket r = key).

(** The state after a sequence of calls, made one after the other. *)
Definition state_after_all (calls : list storage_call) (s : Db.t) : Db.t :=
  foldl (λ s c, state_after c s) s calls.

(** Exactly one bucket row carries the hash key [h], the row [b]. *)
Definition sole_bucket (h : string) (b : BucketModel.t) (s : Db.t) : Prop :=
  List.filter (λ b, bool_decide (BucketModel.hash_key b = h)) (Db.bucketmodel s) = [b].

(** A store with the user 3, two buckets, "b" (no owner, key 1) and "c"
    (owner 3, key 2), and three events: ids 1 and 3 in "b", id 2 in "c". *)
Definition store_with_user_3 : Db.t :=
  Db.set_usermodel [UserModel.mk 3 "third" "uuid-3" 0 "{}"] Db.empty.
Definition store_with_two_buckets : Db.t :=
  state_after_all
    [ Call_create_bucket "b" "t" "c" "host" 0 None None None;
      Call_create_bucket "c" "t" "c" "host" 0 None None (Some 3);
      Call_insert_one (calculate_bucket_hash_key "b" None) (Event.mk None 1000 500 "{}");
      Call_insert_one (calculate_bucket_hash_key "c" (Some 3)) (Event.mk None 2000 500 "{}");
      Call_insert_one (calculate_bucket_hash_key "b" None) (Event.mk None 3000 500 "{}") ]
    store_with_user_3.

(** The two bucket rows of that store. *)
Definition row_b : BucketModel.t :=
  BucketModel.mk 1 "b" 0 None "t" "c" "host" (Some "{}") None (calculate_bucket_hash_key "b" None).
Definition row_c : BucketModel.t :=
  BucketModel.mk 2 "c" 0 None "t" "c" "host" (Some "{}") (Some 3)
    (calculate_bucket_hash_key "c" (Some 3)).

(** The handle of bucket "c" of owner 3. *)
Definition bucket_c : Bucket_.t := Bucket_.mk (calculate_bucket_hash_key "c" (Some 3)).

(** The range condition that [_where_range] adds to a query. *)
Definition in_range (starttime endtime : option datetime) (r : EventModel.t) : Prop :=
  (match starttime with
   | Some st => st - timedelta_hours 24 ≤ EventModel.timestamp r ∧ reaches st r
   | None => True
   end)
  ∧ (match endtime with
     | Some en => EventModel.timestamp r ≤ en
     | None => True
     end).

(** The query of [get_eventcount] for a bucket key. *)
Definition count_query (key : Z) (starttime endtime : option datetime) : Query.t :=
  PeeweeStorage._where_range
    (Query.where_ (λ r, bool_decide (EventModel.bucket r = key)) Query.select)
    starttime endtime.

(** Newest first, on events. *)
Definition newer_event_first (e1 e2 : Event.t) : Prop :=
  Event.timestamp e2 ≤ Event.timestamp e1.

(** A store with two buckets whose ids and owners differ but whose hash
    keys are equal: "x1" of owner 2 and "x" of owner 12 both hash "x12". *)
Definition store_with_shared_hash_key : Db.t :=
  state_after_all
    [ Call_create_bucket "x1" "t" "c" "host" 0 None None (Some 2);
      Call_create_bucket "x" "t" "c" "host" 0 None None (Some 12) ]
    Db.empty.
Definition row_x1 : BucketModel.t :=
  BucketModel.mk 1 "x1" 0 None "t" "c" "host" (Some "{}") (Some 2)
    (calculate_bucket_hash_key "x1" (Some 2)).
Definition row_x : BucketModel.t :=
  BucketModel.mk 2 "x" 0 None "t" "c" "host" (Some "{}") (Some 12)
    (calculate_bucket_hash_key "x" (Some 12)).

(** The buckets that [get_buckets_for_user] is asked for. *)
Definition wanted_by (user : user_filter) (b : BucketModel.t) : Prop :=
  match user with
  | AllUsers => True
  | User u => BucketModel.user b = u
  end.

(** The store with two buckets after bucket "b" was deleted. *)
Definition store_after_delete_b : Db.t :=
  state_after (Call_delete_bucket (calculate_bucket_hash_key "b" None)) store_with_two_buckets.

(** * Properties *)

(** ** The models on known values *)

Example md5_empty : MD5.hexdigest "" = "d41d8cd98f00b204e9800998ecf8427e"%string.
Proof. vm_compute. reflexivity. Qed.

Example md5_abc : MD5.hexdigest "abc" = "900150983cd24fb0d6963f7d28e17f72"%string.
Proof. vm_compute. reflexivity. Qed.

Example hash_key_b_1 :
  calculate_bucket_hash_key "b" (Some 1) = "edbab45572c72a5d9440b40bcc0500c0"%string.
Proof. vm_compute. reflexivity. Qed.

Example hash_key_b_None :
  calculate_bucket_hash_key "b" None = "e46f680b6190ec0ccf4120c2b1ca573d"%string.
Proof. vm_compute. reflexivity. Qed.

Example round_starttime_example :
  round_starttime (S:=unit) (at_time 0 10 0 0 123456) tt = (Ok (at_time 0 10 0 0 123000), tt).
Proof. reflexivity. Qed.

Example round_endtime_example :
  round_endtime (S:=unit) (at_time 0 10 0 0 123456) tt = (Ok (at_time 0 10 0 0 124000), tt).
Proof. reflexivity. Qed.

Example round_endtime_carry :
  round_endtime (S:=unit) (at_time 0 10 0 0 999500) tt = (Ok (at_time 0 10 0 1 0), tt).
Proof. reflexivity. Qed.

Example chunks_example :
  chunks (S:=unit) [1; 2; 3; 4; 5; 6; 7] 3 tt = (Ok [[1; 2; 3]; [4; 5; 6]; [7]], tt).
Proof. reflexivity. Qed.

(** ** Running monadic code *)

Ltac unfold_monad :=
  unfold dict_getitem in *;
  unfold mbind, mret, M_bind, M_ret, raise, get_state, put_state, modify_state in *.

Lemma bind_ok {S A B} (m : M S A) (f : A → M S B) s a s' :
  m s = (Ok a, s') → (m ≫= f) s = f a s'.
Proof. intros E. unfold_monad. by rewrite E. Qed.

Lemma bind_raise {S A B} (m : M S A) (f : A → M S B) s e s' :
  m s = (Raise e, s') → (m ≫= f) s = (Raise e, s').
Proof. intros E. unfold_monad. by rewrite E. Qed.

(** ** Boundary normalisation (C3, C9) *)

Section Rounding.
Context {S : Type}.

Lemma int_div_nonneg x y : 0 ≤ x → 0 < y → int_div x y = x `div` y.
Proof. intros. unfold int_div. apply Z.quot_div_nonneg; lia. Qed.

Lemma microsecond_range d : 0 ≤ microsecond d < 1000000.
Proof. unfold microsecond. apply Z.mod_pos_bound. lia. Qed.

(** The start boundary becomes the largest whole millisecond not after
    it. *)
Lemma round_starttime_spec (starttime : datetime) (s : S) :
  round_starttime starttime s = (Ok (1000 * (starttime `div` 1000)), s).
Proof.
  unfold round_starttime, replace_microsecond.
  pose proof (microsecond_range starttime) as Hr.
  rewrite int_div_nonneg by lia.
  unfold microsecond in *.
  case_decide as Hd.
  - unfold_monad. do 2 f_equal. Z.div_mod_to_equations. lia.
  - exfalso. apply Hd. Z.div_mod_to_equations. lia.
Qed.

(** The end boundary becomes the smallest whole millisecond strictly after
    it; the [replace] never raises. *)
Lemma round_endtime_spec (endtime : datetime) (s : S) :
  round_endtime endtime s = (Ok (1000 * (endtime `div` 1000) + 1000), s).
Proof.
  unfold round_endtime, replace_microsecond, timedelta_seconds.
  pose proof (microsecond_range endtime) as Hr.
  rewrite (int_div_nonneg (microsecond endtime)) by lia.
  rewrite int_div_nonneg; [| Z.div_mod_to_equations; lia | lia].
  unfold microsecond in *.
  case_decide as Hd.
  - unfold_monad. do 2 f_equal. Z.div_mod_to_equations. lia.
  - exfalso. apply Hd. Z.div_mod_to_equations. lia.
Qed.

End Rounding.

Section BucketGet.
Context {S : Type} `{AbstractStorage.t S}.

Lemma get_unfold (self : Bucket_.t) (limit : Z) (starttime endtime : option datetime)
    (ds : Datastore.t S) :
  Bucket.get self limit starttime endtime ds
  = Datastore.call
      (AbstractStorage.get_events (Bucket_.bucket_hash_key self) limit
         ((λ d, 1000 * (d `div` 1000)) <$> starttime)
         ((λ d, 1000 * (d `div` 1000) + 1000) <$> endtime)) ds.
Proof.
  unfold Bucket.get, Bucket.if_given.
  destruct starttime as [st|], endtime as [en|]; simpl; unfold_monad;
    rewrite ?round_starttime_spec, ?round_endtime_spec; reflexivity.
Qed.

(** C3.  [Bucket.get] hands the backend a start boundary truncated down to
    the millisecond and an end boundary moved up to the next millisecond
    boundary (the carry into the seconds included, since the result is
    computed on the whole instant); a start of 10:00:00.123456 becomes
    10:00:00.123 and an end of 10:00:00.123456 becomes 10:00:00.124. *)
Theorem get_normalises_boundaries (self : Bucket_.t) (limit : Z)
    (starttime endtime : option datetime) (ds : Datastore.t S) :
  let down (d : datetime) := 1000 * (d `div` 1000) in
  let up (d : datetime) := 1000 * (d `div` 1000) + 1000 in
  Bucket.get self limit starttime endtime ds
  = Datastore.call
      (AbstractStorage.get_events (Bucket_.bucket_hash_key self) limit
         (down <$> starttime) (up <$> endtime)) ds
  ∧ (∀ d, round_starttime d ds = (Ok (down d), ds)
          ∧ down d `mod` 1000 = 0 ∧ down d ≤ d < down d + 1000)
  ∧ (∀ d, round_endtime d ds = (Ok (up d), ds)
          ∧ up d `mod` 1000 = 0 ∧ d < up d ≤ d + 1000)
  ∧ (∀ day, down (at_time day 10 0 0 123456) = at_time day 10 0 0 123000)
  ∧ (∀ day, up (at_time day 10 0 0 123456) = at_time day 10 0 0 124000).
Proof.
  intros down up. split; [apply get_unfold|].
  split; [|split; [|split]].
  - intros d. split; [apply round_starttime_spec|].
    unfold down. Z.div_mod_to_equations. lia.
  - intros d. split; [apply round_endtime_spec|].
    unfold up. Z.div_mod_to_equations. lia.
  - intros day. unfold down, at_time. Z.div_mod_to_equations. lia.
  - intros day. unfold up, at_time. Z.div_mod_to_equations. lia.
Qed.

(** C9.  An end boundary that already lies on a millisecond boundary is
    still advanced: the backend is queried with exactly one millisecond
    more.  Whenever the microsecond field is 999000 or more the rounded end
    has microsecond 0 in the following second. *)
Theorem get_aligned_end_advances (self : Bucket_.t) (limit : Z)
    (starttime : option datetime) (endtime : datetime) (ds : Datastore.t S) :
  microsecond endtime `mod` 1000 = 0 →
  round_endtime endtime ds = (Ok (endtime + 1000), ds)
  ∧ Bucket.get self limit starttime (Some endtime) ds
    = Datastore.call
        (AbstractStorage.get_events (Bucket_.bucket_hash_key self) limit
           ((λ d, 1000 * (d `div` 1000)) <$> starttime) (Some (endtime + 1000))) ds
  ∧ (999000 ≤ microsecond endtime →
     microsecond (endtime + 1000) = 0
     ∧ (endtime + 1000) `div` 1000000 = endtime `div` 1000000 + 1).
Proof.
  intros Hal.
  assert (1000 * (endtime `div` 1000) + 1000 = endtime + 1000) as E.
  { unfold microsecond in Hal. Z.div_mod_to_equations. lia. }
  split; [|split].
  - rewrite round_endtime_spec. by rewrite E.
  - rewrite get_unfold. simpl. by rewrite E.
  - unfold microsecond in *. intros Hge. Z.div_mod_to_equations. lia.
Qed.

(** The carry does not depend on the alignment of the end boundary. *)
Lemma round_endtime_carry_spec (endtime : datetime) (ds : Datastore.t S) :
  999000 ≤ microsecond endtime →
  round_endtime endtime ds = (Ok ((endtime `div` 1000000 + 1) * 1000000), ds).
Proof.
  intros Hge. rewrite round_endtime_spec. do 2 f_equal.
  unfold microsecond in *. Z.div_mod_to_equations. lia.
Qed.

(** C10.  An argument that is neither an [Event] nor a [list] raises
    [TypeError]; nothing has been called on the storage and nothing logged,
    so the datastore, the storage state within it, is unchanged. *)
Theorem insert_other_raises_TypeError (self : Bucket_.t) (now : datetime)
    (repr : string) (ds : Datastore.t S) :
  Bucket.insert self now (AnotherObject repr) ds = (Raise TypeError, ds).
Proof. reflexivity. Qed.

End BucketGet.

Lemma get_aligned_end_advances_witness :
  microsecond (at_time 0 10 0 0 999000) `mod` 1000 = 0
  ∧ Bucket.get (Bucket_.mk "b") (-1) None (Some (at_time 0 10 0 0 999000)) (Datastore.init Db.empty)
    = Datastore.call
        (AbstractStorage.get_events "b" (-1) None (Some (at_time 0 10 0 1 0)))
        (Datastore.init Db.empty).
Proof.
  split; [reflexivity|].
  exact (proj1 (proj2 (get_aligned_end_advances (Bucket_.mk "b") (-1) None
                         (at_time 0 10 0 0 999000) (Datastore.init Db.empty) eq_refl))).
Defined.

(** ** Queries: what [get_events] selects (C2, C5) *)

#[global] Instance newer_first_total : Total Query.newer_first.
Proof. intros r1 r2. unfold Query.newer_first. lia. Qed.

#[global] Instance newer_first_trans : Transitive Query.newer_first.
Proof. intros r1 r2 r3. unfold Query.newer_first. lia. Qed.

Lemma get_events_zero h st en (s : Db.t) :
  PeeweeStorage.get_events h 0 st en s = (Ok [], s).
Proof. reflexivity. Qed.

Lemma get_events_run h limit st en (s : Db.t) b :
  limit ≠ 0 →
  bucket_row h s = Some b →
  PeeweeStorage.get_events h limit st en s
  = (Ok (map (PeeweeStorage.trim st en)
           (map EventModel.json
              (Query.result_rows (PeeweeStorage.events_query (BucketModel.key b) limit st en)
                 (Db.eventmodel s)))),
     after_statements [SELECT "bucketmodel"; SELECT "eventmodel"] s).
Proof.
  intros Hl Hb. unfold PeeweeStorage.get_events.
  case_decide; [done|].
  unfold BucketModel_get_by_hash_key, Query.execute, Db.execute_sql, bucket_row in *.
  unfold_monad. simpl.
  destruct (List.filter _ (Db.bucketmodel s)) as [|b' bs]; [done|].
  simpl in Hb. injection Hb as ->. simpl.
  unfold after_statements. by rewrite <- app_assoc.
Qed.

Lemma get_events_no_bucket h limit st en (s : Db.t) :
  limit ≠ 0 →
  bucket_row h s = None →
  PeeweeStorage.get_events h limit st en s
  = (Raise DoesNotExist, after_statements [SELECT "bucketmodel"] s).
Proof.
  intros Hl Hb. unfold PeeweeStorage.get_events.
  case_decide; [done|].
  unfold BucketModel_get_by_hash_key, Db.execute_sql, bucket_row in *.
  unfold_monad. simpl.
  destruct (List.filter _ (Db.bucketmodel s)) as [|b' bs]; [done|].
  done.
Qed.


(** [ORDER BY timestamp DESC]: a stable sort. *)
Lemma insert_desc_Permutation r l : Query.insert_desc r l ≡ₚ r :: l.
Proof.
  induction l as [|x l IH]; simpl; [done|].
  case_decide; [done|]. rewrite IH. apply Permutation_swap.
Qed.

Lemma sort_desc_Permutation l : Query.sort_desc l ≡ₚ l.
Proof.
  induction l as [|x l IH]; simpl; [done|].
  rewrite insert_desc_Permutation. by rewrite IH.
Qed.

Lemma insert_desc_sorted r l :
  StronglySorted Query.newer_first l → StronglySorted Query.newer_first (Query.insert_desc r l).
Proof.
  induction l as [|x l IH]; simpl; intros Hl.
  - repeat constructor.
  - apply StronglySorted_inv in Hl as [Hl Hx].
    case_decide as Hle.
    + constructor; [by constructor|].
      constructor; [done|].
      eapply Forall_impl; [exact Hx|]. unfold Query.newer_first. simpl. intros y Hy. lia.
    + constructor; [by apply IH|].
      rewrite insert_desc_Permutation. constructor; [|done].
      unfold Query.newer_first. lia.
Qed.

Lemma sort_desc_sorted l : StronglySorted Query.newer_first (Query.sort_desc l).
Proof.
  induction l as [|x l IH]; simpl; [constructor|]. by apply insert_desc_sorted.
Qed.



Lemma elem_of_selected q rows r :
  r ∈ Query.selected q rows ↔ r ∈ rows ∧ Query.matches q r = true.
Proof.
  unfold Query.selected.
  destruct (Query.order_by_timestamp_desc q).
  - rewrite sort_desc_Permutation, !list_elem_of_In. apply filter_In.
  - rewrite !list_elem_of_In. apply filter_In.
Qed.

Lemma events_query_sorted key limit st en rows :
  StronglySorted Query.newer_first
    (Query.selected (PeeweeStorage.events_query key limit st en) rows).
Proof.
  unfold Query.selected.
  replace (Query.order_by_timestamp_desc (PeeweeStorage.events_query key limit st en))
    with true by (by destruct st, en).
  apply sort_desc_sorted.
Qed.

Lemma result_rows_negative_limit key limit st en rows :
  limit < 0 →
  Query.result_rows (PeeweeStorage.events_query key limit st en) rows
  = Query.selected (PeeweeStorage.events_query key limit st en) rows.
Proof.
  intros Hl. unfold Query.result_rows.
  replace (Query.limit_ (PeeweeStorage.events_query key limit st en))
    with (Some limit) by (by destruct st, en).
  unfold Query.apply_limit. by case_decide; [|lia].
Qed.

Lemma result_rows_limit key limit st en rows :
  0 ≤ limit →
  Query.result_rows (PeeweeStorage.events_query key limit st en) rows
  = take (Z.to_nat limit) (Query.selected (PeeweeStorage.events_query key limit st en) rows).
Proof.
  intros Hl. unfold Query.result_rows.
  replace (Query.limit_ (PeeweeStorage.events_query key limit st en))
    with (Some limit) by (by destruct st, en).
  unfold Query.apply_limit. by case_decide; [lia|].
Qed.

(** The clause [starttime <= dt_plus_duration(...)] on rows that start one
    second after the epoch.  A row that ends exactly at a start of 1.5 s is
    left out: the text of the start, with six digits after the point,
    sorts after the text of the end, with three.  So is a row that ends
    0.4 ms after this start, and so reaches past it: its end is rendered as
    1.500 s.  A row that ends one millisecond after the start passes.  A
    row that ends 0.4 ms before a start of 2 s passes: its end is rendered
    as 2.000 s, and the text of a start on a whole second has no fraction
    and sorts first. *)
Example reaches_compares_texts :
  ¬ reaches 1500000 (EventModel.mk (Some 1) 1 1000000 500000 "{}")
  ∧ (1500000 < 1000000 + 500400
     ∧ ¬ reaches 1500000 (EventModel.mk (Some 1) 1 1000000 500400 "{}"))
  ∧ reaches 1500000 (EventModel.mk (Some 1) 1 1000000 501000 "{}")
  ∧ reaches 2000000 (EventModel.mk (Some 1) 1 1000000 999600 "{}")
  ∧ ¬ reaches 2000000 (EventModel.mk (Some 1) 1 1000000 999400 "{}").
Proof.
  unfold reaches. repeat split; try (intros Hr; vm_compute in Hr; discriminate Hr);
    vm_compute; reflexivity.
Qed.




(** C5 (as the code has it).  With [limit = 0] the handle still calls the
    backend's [get_events] (after normalising the boundaries); the peewee
    backend answers with the empty list without sending any statement, so
    the datastore is left exactly as it was.  With a negative [limit] every
    selected row is returned. *)
Theorem get_limit_zero_or_negative (self : Bucket_.t) (starttime endtime : option datetime) :
  let h := Bucket_.bucket_hash_key self in
  let starttime' := (λ d, 1000 * (d `div` 1000)) <$> starttime in
  let endtime' := (λ d, 1000 * (d `div` 1000) + 1000) <$> endtime in
  (∀ S (storage : AbstractStorage.t S) (ds : Datastore.t S),
     Bucket.get self 0 starttime endtime ds
     = Datastore.call (AbstractStorage.get_events h 0 starttime' endtime') ds)
  ∧ (∀ ds : Datastore.t Db.t, Bucket.get self 0 starttime endtime ds = (Ok [], ds))
  ∧ (∀ (ds : Datastore.t Db.t) (limit : Z) (b : BucketModel.t),
       limit < 0 →
       bucket_row h (Datastore.storage_strategy ds) = Some b →
       Bucket.get self limit starttime endtime ds
       = (Ok (map (PeeweeStorage.trim starttime' endtime')
                (map EventModel.json
                   (Query.selected
                      (PeeweeStorage.events_query (BucketModel.key b) limit starttime' endtime')
                      (Db.eventmodel (Datastore.storage_strategy ds))))),
          Datastore.mk (Datastore.bucket_instances ds)
            (after_statements [SELECT "bucketmodel"; SELECT "eventmodel"]
               (Datastore.storage_strategy ds))
            (Datastore.logger ds))).
Proof.
  intros h starttime' endtime'. split; [|split].
  - intros S storage ds. apply get_unfold.
  - intros ds. rewrite get_unfold. by destruct ds.
  - intros ds limit b Hl Hb. rewrite get_unfold. unfold Datastore.call. simpl.
    fold h starttime' endtime'.
    rewrite (get_events_run _ _ _ _ _ b) by (done || lia).
    by rewrite result_rows_negative_limit.
Qed.

Lemma get_limit_zero_or_negative_witness :
  ∃ b, bucket_row (calculate_bucket_hash_key "b" None) store_with_long_event = Some b
  ∧ fst (Bucket.get (Bucket_.mk (calculate_bucket_hash_key "b" None)) (-1) None None
           (Datastore.init store_with_long_event))
    = Ok [Event.mk (Some 1) 0 (timedelta_hours 48) "{}"].
Proof.
  eexists. split; [vm_compute; reflexivity|].
  etransitivity;
    [apply (f_equal fst),
       (proj2 (proj2 (get_limit_zero_or_negative
                        (Bucket_.mk (calculate_bucket_hash_key "b" None)) None None))
          (Datastore.init store_with_long_event) (-1));
     [done | vm_compute; reflexivity]|].
  vm_compute. reflexivity.
Defined.

(** C5, counterexample.  On the recording test double, [get] with
    [limit = 0] has called the backend once. *)
Lemma get_limit_zero_calls_backend :
  let ds := Datastore.init ([] : SpyStorage.t) in
  Bucket.get (Bucket_.mk "b") 0 None None ds = (Ok [], Datastore.mk ∅ ["get_events"] [])
  ∧ Datastore.storage_strategy (snd (Bucket.get (Bucket_.mk "b") 0 None None ds))
    ≠ Datastore.storage_strategy ds.
Proof. split; [reflexivity | discriminate]. Qed.

(** ** Trimming to the queried range (C4) *)

Lemma elem_of_result_rows q rows r :
  r ∈ Query.result_rows q rows → r ∈ rows ∧ Query.matches q r = true.
Proof.
  unfold Query.result_rows, Query.apply_limit. intros Hr.
  apply elem_of_selected.
  destruct (Query.limit_ q) as [n|]; [|done].
  case_decide; [done|].
  by eapply subseteq_take.
Qed.







(** ** Chunking (C6) *)

Section Chunks.
Context {A : Type}.
Implicit Types ls : list A.

Lemma chunks_run {S} ls (n : nat) (s : S) :
  n ≠ 0%nat → chunks ls n s = (Ok (slices ls n), s).
Proof. intros Hn. unfold chunks. by case_decide. Qed.

Lemma range0_nil (n : nat) : (0 < n)%nat → range0 0 n = [].
Proof.
  intros Hn. unfold range0. simpl.
  by rewrite Nat.div_small by lia.
Qed.

Lemma range0_step (len n : nat) :
  (0 < n)%nat → (0 < len)%nat →
  range0 len n = 0%nat :: map (λ i, i + n)%nat (range0 (len - n) n).
Proof.
  intros Hn Hlen. unfold range0.
  assert ((len + n - 1) / n = Datatypes.S ((len - n + n - 1) / n))%nat as ->.
  { replace (len + n - 1)%nat with ((len - 1) + 1 * n)%nat by lia.
    rewrite Nat.div_add by lia.
    destruct (decide (n ≤ len)%nat).
    - replace (len - n + n - 1)%nat with (len - 1)%nat by lia. lia.
    - replace (len - n + n - 1)%nat with (n - 1)%nat by lia.
      rewrite !Nat.div_small by lia. lia. }
  simpl. f_equal.
  rewrite <- seq_shift, !map_map. apply map_ext. intros k. lia.
Qed.

Lemma slices_nil (n : nat) : (0 < n)%nat → slices (A:=A) [] n = [].
Proof. intros Hn. unfold slices. simpl. by rewrite range0_nil. Qed.

Lemma slices_step ls (n : nat) :
  (0 < n)%nat → ls ≠ [] →
  slices ls n = take n ls :: slices (drop n ls) n.
Proof.
  intros Hn Hls. unfold slices.
  rewrite range0_step by first [done | destruct ls; [done | simpl; lia]].
  simpl. f_equal. rewrite length_drop, map_map.
  apply map_ext. intros i. by rewrite drop_drop, Nat.add_comm.
Qed.

(** Induction along the way [chunks] walks its list. *)
Lemma slices_ind (n : nat) (P : list A → Prop) :
  (0 < n)%nat →
  P [] →
  (∀ ls, ls ≠ [] → P (drop n ls) → P ls) →
  ∀ ls, P ls.
Proof.
  intros Hn Hnil Hstep ls.
  remember (length ls) as len eqn:Hlen.
  revert ls Hlen. induction (lt_wf len) as [len _ IH]. intros ls ->.
  destruct ls as [|x ls']; [done|].
  apply Hstep; [done|].
  apply (IH (length (drop n (x :: ls')))); [|done].
  rewrite length_drop. simpl. lia.
Qed.

Lemma concat_slices ls (n : nat) : (0 < n)%nat → concat (slices ls n) = ls.
Proof.
  intros Hn. revert ls. apply (slices_ind n); [done| |].
  - by rewrite slices_nil.
  - intros ls Hne IH. rewrite slices_step by done. simpl. rewrite IH. apply take_drop.
Qed.

Lemma slices_lengths ls (n : nat) :
  (0 < n)%nat → Forall (λ c, 0 < length c ≤ n)%nat (slices ls n).
Proof.
  intros Hn. revert ls. apply (slices_ind n); [done| |].
  - by rewrite slices_nil.
  - intros ls Hne IH. rewrite slices_step by done. constructor; [|done].
    rewrite length_take. destruct ls; simpl in *; [done|lia].
Qed.

(** Every slice but the last is full. *)
Lemma slices_full ls (n i : nat) c :
  (0 < n)%nat →
  slices ls n !! i = Some c → (Datatypes.S i < length (slices ls n))%nat →
  length c = n.
Proof.
  intros Hn. revert i c. revert ls.
  apply (slices_ind n (λ ls, ∀ i c, slices ls n !! i = Some c →
           (Datatypes.S i < length (slices ls n))%nat → length c = n)); [done| |].
  - intros i c. by rewrite slices_nil.
  - intros ls Hne IH i c. rewrite slices_step by done. simpl. intros Hi Hlen.
    destruct i as [|i]; simpl in Hi.
    + injection Hi as <-. rewrite length_take.
      destruct (decide (n ≤ length ls)%nat); [lia|].
      rewrite (drop_ge ls n) in Hlen by lia.
      rewrite slices_nil in Hlen by done. simpl in Hlen. lia.
    + apply (IH i c Hi). lia.
Qed.

End Chunks.

(** ** Inserting (C6, C8) *)

Lemma foldl_write_step {A} (g : A → list EventModel.t → list EventModel.t)
    (st : A → statement) (s : Db.t) (l : list A) :
  foldl (write_step g st) s l
  = Db.mk (Db.bucketmodel s) (foldl (λ rows a, g a rows) (Db.eventmodel s) l)
      (Db.usermodel s) (Db.bucket_hash_keys s) (Db.statements s ++ map st l).
Proof.
  revert s. induction l as [|a l IH]; intros s; simpl.
  - rewrite app_nil_r. by destruct s.
  - rewrite IH. simpl. by rewrite <- app_assoc.
Qed.

Lemma for_each_run {S A} (P : S → Prop) (f : S → A → S) (body : A → M S unit) (l : list A) (s : S) :
  (∀ s a, P s → body a s = (Ok tt, f s a) ∧ P (f s a)) →
  P s →
  for_each l body s = (Ok tt, foldl f s l) ∧ P (foldl f s l).
Proof.
  intros Hbody. revert s. induction l as [|a l IH]; intros s Hs; simpl.
  - done.
  - destruct (Hbody s a Hs) as [E Hs']. unfold_monad. rewrite E. by apply IH.
Qed.

Lemma EventModel_save_run (e : EventModel.t) (s : Db.t) :
  EventModel_save e s
  = (Ok (match EventModel.id e with
         | Some _ => e
         | None => EventModel.set_id (Some (Db.next_rowid (omap EventModel.id (Db.eventmodel s)))) e
         end),
     write_step saved_rows save_statement s e).
Proof.
  unfold EventModel_save, write_step, saved_rows, save_statement, Db.execute_sql.
  destruct (EventModel.id e); reflexivity.
Qed.

Lemma insert_one_run (h : string) (event : Event.t) (s : Db.t) (key : Z) :
  Db.bucket_hash_keys s !! h = Some key →
  PeeweeStorage.insert_one h event s
  = (Ok (Event.set_id
           (match Event.id event with
            | Some pk => Some pk
            | None => Some (Db.next_rowid (omap EventModel.id (Db.eventmodel s)))
            end) event),
     write_step saved_rows save_statement s (EventModel.from_event key event)).
Proof.
  intros Hk. unfold PeeweeStorage.insert_one. unfold_monad. rewrite Hk.
  cbv beta iota. rewrite EventModel_save_run.
  by destruct event as [[pk|] ts du da].
Qed.

Lemma insert_one_no_bucket (h : string) (event : Event.t) (s : Db.t) :
  Db.bucket_hash_keys s !! h = None →
  PeeweeStorage.insert_one h event s = (Raise KeyError, s).
Proof. intros Hk. unfold PeeweeStorage.insert_one. unfold_monad. by rewrite Hk. Qed.

Lemma EventModel_insert_many_run (chunk : list EventModel.t) (s : Db.t) :
  EventModel_insert_many chunk s
  = (Ok tt,
     write_step (λ c rows, foldl (λ rows e, insert_row e rows) rows c)
       (λ c, INSERT "eventmodel" (length c)) s chunk).
Proof. reflexivity. Qed.

Lemma dictlist_run (h : string) (key : Z) (l : list Event.t) (s : Db.t) :
  Db.bucket_hash_keys s !! h = Some key →
  comprehension l
    (λ event,
       s ← get_state;
       bucket ← dict_getitem (Db.bucket_hash_keys s) h;
       mret (EventModel.mk None bucket (Event.timestamp event)
               (Event.duration event) (Event.data event))) s
  = (Ok (map (new_row key) l), s).
Proof.
  intros Hk. induction l as [|e l IH]; simpl; [done|].
  unfold_monad. rewrite Hk. unfold_monad. by rewrite IH.
Qed.

Lemma updates_rows (key : Z) (events : list Event.t) (rows : list EventModel.t) :
  foldl (λ rows e, saved_rows (EventModel.from_event key e) rows) rows
    (List.filter (λ e, bool_decide (Event.id e ≠ None)) events)
  = foldl (replace_row key) rows events.
Proof.
  revert rows. induction events as [|e events IH]; intros rows; simpl; [done|].
  unfold replace_row at 2. destruct (Event.id e) as [pk|] eqn:He.
  - rewrite bool_decide_true by done. simpl. rewrite IH.
    unfold saved_rows. simpl. by rewrite He.
  - rewrite bool_decide_false by (by intros []). apply IH.
Qed.

Lemma updates_statements (key : Z) (events : list Event.t) :
  map (λ e, save_statement (EventModel.from_event key e))
    (List.filter (λ e, bool_decide (Event.id e ≠ None)) events)
  = map (UPDATE "eventmodel") (omap Event.id events).
Proof.
  induction events as [|e events IH]; simpl; [done|].
  destruct (Event.id e) as [pk|] eqn:He.
  - rewrite bool_decide_true by done. simpl. rewrite IH.
    unfold save_statement. simpl. by rewrite He.
  - rewrite bool_decide_false by (by intros []). apply IH.
Qed.

Lemma foldl_concat {A B} (f : B → A → B) (b : B) (ls : list (list A)) :
  foldl (λ b l, foldl f b l) b ls = foldl f b (concat ls).
Proof.
  revert b. induction ls as [|l ls IH]; intros b; simpl; [done|].
  by rewrite IH, foldl_app.
Qed.

Lemma length_update_row pk e rows : length (update_row pk e rows) = length rows.
Proof. unfold update_row. apply length_map. Qed.

Lemma length_replace_rows key events rows :
  length (foldl (replace_row key) rows events) = length rows.
Proof.
  revert rows. induction events as [|e events IH]; intros rows; simpl; [done|].
  rewrite IH. unfold replace_row. destruct (Event.id e); [apply length_update_row|done].
Qed.

Lemma length_insert_rows (new : list EventModel.t) rows :
  length (foldl (λ rows e, insert_row e rows) rows new) = (length rows + length new)%nat.
Proof.
  revert rows. induction new as [|e new IH]; intros rows; simpl; [lia|].
  rewrite IH. unfold insert_row. rewrite length_app. simpl. lia.
Qed.

Lemma insert_many_run (h : string) (events : list Event.t) (s : Db.t) (key : Z) :
  Db.bucket_hash_keys s !! h = Some key →
  let new_rows := map (new_row key) (List.filter (λ e, bool_decide (Event.id e = None)) events) in
  let cs := slices new_rows 100 in
  PeeweeStorage.insert_many h events s
  = (Ok tt,
     Db.mk (Db.bucketmodel s)
       (foldl (λ rows e, insert_row e rows)
          (foldl (replace_row key) (Db.eventmodel s) events) new_rows)
       (Db.usermodel s) (Db.bucket_hash_keys s)
       (Db.statements s ++ map (UPDATE "eventmodel") (omap Event.id events)
          ++ map (λ c, INSERT "eventmodel" (length c)) cs)).
Proof.
  intros Hk new_rows cs. unfold PeeweeStorage.insert_many.
  set (with_id := List.filter (λ e, bool_decide (Event.id e ≠ None)) events).
  (* the updates, one by one *)
  destruct (for_each_run (λ s, Db.bucket_hash_keys s !! h = Some key)
              (λ s e, write_step saved_rows save_statement s (EventModel.from_event key e))
              (λ e, _ ← PeeweeStorage.insert_one h e; mret tt) with_id s) as [E1 Hk1];
    [|done|].
  { intros s0 e Hk0. split; [|done].
    unfold_monad. by rewrite (insert_one_run _ _ _ key). }
  erewrite bind_ok by exact E1.
  (* the rows to insert *)
  erewrite bind_ok by (apply dictlist_run; exact Hk1).
  erewrite bind_ok by (by apply chunks_run).
  fold new_rows cs.
  (* the chunks *)
  destruct (for_each_run (λ _, True)
              (write_step (λ c rows, foldl (λ rows e, insert_row e rows) rows c)
                 (λ c, INSERT "eventmodel" (length c)))
              EventModel_insert_many cs
              (foldl (λ s e, write_step saved_rows save_statement s (EventModel.from_event key e))
                 s with_id)) as [E2 _]; [|done|].
  { intros s0 c _. by rewrite EventModel_insert_many_run. }
  rewrite E2. f_equal.
  rewrite foldl_write_step. simpl.
  rewrite (foldl_write_step (λ e, saved_rows (EventModel.from_event key e))
             (λ e, save_statement (EventModel.from_event key e))). simpl.
  unfold with_id. rewrite updates_rows, updates_statements, foldl_concat.
  unfold cs. rewrite concat_slices by lia. by rewrite <- app_assoc.
Qed.

(** [insert_many] as the code has it: the events that carry an id are
    written one at a time, each with an [UPDATE] of the row that has this
    primary key (the number of rows does not change), and then the events
    without an id are inserted as fresh rows, one [INSERT] per chunk; the
    chunks are the consecutive groups of 100 of these events, the last one
    possibly shorter. *)
Lemma insert_many_updates_then_chunks (h : string) (events : list Event.t)
    (s : Db.t) (key : Z) :
  Db.bucket_hash_keys s !! h = Some key →
  let new_rows := map (new_row key) (List.filter (λ e, bool_decide (Event.id e = None)) events) in
  ∃ (cs : list (list EventModel.t)) (s' : Db.t),
    PeeweeStorage.insert_many h events s = (Ok tt, s')
    ∧ chunks new_rows 100 s = (Ok cs, s)
    ∧ concat cs = new_rows
    ∧ Forall (λ c, 0 < length c ≤ 100)%nat cs
    ∧ (∀ i c, cs !! i = Some c → (Datatypes.S i < length cs)%nat → length c = 100%nat)
    ∧ Db.statements s'
      = Db.statements s ++ map (UPDATE "eventmodel") (omap Event.id events)
          ++ map (λ c, INSERT "eventmodel" (length c)) cs
    ∧ Db.eventmodel s'
      = foldl (λ rows e, insert_row e rows)
          (foldl (replace_row key) (Db.eventmodel s) events) new_rows
    ∧ length (foldl (replace_row key) (Db.eventmodel s) events) = length (Db.eventmodel s)
    ∧ length (Db.eventmodel s') = (length (Db.eventmodel s) + length new_rows)%nat
    ∧ Db.bucketmodel s' = Db.bucketmodel s
    ∧ Db.bucket_hash_keys s' = Db.bucket_hash_keys s.
Proof.
  intros Hk new_rows.
  exists (slices new_rows 100). eexists.
  split; [by apply insert_many_run|]. simpl.
  split; [by apply chunks_run|].
  split; [apply concat_slices; lia|].
  split; [apply slices_lengths; lia|].
  split; [intros i c; apply slices_full; lia|].
  split; [done|]. split; [done|].
  split; [apply length_replace_rows|].
  split; [|done].
  by rewrite length_insert_rows, length_replace_rows.
Qed.

Lemma insert_many_updates_then_chunks_witness :
  ∃ s', PeeweeStorage.insert_many (calculate_bucket_hash_key "b" None)
          [Event.mk None 10000 5000 "{}"; Event.mk (Some 1) 20000 5000 "x"; Event.mk None 30000 5000 "{}"]
          store_with_long_event = (Ok tt, s')
  ∧ Db.eventmodel s'
    = [EventModel.mk (Some 1) 1 20000 5000 "x"; EventModel.mk (Some 2) 1 10000 5000 "{}";
       EventModel.mk (Some 3) 1 30000 5000 "{}"].
Proof.
  destruct (insert_many_updates_then_chunks (calculate_bucket_hash_key "b" None)
              [Event.mk None 10000 5000 "{}"; Event.mk (Some 1) 20000 5000 "x"; Event.mk None 30000 5000 "{}"]
              store_with_long_event 1) as (cs & s' & Hrun & _ & _ & _ & _ & _ & Hrows & _);
    [vm_compute; reflexivity|].
  exists s'. split; [exact Hrun|].
  rewrite Hrows. vm_compute. reflexivity.
Defined.

(** C6.  The comment in [insert_many] calls the events that carry an id
    upserts, as the specification does; the code writes them with
    [insert_one], whose [e.save()] is an [UPDATE] when the primary key is
    set.  An event
    with the pre-assigned id 7, inserted into a bucket that has no row with
    this id: the [UPDATE] matches nothing, [insert_many] returns normally,
    no row is stored, and the event cannot be fetched afterwards. *)
Theorem insert_many_with_unknown_id_stores_nothing :
  let h := calculate_bucket_hash_key "b" None in
  let run := PeeweeStorage.insert_many h [Event.mk (Some 7) 10000 5000 "{}"] store_with_empty_bucket in
  fst run = Ok tt
  ∧ Db.eventmodel (snd run) = []
  ∧ Db.statements (snd run)
    = Db.statements store_with_empty_bucket ++ [UPDATE "eventmodel" 7]
  ∧ fst (PeeweeStorage.get_event h 7 (snd run)) = Ok None.
Proof. vm_compute. repeat split; reflexivity. Qed.

(** ** Replacing the last event (C7) *)

Lemma elem_of_last_query key rows r :
  r ∈ Query.selected (last_query key) rows ↔ r ∈ rows ∧ EventModel.bucket r = key.
Proof.
  rewrite elem_of_selected. unfold Query.matches, last_query. simpl.
  rewrite andb_true_r, bool_decide_eq_true. done.
Qed.

Lemma last_query_sorted key rows :
  StronglySorted Query.newer_first (Query.selected (last_query key) rows).
Proof. unfold Query.selected. simpl. apply sort_desc_sorted. Qed.

Lemma get_last_run (h : string) (s : Db.t) (key : Z) :
  Db.bucket_hash_keys s !! h = Some key →
  PeeweeStorage._get_last h s
  = (match Query.selected (last_query key) (Db.eventmodel s) with
     | r :: _ => Ok r
     | [] => Raise DoesNotExist
     end,
     after_statements [SELECT "eventmodel"] s).
Proof.
  intros Hk. unfold PeeweeStorage._get_last. unfold_monad. rewrite Hk. cbv beta iota.
  fold (last_query key). unfold Query.get, Db.execute_sql. unfold_monad. simpl.
  change (Query.result_rows (Query.limit 1 (last_query key)) (Db.eventmodel s))
    with (take 1 (Query.selected (last_query key) (Db.eventmodel s))).
  by destruct (Query.selected (last_query key) (Db.eventmodel s)).
Qed.

(** C7.  On a bucket without events [replace_last] fails (with peewee's
    [DoesNotExist], the exception this code base raises for an empty
    bucket) and changes no table.  On a bucket with events it overwrites
    timestamp, duration and data of a row of the bucket whose timestamp is
    the greatest, keeps the id of that row, and leaves every other row as it
    was. *)
Theorem replace_last_overwrites_newest (h : string) (event : Event.t) (s : Db.t) (key : Z) :
  Db.bucket_hash_keys s !! h = Some key →
  primary_keys_ok (Db.eventmodel s) →
  ((∀ r, r ∈ Db.eventmodel s → EventModel.bucket r ≠ key) →
   PeeweeStorage.replace_last h event s
   = (Raise DoesNotExist, after_statements [SELECT "eventmodel"] s))
  ∧ ((∃ r, r ∈ Db.eventmodel s ∧ EventModel.bucket r = key) →
     ∃ (last : EventModel.t) (pk : Z) (s' : Db.t),
       last ∈ Db.eventmodel s
       ∧ EventModel.bucket last = key
       ∧ EventModel.id last = Some pk
       ∧ (∀ r, r ∈ Db.eventmodel s → EventModel.bucket r = key →
               EventModel.timestamp r ≤ EventModel.timestamp last)
       ∧ PeeweeStorage.replace_last h event s = (Ok (Event.set_id (Some pk) event), s')
       ∧ Db.eventmodel s'
         = map (λ r, if decide (r = last)
                     then EventModel.mk (Some pk) key (Event.timestamp event)
                            (Event.duration event) (Event.data event)
                     else r) (Db.eventmodel s)
       ∧ Db.bucketmodel s' = Db.bucketmodel s).
Proof.
  intros Hk [Hnodup Hids]. split.
  - intros Hempty. unfold PeeweeStorage.replace_last.
    erewrite bind_raise; [done|]. rewrite (get_last_run _ _ key) by done.
    destruct (Query.selected (last_query key) (Db.eventmodel s)) as [|r rs] eqn:Hsel; [done|].
    assert (r ∈ Query.selected (last_query key) (Db.eventmodel s)) as Hr
      by (rewrite Hsel; apply list_elem_of_here).
    apply elem_of_last_query in Hr as [Hr Hb]. by destruct (Hempty r Hr).
  - intros (r0 & Hr0 & Hb0).
    destruct (Query.selected (last_query key) (Db.eventmodel s)) as [|last rs] eqn:Hsel.
    { assert (r0 ∈ Query.selected (last_query key) (Db.eventmodel s)) as Hin
        by (by apply elem_of_last_query).
      rewrite Hsel in Hin. by apply elem_of_nil in Hin. }
    assert (last ∈ Db.eventmodel s ∧ EventModel.bucket last = key) as [Hlast Hbl].
    { apply elem_of_last_query. rewrite Hsel. apply list_elem_of_here. }
    assert (is_Some (EventModel.id last)) as [pk Hpk].
    { rewrite Forall_forall in Hids. by apply Hids. }
    exists last, pk. eexists.
    split; [done|]. split; [done|]. split; [done|]. split.
    { intros r Hr Hb.
      assert (r ∈ last :: rs) as Hin by (rewrite <- Hsel; by apply elem_of_last_query).
      pose proof (last_query_sorted key (Db.eventmodel s)) as Hsorted.
      rewrite Hsel in Hsorted. apply StronglySorted_inv in Hsorted as [_ Hall].
      apply elem_of_cons in Hin as [->|Hin]; [unfold Query.newer_first; lia|].
      rewrite Forall_forall in Hall. by apply Hall. }
    unfold PeeweeStorage.replace_last.
    erewrite bind_ok by (rewrite (get_last_run _ _ key), Hsel; done).
    cbv beta zeta. erewrite bind_ok by apply EventModel_save_run.
    rewrite Hbl, Hpk. simpl.
    split; [done|]. split; [|done].
    unfold saved_rows, update_row. simpl.
    apply map_ext_in. intros r Hr.
    destruct (decide (r = last)) as [->|Hne].
    + by rewrite decide_True.
    + rewrite decide_False; [done|]. intros Hid. apply Hne.
      apply list_elem_of_In in Hr.
      apply list_elem_of_lookup in Hr as [i Hi], Hlast as [j Hj].
      assert (i = j) as ->; [|congruence].
      apply (NoDup_lookup _ i j (EventModel.id last) Hnodup);
        rewrite list_lookup_fmap; [rewrite Hi|rewrite Hj]; simpl; congruence.
Qed.

Lemma replace_last_overwrites_newest_witness :
  Db.bucket_hash_keys store_with_long_event !! Bucket_.bucket_hash_key bucket_b = Some 1
  ∧ primary_keys_ok (Db.eventmodel store_with_long_event)
  ∧ (∃ r, r ∈ Db.eventmodel store_with_long_event ∧ EventModel.bucket r = 1)
  ∧ ∃ (last : EventModel.t) (pk : Z) (s' : Db.t),
      last ∈ Db.eventmodel store_with_long_event
      ∧ PeeweeStorage.replace_last (Bucket_.bucket_hash_key bucket_b)
          (Event.mk None 7000 3000 "new") store_with_long_event
        = (Ok (Event.set_id (Some pk) (Event.mk None 7000 3000 "new")), s').
Proof.
  assert (Db.bucket_hash_keys store_with_long_event !! Bucket_.bucket_hash_key bucket_b
          = Some 1) as Hk by (vm_compute; reflexivity).
  assert (primary_keys_ok (Db.eventmodel store_with_long_event)) as Hpk.
  { split.
    - vm_compute. apply NoDup_singleton.
    - vm_compute. repeat constructor. eexists. reflexivity. }
  assert (∃ r, r ∈ Db.eventmodel store_with_long_event ∧ EventModel.bucket r = 1) as Hne
    by (exists (EventModel.mk (Some 1) 1 0 (timedelta_hours 48) "{}");
        vm_compute; split; [apply list_elem_of_here | reflexivity]).
  split; [exact Hk|]. split; [exact Hpk|]. split; [exact Hne|].
  destruct (proj2 (replace_last_overwrites_newest (Bucket_.bucket_hash_key bucket_b)
                     (Event.mk None 7000 3000 "new") store_with_long_event 1 Hk Hpk) Hne)
    as (last & pk & s' & Hin & _ & _ & _ & Hrun & _).
  exists last, pk, s'. split; [exact Hin | exact Hrun].
Defined.

(** On the store with the empty bucket, [replace_last] raises. *)
Example replace_last_empty_bucket :
  fst (PeeweeStorage.replace_last (Bucket_.bucket_hash_key bucket_b)
         (Event.mk None 7000 3000 "new") store_with_empty_bucket) = Raise DoesNotExist.
Proof. vm_compute. reflexivity. Qed.

(** On the store with the 48-hour event, [replace_last] overwrites it. *)
Example replace_last_long_event :
  let run := PeeweeStorage.replace_last (Bucket_.bucket_hash_key bucket_b)
               (Event.mk None 7000 3000 "new") store_with_long_event in
  fst run = Ok (Event.mk (Some 1) 7000 3000 "new")
  ∧ Db.eventmodel (snd run) = [EventModel.mk (Some 1) 1 7000 3000 "new"].
Proof. vm_compute. split; reflexivity. Qed.

(** ** Fresh primary keys *)

Lemma foldr_max_ge (x : Z) (xs : list Z) :
  x ≤ foldr Z.max x xs ∧ ∀ y, y ∈ xs → y ≤ foldr Z.max x xs.
Proof.
  induction xs as [|z xs [IH1 IH2]]; simpl.
  - split; [lia|]. intros y Hy. by apply elem_of_nil in Hy.
  - split; [lia|]. intros y Hy. apply elem_of_cons in Hy as [->|Hy]; [lia|].
    specialize (IH2 y Hy). lia.
Qed.

Lemma next_rowid_fresh (used : list Z) (y : Z) : y ∈ used → y < Db.next_rowid used.
Proof.
  destruct used as [|x xs]; simpl.
  - intros Hy. by apply elem_of_nil in Hy.
  - intros Hy. destruct (foldr_max_ge x xs) as [H1 H2].
    apply elem_of_cons in Hy as [->|Hy]; [lia|]. specialize (H2 y Hy). lia.
Qed.

Lemma next_rowid_above_rows (rows : list EventModel.t) (r : EventModel.t) (i : Z) :
  r ∈ rows → EventModel.id r = Some i → i < Db.next_rowid (omap EventModel.id rows).
Proof.
  intros Hr Hi. apply next_rowid_fresh. apply list_elem_of_omap. by exists r.
Qed.



(** The primary-key constraint holds of the empty table and is kept by
    every write of the storage. *)
Lemma primary_keys_ok_nil : primary_keys_ok [].
Proof. split; constructor. Qed.

Lemma primary_keys_ok_insert_row (e : EventModel.t) (rows : list EventModel.t) :
  primary_keys_ok rows → primary_keys_ok (insert_row e rows).
Proof.
  intros [Hnodup Hids]. unfold insert_row. split.
  - rewrite map_app. simpl. apply NoDup_app. split; [done|]. split.
    + intros i Hi Hin. apply list_elem_of_singleton in Hin as ->.
      apply list_elem_of_fmap in Hi as (r & Hr & Hin).
      pose proof (next_rowid_above_rows _ _ _ Hin (eq_sym Hr)). lia.
    + apply NoDup_singleton.
  - apply Forall_app. split; [done|]. repeat constructor. by eexists.
Qed.

Lemma map_id_update_row (pk : Z) (e : EventModel.t) (rows : list EventModel.t) :
  EventModel.id e = Some pk →
  map EventModel.id (update_row pk e rows) = map EventModel.id rows.
Proof.
  intros He. unfold update_row. rewrite map_map. apply map_ext.
  intros r. case_decide; congruence.
Qed.

Lemma primary_keys_ok_update_row (pk : Z) (e : EventModel.t) (rows : list EventModel.t) :
  EventModel.id e = Some pk →
  primary_keys_ok rows → primary_keys_ok (update_row pk e rows).
Proof.
  intros He [Hnodup Hids]. split.
  - by rewrite map_id_update_row.
  - unfold update_row. rewrite Forall_forall in Hids. apply Forall_forall.
    intros r Hr. apply list_elem_of_fmap in Hr as (r0 & -> & Hr0).
    case_decide; [by rewrite He|by apply Hids].
Qed.

Lemma primary_keys_ok_saved_rows (e : EventModel.t) (rows : list EventModel.t) :
  primary_keys_ok rows → primary_keys_ok (saved_rows e rows).
Proof.
  intros Hok. unfold saved_rows. destruct (EventModel.id e) as [pk|] eqn:He.
  - by apply primary_keys_ok_update_row.
  - by apply primary_keys_ok_insert_row.
Qed.

Lemma primary_keys_ok_insert_one (h : string) (event : Event.t) (s : Db.t) :
  primary_keys_ok (Db.eventmodel s) →
  primary_keys_ok (Db.eventmodel (snd (PeeweeStorage.insert_one h event s))).
Proof.
  intros Hok. destruct (Db.bucket_hash_keys s !! h) as [key|] eqn:Hk.
  - rewrite (insert_one_run _ _ _ key) by done. simpl.
    by apply primary_keys_ok_saved_rows.
  - by rewrite insert_one_no_bucket.
Qed.

Lemma primary_keys_ok_insert_many (h : string) (events : list Event.t) (s : Db.t) (key : Z) :
  Db.bucket_hash_keys s !! h = Some key →
  primary_keys_ok (Db.eventmodel s) →
  primary_keys_ok (Db.eventmodel (snd (PeeweeStorage.insert_many h events s))).
Proof.
  intros Hk Hok. rewrite (insert_many_run _ _ _ key) by done. simpl.
  set (new := map _ _). clearbody new.
  assert (primary_keys_ok (foldl (replace_row key) (Db.eventmodel s) events)) as Hok1.
  { revert Hok. generalize (Db.eventmodel s).
    induction events as [|e events IH]; intros rows Hok; simpl; [done|].
    apply IH. unfold replace_row. destruct (Event.id e) as [pk|] eqn:He; [|done].
    by apply primary_keys_ok_update_row. }
  revert Hok1. generalize (foldl (replace_row key) (Db.eventmodel s) events).
  induction new as [|x new IH]; intros rows Hok1; simpl; [done|].
  apply IH. by apply primary_keys_ok_insert_row.
Qed.

(** Fetching by id a row that is the only one with this id. *)
Lemma get_event_run (h : string) (pk key : Z) (s : Db.t) (a : EventModel.t) :
  Db.bucket_hash_keys s !! h = Some key →
  a ∈ Db.eventmodel s →
  EventModel.id a = Some pk →
  EventModel.bucket a = key →
  (∀ r, r ∈ Db.eventmodel s → EventModel.id r = Some pk → r = a) →
  PeeweeStorage.get_event h pk s
  = (Ok (Some (EventModel.json a)), after_statements [SELECT "eventmodel"] s).
Proof.
  intros Hk Ha Hid Hb Huniq.
  unfold PeeweeStorage.get_event, PeeweeStorage._get_event, try_except.
  unfold_monad. rewrite Hk. cbv beta iota.
  unfold Query.get, Db.execute_sql. unfold_monad. cbv beta iota.
  set (q := Query.where_ _ _).
  change (Query.result_rows (Query.limit 1 q) (Db.eventmodel (Db.set_statements (Db.statements s ++ [SELECT "eventmodel"]) s)))
    with (take 1 (Query.selected q (Db.eventmodel s))).
  assert (∀ r, r ∈ Query.selected q (Db.eventmodel s) ↔
               r ∈ Db.eventmodel s ∧ EventModel.id r = Some pk ∧ EventModel.bucket r = key)
    as Hsel.
  { intros r. rewrite elem_of_selected. unfold Query.matches, q. simpl.
    rewrite !andb_true_iff, !bool_decide_eq_true. tauto. }
  destruct (Query.selected q (Db.eventmodel s)) as [|r0 rest] eqn:E.
  - assert (a ∈ @nil EventModel.t) as Hnil by (by apply Hsel).
    by apply elem_of_nil in Hnil.
  - assert (r0 = a) as ->.
    { destruct (proj1 (Hsel r0) (list_elem_of_here _ _)) as (Hr0 & Hid0 & _).
      by apply Huniq. }
    reflexivity.
Qed.

(** ** Inserting through the bucket handle (C8) *)

Section BucketInsert.
Context {S : Type} `{AbstractStorage.t S}.

Lemma warn_if_future_run (self : Bucket_.t) (now : datetime) (e : Event.t) (ds : Datastore.t S) :
  Bucket.warn_if_future self now e ds
  = (Ok tt,
     Datastore.mk (Datastore.bucket_instances ds) (Datastore.storage_strategy ds)
       (Datastore.logger ds ++ future_warnings (Bucket_.bucket_hash_key self) now [e])).
Proof.
  unfold Bucket.warn_if_future, future_warnings. simpl. case_decide.
  - by rewrite bool_decide_true.
  - rewrite bool_decide_false by done. simpl. rewrite app_nil_r. by destruct ds.
Qed.

Lemma future_warnings_cons h now e events :
  future_warnings h now (e :: events)
  = future_warnings h now [e] ++ future_warnings h now events.
Proof.
  unfold future_warnings. simpl.
  by destruct (bool_decide (Event.timestamp e + Event.duration e > now)).
Qed.

Lemma warn_run (self : Bucket_.t) (now : datetime) (events : list Event.t) (ds : Datastore.t S) :
  for_each events (Bucket.warn_if_future self now) ds
  = (Ok tt,
     Datastore.mk (Datastore.bucket_instances ds) (Datastore.storage_strategy ds)
       (Datastore.logger ds ++ future_warnings (Bucket_.bucket_hash_key self) now events)).
Proof.
  revert ds. induction events as [|e events IH]; intros ds.
  - unfold future_warnings. simpl. rewrite app_nil_r. by destruct ds.
  - simpl. erewrite bind_ok by apply warn_if_future_run.
    rewrite IH. simpl. by rewrite <- app_assoc, <- future_warnings_cons.
Qed.

Lemma insert_event_run (self : Bucket_.t) (now : datetime) (event : Event.t) (ds : Datastore.t S) :
  let run := AbstractStorage.insert_one (Bucket_.bucket_hash_key self) event
               (Datastore.storage_strategy ds) in
  Bucket.insert self now (AnEvent event) ds
  = (match fst run with Ok e => Ok (Some e) | Raise x => Raise x end,
     Datastore.mk (Datastore.bucket_instances ds) (snd run)
       (Datastore.logger ds ++ future_warnings (Bucket_.bucket_hash_key self) now [event])).
Proof.
  intros run. unfold Bucket.insert.
  erewrite bind_ok by apply warn_if_future_run.
  unfold_monad. unfold Datastore.call. simpl. fold run.
  by destruct run as [[e|x] s'].
Qed.

Lemma insert_list_run (self : Bucket_.t) (now : datetime) (events : list Event.t) (ds : Datastore.t S) :
  let run := AbstractStorage.insert_many (Bucket_.bucket_hash_key self) events
               (Datastore.storage_strategy ds) in
  Bucket.insert self now (AList events) ds
  = (match fst run with Ok _ => Ok None | Raise x => Raise x end,
     Datastore.mk (Datastore.bucket_instances ds) (snd run)
       (Datastore.logger ds ++ future_warnings (Bucket_.bucket_hash_key self) now events)).
Proof.
  intros run. unfold Bucket.insert.
  erewrite bind_ok by apply warn_run.
  unfold_monad. unfold Datastore.call. simpl. fold run.
  by destruct run as [[e|x] s'].
Qed.

End BucketInsert.










(** ** Creating buckets (C1) *)

Lemma create_bucket_duplicate_id (bucket_id type_id client hostname : string)
    (created : datetime) (name data : option string) (user : option Z) (s : Db.t) :
  bucket_id ∈ map BucketModel.id (Db.bucketmodel s) →
  PeeweeStorage.create_bucket bucket_id type_id client hostname created name data user s
  = (Raise IntegrityError, after_statements [INSERT "bucketmodel" 1] s).
Proof.
  intros Hin. unfold PeeweeStorage.create_bucket.
  erewrite bind_raise; [done|].
  unfold BucketModel_create, Db.execute_sql. unfold_monad. simpl.
  by rewrite decide_True.
Qed.

Lemma create_bucket_fresh_id (bucket_id type_id client hostname : string)
    (created : datetime) (name data : option string) (user : option Z) (s : Db.t) :
  bucket_id ∉ map BucketModel.id (Db.bucketmodel s) →
  ∃ s', PeeweeStorage.create_bucket bucket_id type_id client hostname created name data user s
        = (Ok (calculate_bucket_hash_key bucket_id user), s')
      ∧ bucket_id ∈ map BucketModel.id (Db.bucketmodel s').
Proof.
  intros Hnin. unfold PeeweeStorage.create_bucket, BucketModel_create,
    PeeweeStorage.update_bucket_hash_keys, BucketModel_select, Db.execute_sql.
  unfold_monad. simpl. rewrite decide_False by done. simpl.
  eexists. split; [reflexivity|]. simpl.
  rewrite map_app. apply elem_of_app. right. simpl. apply list_elem_of_here.
Qed.

(** Whoever the two owners are, the second creation of a bucket with the
    same [bucket_id] violates the [unique=True] constraint of the [id]
    column. *)
Lemma create_bucket_twice_rejected (bucket_id type_id client hostname : string)
    (created : datetime) (name data : option string) (user1 user2 : option Z) (s : Db.t) :
  bucket_id ∉ map BucketModel.id (Db.bucketmodel s) →
  ∃ s1, PeeweeStorage.create_bucket bucket_id type_id client hostname created name data user1 s
        = (Ok (calculate_bucket_hash_key bucket_id user1), s1)
      ∧ fst (PeeweeStorage.create_bucket bucket_id type_id client hostname created name data
               user2 s1) = Raise IntegrityError.
Proof.
  intros Hnin.
  destruct (create_bucket_fresh_id bucket_id type_id client hostname created name data
              user1 s Hnin) as (s1 & Hrun & Hin).
  exists s1. split; [done|]. by rewrite create_bucket_duplicate_id.
Qed.

(** C1, the code at the failing input.  On a store with the users 1 and 2
    and no bucket, bucket "b" is created for owner 1; creating "b" for
    owner 2 then raises [IntegrityError] and adds no bucket, although the
    two hash keys differ. *)
Theorem create_bucket_same_id_second_owner_fails :
  let ds0 := Datastore.init store_with_two_users in
  let first := Datastore.create_bucket 0 "b" "t" "c" "host" None None None (Some 1) ds0 in
  let second :=
    Datastore.create_bucket 0 "b" "t" "c" "host" None None None (Some 2) (snd first) in
  fst first = Ok (Bucket_.mk (calculate_bucket_hash_key "b" (Some 1)))
  ∧ calculate_bucket_hash_key "b" (Some 1) ≠ calculate_bucket_hash_key "b" (Some 2)
  ∧ fst second = Raise IntegrityError
  ∧ Db.bucketmodel (Datastore.storage_strategy (snd second))
    = Db.bucketmodel (Datastore.storage_strategy (snd first))
  ∧ length (Db.bucketmodel (Datastore.storage_strategy (snd second))) = 1%nat.
Proof. vm_compute. repeat split; congruence. Qed.

(** The same bucket id under one owner and under another never gives two
    buckets: the first creation succeeds, every later one is rejected, for
    any bucket id and any two owners. *)
Example create_bucket_two_owners :
  ∃ s1, PeeweeStorage.create_bucket "b" "t" "c" "host" 0 None None (Some 1) Db.empty
        = (Ok (calculate_bucket_hash_key "b" (Some 1)), s1)
      ∧ fst (PeeweeStorage.create_bucket "b" "t" "c" "host" 0 None None (Some 2) s1)
        = Raise IntegrityError.
Proof.
  apply create_bucket_twice_rejected. simpl. apply not_elem_of_nil.
Qed.

(** * Further properties of the storage and its front end *)

(** ** The key cache *)

Lemma hash_keys_of_snoc (rows : list BucketModel.t) (b : BucketModel.t) :
  hash_keys_of (rows ++ [b]) = <[BucketModel.hash_key b := BucketModel.key b]> (hash_keys_of rows).
Proof. unfold hash_keys_of. by rewrite foldl_app. Qed.

(** The cache maps a hash key to the key of the last bucket row that
    carries it. *)
Lemma hash_keys_of_lookup (rows : list BucketModel.t) (h : string) :
  hash_keys_of rows !! h
  = BucketModel.key <$> last (List.filter (λ b, bool_decide (BucketModel.hash_key b = h)) rows).
Proof.
  induction rows as [|b rows IH] using rev_ind; [done|].
  rewrite hash_keys_of_snoc, List.filter_app. simpl.
  destruct (decide (BucketModel.hash_key b = h)) as [<-|Hne].
  - rewrite lookup_insert_eq, bool_decide_true by done. by rewrite last_snoc.
  - rewrite lookup_insert_ne, bool_decide_false by done. by rewrite app_nil_r.
Qed.

Lemma hash_keys_of_Some (rows : list BucketModel.t) (h : string) (k : Z) :
  hash_keys_of rows !! h = Some k →
  ∃ b, b ∈ rows ∧ BucketModel.hash_key b = h ∧ BucketModel.key b = k.
Proof.
  rewrite hash_keys_of_lookup. intros Hl.
  destruct (last _) as [b|] eqn:Hlast; [|done]. injection Hl as <-.
  apply last_Some_elem_of, list_elem_of_In, filter_In in Hlast as [Hin Hb].
  exists b. split; [by apply list_elem_of_In|]. split; [|done].
  by apply bool_decide_eq_true in Hb.
Qed.

Lemma hash_keys_of_None (rows : list BucketModel.t) (h : string) :
  hash_keys_of rows !! h = None ↔ ∀ b, b ∈ rows → BucketModel.hash_key b ≠ h.
Proof.
  rewrite hash_keys_of_lookup. split.
  - intros Hl b Hb Hh.
    assert (b ∈ List.filter (λ b, bool_decide (BucketModel.hash_key b = h)) rows) as Hin.
    { apply list_elem_of_In, filter_In. split; [by apply list_elem_of_In|].
      by apply bool_decide_eq_true. }
    destruct (List.filter _ rows) as [|x l] using rev_ind; [by apply elem_of_nil in Hin|].
    by rewrite last_snoc in Hl.
  - intros Hall. destruct (last _) as [b|] eqn:Hlast; [|done].
    apply last_Some_elem_of, list_elem_of_In, filter_In in Hlast as [Hin Hb].
    apply bool_decide_eq_true in Hb. by destruct (Hall b (proj2 (list_elem_of_In _ _) Hin)).
Qed.

(** ** What each operation does to the store *)

Lemma same_store_refl s : same_store s s.
Proof. by repeat split. Qed.

Lemma same_store_trans s1 s2 s3 : same_store s1 s2 → same_store s2 s3 → same_store s1 s3.
Proof. unfold same_store. intros (?&?&?&?) (?&?&?&?). repeat split; congruence. Qed.

Lemma same_store_after_statements sts s : same_store s (after_statements sts s).
Proof. by repeat split. Qed.

Lemma create_bucket_run (bucket_id type_id client hostname : string) (created : datetime)
    (name data : option string) (user : option Z) (s : Db.t) :
  bucket_id ∉ map BucketModel.id (Db.bucketmodel s) →
  let rows := Db.bucketmodel s
                ++ [created_row bucket_id type_id client hostname created name data user
                      (Db.bucketmodel s)] in
  PeeweeStorage.create_bucket bucket_id type_id client hostname created name data user s
  = (Ok (calculate_bucket_hash_key bucket_id user),
     Db.mk rows (Db.eventmodel s) (Db.usermodel s) (hash_keys_of rows)
       (Db.statements s ++ [INSERT "bucketmodel" 1; SELECT "bucketmodel"])).
Proof.
  intros Hnin rows. unfold PeeweeStorage.create_bucket, BucketModel_create,
    PeeweeStorage.update_bucket_hash_keys, BucketModel_select, Db.execute_sql.
  unfold_monad. simpl. rewrite decide_False by done. simpl.
  by rewrite <- app_assoc.
Qed.

Lemma delete_bucket_run (h : string) (s : Db.t) (k : Z) :
  Db.bucket_hash_keys s !! h = Some k →
  let rows := List.filter (λ b, negb (bool_decide (BucketModel.key b = k))) (Db.bucketmodel s) in
  PeeweeStorage.delete_bucket h s
  = (Ok tt,
     Db.mk rows
       (List.filter (λ r, negb (bool_decide (EventModel.bucket r = k))) (Db.eventmodel s))
       (Db.usermodel s) (hash_keys_of rows)
       (Db.statements s ++ [DELETE "eventmodel"; DELETE "bucketmodel"; SELECT "bucketmodel"])).
Proof.
  intros Hk rows. unfold PeeweeStorage.delete_bucket. unfold_monad. rewrite Hk.
  unfold EventModel_delete_bucket, BucketModel_delete_key,
    PeeweeStorage.update_bucket_hash_keys, BucketModel_select, Db.execute_sql.
  unfold_monad. simpl. by rewrite <- !app_assoc.
Qed.

Lemma delete_bucket_unknown (h : string) (s : Db.t) :
  Db.bucket_hash_keys s !! h = None →
  PeeweeStorage.delete_bucket h s = (Raise ValueError, s).
Proof. intros Hk. unfold PeeweeStorage.delete_bucket. unfold_monad. by rewrite Hk. Qed.

Lemma get_by_key_run (k : Z) (s : Db.t) :
  BucketModel_get_by_key k s
  = (match head (List.filter (λ b, bool_decide (BucketModel.key b = k)) (Db.bucketmodel s)) with
     | Some b => Ok b
     | None => Raise DoesNotExist
     end,
     after_statements [SELECT "bucketmodel"] s).
Proof.
  unfold BucketModel_get_by_key, Db.execute_sql. unfold_monad. simpl.
  by destruct (List.filter _ (Db.bucketmodel s)).
Qed.

Lemma update_bucket_run (h : string) (type_id client hostname name data : option string)
    (s : Db.t) (k : Z) (b : BucketModel.t) :
  Db.bucket_hash_keys s !! h = Some k →
  head (List.filter (λ b, bool_decide (BucketModel.key b = k)) (Db.bucketmodel s)) = Some b →
  PeeweeStorageOps.update_bucket h type_id client hostname name data s
  = (Ok tt,
     Db.mk
       (map (λ r, if decide (BucketModel.key r = BucketModel.key b)
                  then patched_row type_id client hostname name data b else r)
          (Db.bucketmodel s))
       (Db.eventmodel s) (Db.usermodel s) (Db.bucket_hash_keys s)
       (Db.statements s ++ [SELECT "bucketmodel"; UPDATE "bucketmodel" (BucketModel.key b)])).
Proof.
  intros Hk Hb. unfold PeeweeStorageOps.update_bucket. unfold_monad. rewrite Hk.
  rewrite get_by_key_run, Hb. unfold BucketModel_save, Db.execute_sql. unfold_monad.
  simpl. by rewrite <- app_assoc.
Qed.

Lemma update_bucket_unknown (h : string) (type_id client hostname name data : option string)
    (s : Db.t) :
  Db.bucket_hash_keys s !! h = None →
  PeeweeStorageOps.update_bucket h type_id client hostname name data s = (Raise ValueError, s).
Proof. intros Hk. unfold PeeweeStorageOps.update_bucket. unfold_monad. by rewrite Hk. Qed.

Lemma update_bucket_stale (h : string) (type_id client hostname name data : option string)
    (s : Db.t) (k : Z) :
  Db.bucket_hash_keys s !! h = Some k →
  head (List.filter (λ b, bool_decide (BucketModel.key b = k)) (Db.bucketmodel s)) = None →
  PeeweeStorageOps.update_bucket h type_id client hostname name data s
  = (Raise DoesNotExist, after_statements [SELECT "bucketmodel"] s).
Proof.
  intros Hk Hb. unfold PeeweeStorageOps.update_bucket. unfold_monad. rewrite Hk.
  by rewrite get_by_key_run, Hb.
Qed.

Lemma _get_event_run (h : string) (event_id : Z) (s : Db.t) (key : Z) :
  Db.bucket_hash_keys s !! h = Some key →
  PeeweeStorage._get_event h event_id s
  = (Ok (head (List.filter (is_event event_id key) (Db.eventmodel s))),
     after_statements [SELECT "eventmodel"] s).
Proof.
  intros Hk. unfold PeeweeStorage._get_event, try_except. unfold_monad. rewrite Hk.
  cbv beta iota. unfold Query.get, Db.execute_sql. unfold_monad. cbv beta iota.
  set (q := Query.where_ _ _).
  change (Query.result_rows (Query.limit 1 q)
            (Db.eventmodel (Db.set_statements (Db.statements s ++ [SELECT "eventmodel"]) s)))
    with (take 1 (List.filter (Query.matches q) (Db.eventmodel s))).
  rewrite (filter_ext (Query.matches q) (is_event event_id key)).
  2: { intros r. unfold Query.matches, q, is_event. simpl. by rewrite andb_true_r. }
  by destruct (List.filter _ (Db.eventmodel s)).
Qed.

Lemma _get_event_unknown (h : string) (event_id : Z) (s : Db.t) :
  Db.bucket_hash_keys s !! h = None →
  PeeweeStorage._get_event h event_id s = (Raise KeyError, s).
Proof.
  intros Hk. unfold PeeweeStorage._get_event, try_except. unfold_monad. by rewrite Hk.
Qed.

Lemma get_event_outcome (h : string) (event_id : Z) (s : Db.t) :
  PeeweeStorage.get_event h event_id s
  = match Db.bucket_hash_keys s !! h with
    | Some key =>
        (Ok (EventModel.json <$> head (List.filter (is_event event_id key) (Db.eventmodel s))),
         after_statements [SELECT "eventmodel"] s)
    | None => (Raise KeyError, s)
    end.
Proof.
  unfold PeeweeStorage.get_event.
  destruct (Db.bucket_hash_keys s !! h) as [key|] eqn:Hk.
  - by erewrite bind_ok by (by apply _get_event_run).
  - by erewrite bind_raise by (by apply _get_event_unknown).
Qed.

Lemma replace_outcome (h : string) (event_id : Z) (event : Event.t) (s : Db.t) :
  PeeweeStorageOps.replace h event_id event s
  = match Db.bucket_hash_keys s !! h with
    | Some key =>
        match head (List.filter (is_event event_id key) (Db.eventmodel s)) with
        | Some e =>
            (Ok (Returned (Event.set_id (Some event_id) event)),
             Db.mk (Db.bucketmodel s)
               (update_row event_id
                  (EventModel.mk (Some event_id) key (Event.timestamp event)
                     (Event.duration event) (Event.data event)) (Db.eventmodel s))
               (Db.usermodel s) (Db.bucket_hash_keys s)
               (Db.statements s ++ [SELECT "eventmodel"; UPDATE "eventmodel" event_id]))
        | None => (Ok AttributeError, after_statements [SELECT "eventmodel"] s)
        end
    | None => (Raise KeyError, s)
    end.
Proof.
  unfold PeeweeStorageOps.replace.
  destruct (Db.bucket_hash_keys s !! h) as [key|] eqn:Hk.
  2: { by erewrite bind_raise by (by apply _get_event_unknown). }
  erewrite bind_ok by (by apply _get_event_run).
  destruct (head _) as [e|] eqn:He; [|done].
  apply head_Some_elem_of, list_elem_of_In, filter_In in He as [_ He].
  unfold is_event in He. apply andb_true_iff in He as [Hid Hb].
  apply bool_decide_eq_true in Hid, Hb.
  erewrite bind_ok by apply EventModel_save_run.
  rewrite Hid, Hb. simpl. unfold write_step, saved_rows, save_statement. simpl.
  by rewrite <- app_assoc.
Qed.

Lemma delete_outcome (h : string) (event_id : Z) (s : Db.t) :
  PeeweeStorageOps.delete h event_id s
  = match Db.bucket_hash_keys s !! h with
    | Some key =>
        (Ok (Z.of_nat (length (List.filter (is_event event_id key) (Db.eventmodel s)))),
         Db.mk (Db.bucketmodel s)
           (List.filter (λ r, negb (is_event event_id key r)) (Db.eventmodel s))
           (Db.usermodel s) (Db.bucket_hash_keys s) (Db.statements s ++ [DELETE "eventmodel"]))
    | None => (Raise KeyError, s)
    end.
Proof.
  unfold PeeweeStorageOps.delete. unfold_monad.
  destruct (Db.bucket_hash_keys s !! h) as [key|] eqn:Hk; [|done].
  reflexivity.
Qed.

Lemma _get_last_unknown (h : string) (s : Db.t) :
  Db.bucket_hash_keys s !! h = None →
  PeeweeStorage._get_last h s = (Raise KeyError, s).
Proof. intros Hk. unfold PeeweeStorage._get_last. unfold_monad. by rewrite Hk. Qed.

Lemma replace_last_outcome (h : string) (event : Event.t) (s : Db.t) :
  PeeweeStorage.replace_last h event s
  = match Db.bucket_hash_keys s !! h with
    | Some key =>
        match Query.selected (last_query key) (Db.eventmodel s) with
        | last :: _ =>
            let e := EventModel.mk (EventModel.id last) (EventModel.bucket last)
                       (Event.timestamp event) (Event.duration event) (Event.data event) in
            (Ok (Event.set_id
                   (match EventModel.id last with
                    | Some pk => Some pk
                    | None => Some (Db.next_rowid (omap EventModel.id (Db.eventmodel s)))
                    end) event),
             write_step saved_rows save_statement (after_statements [SELECT "eventmodel"] s) e)
        | [] => (Raise DoesNotExist, after_statements [SELECT "eventmodel"] s)
        end
    | None => (Raise KeyError, s)
    end.
Proof.
  unfold PeeweeStorage.replace_last.
  destruct (Db.bucket_hash_keys s !! h) as [key|] eqn:Hk.
  2: { by erewrite bind_raise by (by apply _get_last_unknown). }
  destruct (Query.selected (last_query key) (Db.eventmodel s)) as [|last rest] eqn:Hsel.
  { erewrite bind_raise; [done|]. by rewrite (get_last_run _ _ key), Hsel. }
  erewrite bind_ok by (by rewrite (get_last_run _ _ key), Hsel).
  cbv beta zeta. erewrite bind_ok by apply EventModel_save_run.
  simpl. by destruct (EventModel.id last).
Qed.

Lemma insert_many_unknown (h : string) (events : list Event.t) (s : Db.t) :
  Db.bucket_hash_keys s !! h = None →
  PeeweeStorage.insert_many h events s
  = (match events with [] => Ok tt | _ => Raise KeyError end, s).
Proof.
  intros Hk. unfold PeeweeStorage.insert_many.
  destruct (List.filter (λ e, bool_decide (Event.id e ≠ None)) events) as [|e1 l1] eqn:H1.
  - simpl.
    destruct (List.filter (λ e, bool_decide (Event.id e = None)) events) as [|e2 l2] eqn:H2.
    + assert (events = []) as ->; [|reflexivity].
      destruct events as [|e events]; [done|]. simpl in H1, H2.
      destruct (Event.id e).
      * by rewrite bool_decide_true in H1.
      * by rewrite bool_decide_true in H2.
    + simpl. unfold_monad. rewrite Hk.
      destruct events; [done|reflexivity].
  - simpl. erewrite bind_raise.
    + destruct events; [done|reflexivity].
    + erewrite bind_raise; [done|]. erewrite bind_raise; [done|].
      by apply insert_one_no_bucket.
Qed.

(** ** Queries leave the store alone *)

Lemma same_store_comprehension {A B} (f : A → M Db.t B) (l : list A) (s : Db.t) :
  (∀ x s, same_store s (snd (f x s))) →
  same_store s (snd (comprehension l f s)).
Proof.
  intros Hf. revert s. induction l as [|x l IH]; intros s; simpl.
  - apply same_store_refl.
  - unfold_monad. pose proof (Hf x s) as Hx.
    destruct (f x s) as [[y|e] s1]; simpl in *; [|done].
    pose proof (IH s1) as Hl.
    destruct (comprehension l f s1) as [[ys|e] s2]; simpl in *;
      by eapply same_store_trans.
Qed.

Lemma get_events_same_store h limit st en (s : Db.t) :
  same_store s (snd (PeeweeStorage.get_events h limit st en s)).
Proof.
  destruct (decide (limit = 0)) as [->|Hl]; [apply same_store_refl|].
  destruct (bucket_row h s) as [b|] eqn:Hb.
  - rewrite (get_events_run _ _ _ _ _ b) by done. apply same_store_after_statements.
  - rewrite get_events_no_bucket by done. apply same_store_after_statements.
Qed.

Lemma get_eventcount_outcome h st en (s : Db.t) :
  PeeweeStorage.get_eventcount h st en s
  = match Db.bucket_hash_keys s !! h with
    | Some key =>
        (Ok (Z.of_nat (length
               (Query.result_rows
                  (PeeweeStorage._where_range
                     (Query.where_ (λ r, bool_decide (EventModel.bucket r = key)) Query.select)
                     st en)
                  (Db.eventmodel s)))),
         after_statements [SELECT "eventmodel"] s)
    | None => (Raise KeyError, s)
    end.
Proof.
  unfold PeeweeStorage.get_eventcount. unfold_monad.
  destruct (Db.bucket_hash_keys s !! h) as [key|] eqn:Hk; [|done].
  reflexivity.
Qed.

Lemma get_eventcount_same_store h st en (s : Db.t) :
  same_store s (snd (PeeweeStorage.get_eventcount h st en s)).
Proof.
  rewrite get_eventcount_outcome.
  destruct (Db.bucket_hash_keys s !! h);
    [apply same_store_after_statements | apply same_store_refl].
Qed.

(** [bucket.json()] loads the owner of the bucket. *)
Lemma BucketModel_json_run (b : BucketModel.t) (s : Db.t) :
  BucketModel_json b s
  = match BucketModel.user b with
    | Some u =>
        (match user_row u s with
         | Some _ => Ok (json_in s b)
         | None => Raise DoesNotExist
         end,
         after_statements [SELECT "usermodel"] s)
    | None => (Ok (json_in s b), s)
    end.
Proof.
  unfold BucketModel_json, BucketModel_user, json_in, owner_of, user_row, Db.execute_sql.
  destruct (BucketModel.user b) as [u|]; [|done].
  unfold_monad. simpl.
  by destruct (List.filter _ (Db.usermodel s)).
Qed.

Lemma BucketModel_json_same_store (b : BucketModel.t) (s : Db.t) :
  same_store s (snd (BucketModel_json b s)).
Proof.
  rewrite BucketModel_json_run.
  destruct (BucketModel.user b);
    [apply same_store_after_statements | apply same_store_refl].
Qed.

Lemma json_in_same_store (s s' : Db.t) (b : BucketModel.t) :
  same_store s s' → json_in s' b = json_in s b.
Proof. intros (_ & _ & Hu & _). unfold json_in, owner_of, user_row. by rewrite Hu. Qed.

Lemma owner_known_same_store (s s' : Db.t) (b : BucketModel.t) :
  same_store s s' → owner_known s' b ↔ owner_known s b.
Proof. intros (_ & _ & Hu & _). unfold owner_known, user_row. by rewrite Hu. Qed.

Lemma BucketModel_json_known (b : BucketModel.t) (s : Db.t) :
  owner_known s b → fst (BucketModel_json b s) = Ok (json_in s b).
Proof.
  rewrite BucketModel_json_run. unfold owner_known.
  destruct (BucketModel.user b) as [u|]; [|done]. by intros [row ->].
Qed.

Lemma BucketModel_json_unknown (b : BucketModel.t) (s : Db.t) :
  ¬ owner_known s b → fst (BucketModel_json b s) = Raise DoesNotExist.
Proof.
  rewrite BucketModel_json_run. unfold owner_known.
  destruct (BucketModel.user b) as [u|]; [|done].
  destruct (user_row u s); [|done]. intros Hn. destruct Hn. by eexists.
Qed.

(** A comprehension whose element expression reads the store: it succeeds
    when every element does, and raises when some element does. *)
Lemma comprehension_outcome {A B} (s : Db.t) (f : A → M Db.t B) (g : A → B)
    (P : A → Prop) `{∀ x, Decision (P x)} (e : exn) (l : list A) :
  (∀ x s0, same_store s s0 → same_store s (snd (f x s0))) →
  (∀ x s0, same_store s s0 → P x → fst (f x s0) = Ok (g x)) →
  (∀ x s0, same_store s s0 → ¬ P x → fst (f x s0) = Raise e) →
  ∀ s0, same_store s s0 →
  same_store s (snd (comprehension l f s0))
  ∧ (Forall P l → fst (comprehension l f s0) = Ok (map g l))
  ∧ (¬ Forall P l → fst (comprehension l f s0) = Raise e).
Proof.
  intros Hsame Hok Hraise. induction l as [|x l IH]; intros s0 Hs0.
  - simpl. split; [done|]. split; [done|]. intros Hn. destruct Hn. constructor.
  - simpl. unfold_monad.
    pose proof (Hsame x s0 Hs0) as Hx.
    destruct (decide (P x)) as [HP|HP].
    + pose proof (Hok x s0 Hs0 HP) as Hfx.
      destruct (f x s0) as [r s1]. simpl in Hfx, Hx. subst r.
      destruct (IH s1 Hx) as (Hl & Hall & Hsome).
      destruct (comprehension l f s1) as [[ys|e'] s2]; simpl in *.
      * split; [done|]. split.
        -- intros HF. apply Forall_cons in HF as [_ HF]. specialize (Hall HF). congruence.
        -- intros HF. assert (¬ Forall P l) as HF' by (intros HF'; apply HF; by constructor).
           by specialize (Hsome HF').
      * split; [done|]. split.
        -- intros HF. apply Forall_cons in HF as [_ HF]. by specialize (Hall HF).
        -- intros HF. assert (¬ Forall P l) as HF' by (intros HF'; apply HF; by constructor).
           by specialize (Hsome HF').
    + pose proof (Hraise x s0 Hs0 HP) as Hfx.
      destruct (f x s0) as [r s1]. simpl in Hfx, Hx. subst r. simpl.
      split; [done|]. split; [|done].
      intros HF. apply Forall_cons in HF as [HF _]. done.
Qed.

Lemma get_metadata_outcome h (s : Db.t) :
  PeeweeStorage.get_metadata h s
  = match Db.bucket_hash_keys s !! h with
    | Some k =>
        match head (List.filter (λ b, bool_decide (BucketModel.key b = k)) (Db.bucketmodel s)) with
        | Some b => BucketModel_json b (after_statements [SELECT "bucketmodel"] s)
        | None => (Raise DoesNotExist, after_statements [SELECT "bucketmodel"] s)
        end
    | None => (Raise ValueError, s)
    end.
Proof.
  unfold PeeweeStorage.get_metadata. unfold_monad.
  destruct (Db.bucket_hash_keys s !! h) as [k|] eqn:Hk; [|done].
  rewrite get_by_key_run. by destruct (head _).
Qed.

Lemma get_metadata_same_store h (s : Db.t) :
  same_store s (snd (PeeweeStorage.get_metadata h s)).
Proof.
  rewrite get_metadata_outcome.
  destruct (Db.bucket_hash_keys s !! h); [|apply same_store_refl].
  destruct (head _).
  - eapply same_store_trans; [apply (same_store_after_statements [SELECT "bucketmodel"])|].
    apply BucketModel_json_same_store.
  - apply same_store_after_statements.
Qed.

(** What [get_metadata] returns depends on the tables and the cache
    only. *)
Lemma get_metadata_fst_same_store h (s s' : Db.t) :
  same_store s s' →
  fst (PeeweeStorage.get_metadata h s') = fst (PeeweeStorage.get_metadata h s).
Proof.
  intros (Hb & He & Hu & Hk). rewrite !get_metadata_outcome, Hk, Hb.
  destruct (Db.bucket_hash_keys s !! h); [|done].
  destruct (head _) as [b|]; [|done].
  rewrite !BucketModel_json_run. unfold json_in, owner_of, user_row. simpl. rewrite Hu.
  by destruct (BucketModel.user b).
Qed.

Lemma buckets_same_store (s : Db.t) : same_store s (snd (PeeweeStorage.buckets s)).
Proof.
  unfold PeeweeStorage.buckets, BucketModel_select, Db.execute_sql.
  unfold_monad. cbv beta iota.
  set (s1 := Db.set_statements _ s).
  assert (same_store s s1) as H1 by (by repeat split).
  match goal with |- context [comprehension ?rows ?f s1] =>
    pose proof (same_store_comprehension f rows s1) as Hc;
    destruct (comprehension rows f s1) as [[entries|e] s2]
  end; simpl in *;
    (eapply same_store_trans; [exact H1|]; apply Hc;
     intros b s0; unfold_monad;
     pose proof (BucketModel_json_same_store b s0) as Hj;
     by destruct (BucketModel_json b s0) as [[j|x] s3]).
Qed.

Lemma summary_entry_same_store (st en : option datetime) (b : BucketModel.t) (s : Db.t) :
  same_store s
    (snd ((j ← BucketModel_json b;
           n ← PeeweeStorage.get_eventcount (BucketModel.hash_key b) st en;
           mret (BucketModel.hash_key b, (j, n))) s)).
Proof.
  unfold_monad.
  pose proof (BucketModel_json_same_store b s) as Hj.
  destruct (BucketModel_json b s) as [[j|x] s1]; simpl in *; [|done].
  pose proof (get_eventcount_same_store (BucketModel.hash_key b) st en s1) as Hg.
  destruct (PeeweeStorage.get_eventcount _ _ _ s1) as [[n|x] s2]; simpl in *;
    by eapply same_store_trans.
Qed.

Lemma get_buckets_for_user_same_store utc_offset now user (s : Db.t) :
  same_store s (snd (PeeweeStorageOps.get_buckets_for_user utc_offset now user s)).
Proof.
  unfold PeeweeStorageOps.get_buckets_for_user, BucketModel_select, Db.execute_sql.
  unfold_monad. cbv beta iota.
  set (s1 := Db.set_statements _ s).
  set (rows := match user with AllUsers => _ | User u => _ end).
  assert (same_store s s1) as H1 by (by repeat split).
  match goal with |- context [comprehension rows ?f s1] =>
    pose proof (same_store_comprehension f rows s1) as Hc;
    destruct (comprehension rows f s1) as [[entries|e] s2]
  end; simpl in *.
  - eapply same_store_trans; [exact H1|]. apply Hc.
    intros b s0. apply summary_entry_same_store.
  - eapply same_store_trans; [exact H1|]. apply Hc.
    intros b s0. apply summary_entry_same_store.
Qed.

Lemma query_same_store (c : storage_call) (s : Db.t) :
  is_query c = true → same_store s (state_after c s).
Proof.
  destruct c; try discriminate; intros _; simpl.
  - apply buckets_same_store.
  - apply get_metadata_same_store.
  - rewrite get_event_outcome.
    destruct (Db.bucket_hash_keys s !! h);
      [apply same_store_after_statements | apply same_store_refl].
  - apply get_events_same_store.
  - apply get_eventcount_same_store.
  - apply get_buckets_for_user_same_store.
Qed.

(** ** The store stays consistent *)

Lemma NoDup_map_filter {A B} (f : A → B) (P : A → bool) (l : list A) :
  NoDup (map f l) → NoDup (map f (List.filter P l)).
Proof.
  induction l as [|x l IH]; simpl; [done|].
  intros Hnd. apply NoDup_cons in Hnd as [Hx Hl].
  destruct (P x); simpl; [|by apply IH].
  apply NoDup_cons. split; [|by apply IH].
  intros Hin. apply Hx.
  apply list_elem_of_fmap in Hin as (y & -> & Hy).
  apply list_elem_of_fmap. exists y. split; [done|].
  apply list_elem_of_In, filter_In in Hy as [Hy _]. by apply list_elem_of_In.
Qed.

Lemma primary_keys_ok_filter (P : EventModel.t → bool) (rows : list EventModel.t) :
  primary_keys_ok rows → primary_keys_ok (List.filter P rows).
Proof.
  intros [Hnd Hids]. split; [by apply NoDup_map_filter|].
  rewrite Forall_forall in Hids. apply Forall_forall. intros r Hr.
  apply Hids. apply list_elem_of_In, filter_In in Hr as [Hr _]. by apply list_elem_of_In.
Qed.

Lemma elem_of_update_row pk e rows r :
  r ∈ update_row pk e rows → r ∈ rows ∨ r = e.
Proof.
  unfold update_row. intros Hr. apply list_elem_of_fmap in Hr as (r0 & -> & Hr0).
  case_decide; [by right|by left].
Qed.

Lemma elem_of_insert_row e rows r :
  r ∈ insert_row e rows → r ∈ rows ∨ EventModel.bucket r = EventModel.bucket e.
Proof.
  unfold insert_row. intros Hr. apply elem_of_app in Hr as [Hr|Hr]; [by left|].
  apply list_elem_of_singleton in Hr as ->. by right.
Qed.

Lemma elem_of_saved_rows e rows r :
  r ∈ saved_rows e rows → r ∈ rows ∨ EventModel.bucket r = EventModel.bucket e.
Proof.
  unfold saved_rows. destruct (EventModel.id e).
  - intros Hr. apply elem_of_update_row in Hr as [Hr| ->]; [by left|by right].
  - apply elem_of_insert_row.
Qed.

Lemma elem_of_replace_rows key events rows r :
  r ∈ foldl (replace_row key) rows events → r ∈ rows ∨ EventModel.bucket r = key.
Proof.
  revert rows. induction events as [|e events IH]; intros rows; simpl; [by left|].
  intros Hr. apply IH in Hr as [Hr|Hr]; [|by right].
  unfold replace_row in Hr. destruct (Event.id e); [|by left].
  apply elem_of_update_row in Hr as [Hr| ->]; [by left|by right].
Qed.

Lemma elem_of_insert_rows key (new : list Event.t) rows r :
  r ∈ foldl (λ rows e, insert_row e rows) rows (map (new_row key) new) →
  r ∈ rows ∨ EventModel.bucket r = key.
Proof.
  revert rows. induction new as [|e new IH]; intros rows; simpl; [by left|].
  intros Hr. apply IH in Hr as [Hr|Hr]; [|by right].
  apply elem_of_insert_row in Hr as [Hr|Hr]; [by left|by right].
Qed.

Lemma hash_keys_of_ext (rows1 rows2 : list BucketModel.t) :
  map (λ b, (BucketModel.hash_key b, BucketModel.key b)) rows1
  = map (λ b, (BucketModel.hash_key b, BucketModel.key b)) rows2 →
  hash_keys_of rows1 = hash_keys_of rows2.
Proof.
  unfold hash_keys_of. generalize (∅ : gmap string Z).
  revert rows2. induction rows1 as [|b1 rows1 IH]; intros [|b2 rows2] d; simpl; try done.
  intros [= Hh Hk Hrest]. rewrite Hh, Hk. by apply IH.
Qed.

Section Consistency.
Variable s : Db.t.
Hypothesis Hs : consistent s.

Lemma cached_key_stored (h : string) (k : Z) :
  Db.bucket_hash_keys s !! h = Some k → k ∈ map BucketModel.key (Db.bucketmodel s).
Proof.
  rewrite (cache_fresh s Hs). intros Hk.
  apply hash_keys_of_Some in Hk as (b & Hb & _ & <-).
  apply list_elem_of_fmap. by exists b.
Qed.

(** A bucket key found in the cache is the key of exactly one row. *)
Lemma cached_key_row (h : string) (k : Z) :
  Db.bucket_hash_keys s !! h = Some k →
  ∃ b, head (List.filter (λ b, bool_decide (BucketModel.key b = k)) (Db.bucketmodel s)) = Some b
       ∧ b ∈ Db.bucketmodel s ∧ BucketModel.key b = k ∧ BucketModel.hash_key b = h.
Proof.
  rewrite (cache_fresh s Hs). intros Hk.
  apply hash_keys_of_Some in Hk as (b & Hb & Hh & Hkey).
  assert (b ∈ List.filter (λ b, bool_decide (BucketModel.key b = k)) (Db.bucketmodel s)) as Hin.
  { apply list_elem_of_In, filter_In. split; [by apply list_elem_of_In|].
    by apply bool_decide_eq_true. }
  destruct (List.filter _ (Db.bucketmodel s)) as [|b0 rest] eqn:Hf.
  { by apply elem_of_nil in Hin. }
  assert (b0 ∈ Db.bucketmodel s ∧ BucketModel.key b0 = k) as [Hb0 Hk0].
  { assert (In b0 (List.filter (λ b, bool_decide (BucketModel.key b = k)) (Db.bucketmodel s)))
      as Hin0 by (rewrite Hf; by left).
    apply filter_In in Hin0 as [Hin0 Hk0]. split; [by apply list_elem_of_In|].
    by apply bool_decide_eq_true in Hk0. }
  assert (b0 = b) as ->.
  { apply list_elem_of_lookup in Hb0 as [i Hi], Hb as [j Hj].
    assert (i = j) as ->; [|congruence].
    apply (NoDup_lookup _ i j k (bucket_keys_unique s Hs));
      rewrite list_lookup_fmap; [rewrite Hi|rewrite Hj]; simpl; congruence. }
  by exists b.
Qed.

Lemma consistent_same_store (s' : Db.t) : same_store s s' → consistent s'.
Proof.
  intros (Hb & He & _ & Hc). destruct Hs. split; rewrite ?Hb, ?He, ?Hc; done.
Qed.

(** A write to the event table that keeps its two constraints. *)
Lemma consistent_events (rows : list EventModel.t) (sts : list statement) :
  primary_keys_ok rows →
  (∀ r, r ∈ rows → r ∈ Db.eventmodel s
                   ∨ EventModel.bucket r ∈ map BucketModel.key (Db.bucketmodel s)) →
  consistent (Db.mk (Db.bucketmodel s) rows (Db.usermodel s) (Db.bucket_hash_keys s) sts).
Proof.
  intros Hok Hrows. destruct Hs. split; simpl; try done.
  intros r Hr. destruct (Hrows r Hr) as [Hold|Hnew]; [by apply events_owned0|done].
Qed.

End Consistency.

Lemma consistent_create_bucket bucket_id type_id client hostname created name data user s :
  consistent s →
  consistent (snd (PeeweeStorage.create_bucket bucket_id type_id client hostname created
                     name data user s)).
Proof.
  intros Hs.
  destruct (decide (bucket_id ∈ map BucketModel.id (Db.bucketmodel s))) as [Hin|Hnin].
  { rewrite create_bucket_duplicate_id by done.
    apply (consistent_same_store s Hs), same_store_after_statements. }
  rewrite create_bucket_run by done. simpl.
  set (row := created_row _ _ _ _ _ _ _ _ _).
  destruct Hs. split; simpl.
  - done.
  - done.
  - rewrite map_app. apply NoDup_app. split; [done|]. split; [|apply NoDup_singleton].
    intros k Hk Hin. apply list_elem_of_singleton in Hin as ->.
    pose proof (next_rowid_fresh _ _ Hk). simpl in *. lia.
  - rewrite map_app. apply NoDup_app. split; [done|]. split; [|apply NoDup_singleton].
    intros i Hi Hin. by apply list_elem_of_singleton in Hin as ->.
  - intros r Hr. rewrite map_app. apply elem_of_app. left. by apply events_owned0.
  - intros b Hb. apply elem_of_app in Hb as [Hb|Hb]; [by apply hash_keys_computed0|].
    by apply list_elem_of_singleton in Hb as ->.
Qed.

Lemma consistent_delete_bucket h s :
  consistent s → consistent (snd (PeeweeStorage.delete_bucket h s)).
Proof.
  intros Hs. destruct (Db.bucket_hash_keys s !! h) as [k|] eqn:Hk.
  2: { by rewrite delete_bucket_unknown. }
  rewrite (delete_bucket_run _ _ k) by done. simpl.
  destruct Hs. split; simpl.
  - done.
  - by apply primary_keys_ok_filter.
  - by apply NoDup_map_filter.
  - by apply NoDup_map_filter.
  - intros r Hr. apply list_elem_of_In, filter_In in Hr as [Hr Hne].
    apply negb_true_iff, bool_decide_eq_false in Hne.
    pose proof (events_owned0 r (proj2 (list_elem_of_In _ _) Hr)) as Hown.
    apply list_elem_of_fmap in Hown as (b & Hb & Hin).
    apply list_elem_of_fmap. exists b. split; [done|].
    apply list_elem_of_In, filter_In. split; [by apply list_elem_of_In|].
    apply negb_true_iff, bool_decide_eq_false. congruence.
  - intros b Hb. apply hash_keys_computed0.
    apply list_elem_of_In, filter_In in Hb as [Hb _]. by apply list_elem_of_In.
Qed.

(** What [update_bucket] leaves as it was in the bucket table: keys, ids
    and hash keys, row by row. *)
Lemma patched_rows_columns (type_id client hostname name data : option string)
    (b : BucketModel.t) (rows : list BucketModel.t) :
  NoDup (map BucketModel.key rows) → b ∈ rows →
  let rows' := map (λ r, if decide (BucketModel.key r = BucketModel.key b)
                         then patched_row type_id client hostname name data b else r) rows in
  map BucketModel.key rows' = map BucketModel.key rows
  ∧ map BucketModel.id rows' = map BucketModel.id rows
  ∧ map BucketModel.user rows' = map BucketModel.user rows
  ∧ map BucketModel.created rows' = map BucketModel.created rows
  ∧ map BucketModel.hash_key rows' = map BucketModel.hash_key rows.
Proof.
  intros Hnd Hb rows'.
  assert (∀ r, r ∈ rows → BucketModel.key r = BucketModel.key b → r = b) as Huniq.
  { intros r Hr Hk. apply list_elem_of_lookup in Hr as [i Hi], Hb as [j Hj].
    assert (i = j) as ->; [|congruence].
    apply (NoDup_lookup _ i j (BucketModel.key b) Hnd);
      rewrite list_lookup_fmap; [rewrite Hi|rewrite Hj]; simpl; congruence. }
  unfold rows'. rewrite !map_map.
  repeat split; apply map_ext_in; intros r Hr; apply list_elem_of_In in Hr;
    case_decide as Hk; try done; by rewrite (Huniq r Hr Hk).
Qed.

Lemma map_pair_columns (rows1 rows2 : list BucketModel.t) :
  map BucketModel.key rows1 = map BucketModel.key rows2 →
  map BucketModel.hash_key rows1 = map BucketModel.hash_key rows2 →
  map (λ b, (BucketModel.hash_key b, BucketModel.key b)) rows1
  = map (λ b, (BucketModel.hash_key b, BucketModel.key b)) rows2.
Proof.
  revert rows2. induction rows1 as [|x l IH]; intros [|y rows2]; simpl; try done.
  intros [= Hk Hks] [= Hh Hhs]. rewrite Hk, Hh. f_equal. by apply IH.
Qed.

Lemma consistent_update_bucket h type_id client hostname name data s :
  consistent s →
  consistent (snd (PeeweeStorageOps.update_bucket h type_id client hostname name data s)).
Proof.
  intros Hs. destruct (Db.bucket_hash_keys s !! h) as [k|] eqn:Hk.
  2: { by rewrite update_bucket_unknown. }
  destruct (cached_key_row s Hs h k Hk) as (b & Hhead & Hb & Hkey & Hh).
  rewrite (update_bucket_run _ _ _ _ _ _ _ k b) by done. simpl.
  destruct (patched_rows_columns type_id client hostname name data b (Db.bucketmodel s)
              (bucket_keys_unique s Hs) Hb) as (Hkeys & Hids & Husers & _ & Hhashes).
  destruct Hs. split; simpl.
  - rewrite cache_fresh0. symmetry. by apply hash_keys_of_ext, map_pair_columns.
  - done.
  - by rewrite Hkeys.
  - by rewrite Hids.
  - intros r Hr. rewrite Hkeys. by apply events_owned0.
  - intros r Hr. apply list_elem_of_fmap in Hr as (r0 & -> & Hr0).
    case_decide; [|by apply hash_keys_computed0]. simpl. by apply hash_keys_computed0.
Qed.

Lemma consistent_insert_one h event s :
  consistent s → consistent (snd (PeeweeStorage.insert_one h event s)).
Proof.
  intros Hs. destruct (Db.bucket_hash_keys s !! h) as [key|] eqn:Hk.
  2: { by rewrite insert_one_no_bucket. }
  rewrite (insert_one_run _ _ _ key) by done. simpl.
  apply (consistent_events s Hs).
  - apply primary_keys_ok_saved_rows, (event_keys_ok s Hs).
  - intros r Hr. apply elem_of_saved_rows in Hr as [Hr|Hr]; [by left|right].
    rewrite Hr. simpl. by eapply cached_key_stored.
Qed.

Lemma consistent_insert_many h events s :
  consistent s → consistent (snd (PeeweeStorage.insert_many h events s)).
Proof.
  intros Hs. destruct (Db.bucket_hash_keys s !! h) as [key|] eqn:Hk.
  2: { by rewrite insert_many_unknown. }
  pose proof (primary_keys_ok_insert_many h events s key Hk (event_keys_ok s Hs)) as Hok.
  rewrite (insert_many_run _ _ _ key) in * by done. simpl in *.
  apply (consistent_events s Hs); [done|].
  intros r Hr. apply elem_of_insert_rows in Hr as [Hr|Hr].
  - apply elem_of_replace_rows in Hr as [Hr|Hr]; [by left|right].
    rewrite Hr. by eapply cached_key_stored.
  - right. rewrite Hr. by eapply cached_key_stored.
Qed.

Lemma consistent_replace_last h event s :
  consistent s → consistent (snd (PeeweeStorage.replace_last h event s)).
Proof.
  intros Hs. rewrite replace_last_outcome.
  destruct (Db.bucket_hash_keys s !! h) as [key|] eqn:Hk; [|done].
  destruct (Query.selected (last_query key) (Db.eventmodel s)) as [|last rest] eqn:Hsel.
  { apply (consistent_same_store s Hs), same_store_after_statements. }
  assert (last ∈ Db.eventmodel s ∧ EventModel.bucket last = key) as [Hlast Hb].
  { apply elem_of_last_query. rewrite Hsel. apply list_elem_of_here. }
  simpl. apply (consistent_events s Hs).
  - apply primary_keys_ok_saved_rows, (event_keys_ok s Hs).
  - intros r Hr. apply elem_of_saved_rows in Hr as [Hr|Hr]; [by left|right].
    rewrite Hr. simpl. by apply (events_owned s Hs).
Qed.

Lemma consistent_replace h event_id event s :
  consistent s → consistent (snd (PeeweeStorageOps.replace h event_id event s)).
Proof.
  intros Hs. rewrite replace_outcome.
  destruct (Db.bucket_hash_keys s !! h) as [key|] eqn:Hk; [|done].
  destruct (head _) as [e|] eqn:He.
  2: { apply (consistent_same_store s Hs), same_store_after_statements. }
  simpl. apply (consistent_events s Hs).
  - by apply primary_keys_ok_update_row, (event_keys_ok s Hs).
  - intros r Hr. apply elem_of_update_row in Hr as [Hr| ->]; [by left|right].
    simpl. by eapply cached_key_stored.
Qed.

Lemma consistent_delete h event_id s :
  consistent s → consistent (snd (PeeweeStorageOps.delete h event_id s)).
Proof.
  intros Hs. rewrite delete_outcome.
  destruct (Db.bucket_hash_keys s !! h) as [key|] eqn:Hk; [|done].
  simpl. apply (consistent_events s Hs).
  - apply primary_keys_ok_filter, (event_keys_ok s Hs).
  - intros r Hr. left. apply list_elem_of_In, filter_In in Hr as [Hr _].
    by apply list_elem_of_In.
Qed.

Lemma consistent_empty : consistent Db.empty.
Proof.
  split; simpl; try done; try apply NoDup_nil_2.
  - apply primary_keys_ok_nil.
  - intros r Hr. by apply elem_of_nil in Hr.
  - intros b Hb. by apply elem_of_nil in Hb.
Qed.

Lemma consistent_state_after (c : storage_call) (s : Db.t) :
  consistent s → consistent (state_after c s).
Proof.
  intros Hs.
  destruct (is_query c) eqn:Hq.
  { by apply (consistent_same_store s Hs), query_same_store. }
  destruct c; try discriminate; simpl.
  - by apply consistent_create_bucket.
  - by apply consistent_update_bucket.
  - by apply consistent_delete_bucket.
  - by apply consistent_insert_one.
  - by apply consistent_insert_many.
  - by apply consistent_replace_last.
  - by apply consistent_replace.
  - by apply consistent_delete.
Qed.

(** ** Statements about the storage as a whole *)

(** X1.  Every call on the storage, whatever its arguments and whether it
    returns or raises, takes a consistent store to a consistent store: the
    key cache is what [update_bucket_hash_keys] would compute, the primary
    keys of both tables and the bucket ids are unique, every event belongs
    to a stored bucket, and every bucket carries the hash key of its id and
    owner. *)
Theorem storage_calls_keep_store_consistent (c : storage_call) (s : Db.t) :
  consistent s → consistent (state_after c s).
Proof. apply consistent_state_after. Qed.

Lemma storage_calls_keep_store_consistent_witness :
  consistent Db.empty
  ∧ consistent (state_after (Call_create_bucket "b" "t" "c" "host" 0 None None None) Db.empty).
Proof.
  split; [exact consistent_empty|].
  exact (storage_calls_keep_store_consistent
           (Call_create_bucket "b" "t" "c" "host" 0 None None None) Db.empty consistent_empty).
Defined.

Lemma consistent_state_after_all (calls : list storage_call) (s : Db.t) :
  consistent s → consistent (state_after_all calls s).
Proof.
  unfold state_after_all. revert s.
  induction calls as [|c calls IH]; intros s Hs; simpl; [done|].
  by apply IH, consistent_state_after.
Qed.

(** X2.  In every state the storage reaches from the empty store, by any
    sequence of calls: an event row always names the key of a stored bucket
    (deleting a bucket leaves no orphan), the cache maps a hash key to a key
    exactly when some stored bucket has this hash key and then to the key of
    such a bucket, and no two events share an id. *)
Theorem reachable_store_has_no_orphans (calls : list storage_call) :
  let s := state_after_all calls Db.empty in
  (∀ r, r ∈ Db.eventmodel s →
        ∃ b, b ∈ Db.bucketmodel s ∧ BucketModel.key b = EventModel.bucket r)
  ∧ (∀ h, is_Some (Db.bucket_hash_keys s !! h)
          ↔ ∃ b, b ∈ Db.bucketmodel s ∧ BucketModel.hash_key b = h)
  ∧ (∀ h k, Db.bucket_hash_keys s !! h = Some k →
            ∃ b, b ∈ Db.bucketmodel s ∧ BucketModel.hash_key b = h ∧ BucketModel.key b = k)
  ∧ (∀ r1 r2, r1 ∈ Db.eventmodel s → r2 ∈ Db.eventmodel s →
              EventModel.id r1 = EventModel.id r2 → r1 = r2).
Proof.
  intros s.
  pose proof (consistent_state_after_all calls Db.empty consistent_empty) as Hs.
  fold s in Hs. split; [|split; [|split]].
  - intros r Hr. pose proof (events_owned s Hs r Hr) as Hown.
    apply list_elem_of_fmap in Hown as (b & Hb & Hin). by exists b.
  - intros h. rewrite (cache_fresh s Hs). split.
    + intros [k Hk]. apply hash_keys_of_Some in Hk as (b & Hb & Hh & _). by exists b.
    + intros (b & Hb & Hh).
      destruct (hash_keys_of (Db.bucketmodel s) !! h) as [k|] eqn:Hk; [by eexists|].
      by destruct (proj1 (hash_keys_of_None _ _) Hk b Hb).
  - intros h k. rewrite (cache_fresh s Hs). apply hash_keys_of_Some.
  - intros r1 r2 H1 H2 Hid. destruct (event_keys_ok s Hs) as [Hnd _].
    apply list_elem_of_lookup in H1 as [i Hi], H2 as [j Hj].
    assert (i = j) as ->; [|congruence].
    apply (NoDup_lookup _ i j (EventModel.id r1) Hnd);
      rewrite list_lookup_fmap; [rewrite Hi|rewrite Hj]; simpl; congruence.
Qed.

(** X3.  A call that only reads ([buckets], [get_metadata], [get_event],
    [get_events], [get_eventcount], [get_buckets_for_user]) changes neither
    table nor the key cache, whether it returns or raises. *)
Theorem queries_leave_store_unchanged (c : storage_call) (s : Db.t) :
  is_query c = true → same_store s (state_after c s).
Proof. apply query_same_store. Qed.

Lemma queries_leave_store_unchanged_witness :
  is_query (Call_get_events (Bucket_.bucket_hash_key bucket_b) 5 None None) = true
  ∧ same_store store_with_long_event
      (state_after (Call_get_events (Bucket_.bucket_hash_key bucket_b) 5 None None)
         store_with_long_event).
Proof.
  split; [reflexivity|].
  exact (queries_leave_store_unchanged
           (Call_get_events (Bucket_.bucket_hash_key bucket_b) 5 None None)
           store_with_long_event eq_refl).
Defined.

(** ** Facts about the example store *)

Lemma consistent_set_usermodel (users : list UserModel.t) (s : Db.t) :
  consistent s → consistent (Db.set_usermodel users s).
Proof. intros Hs. by destruct Hs. Qed.

Lemma store_with_two_buckets_consistent : consistent store_with_two_buckets.
Proof.
  apply consistent_state_after_all, consistent_set_usermodel, consistent_empty.
Qed.

Lemma store_with_two_buckets_owners : owners_known store_with_two_buckets.
Proof. apply (bool_decide_unpack _). vm_compute. exact I. Qed.

Lemma store_with_two_buckets_b :
  sole_bucket (Bucket_.bucket_hash_key bucket_b) row_b store_with_two_buckets.
Proof. vm_compute. reflexivity. Qed.

Lemma store_with_two_buckets_c :
  sole_bucket (Bucket_.bucket_hash_key bucket_c) row_c store_with_two_buckets.
Proof. vm_compute. reflexivity. Qed.

Lemma store_with_two_buckets_cache_b :
  Db.bucket_hash_keys store_with_two_buckets !! Bucket_.bucket_hash_key bucket_b = Some 1.
Proof. vm_compute. reflexivity. Qed.

Lemma store_with_two_buckets_events :
  Db.eventmodel store_with_two_buckets
  = [EventModel.mk (Some 1) 1 1000 500 "{}"; EventModel.mk (Some 2) 2 2000 500 "{}";
     EventModel.mk (Some 3) 1 3000 500 "{}"].
Proof. vm_compute. reflexivity. Qed.

(** ** Buckets that are the only one of their hash key *)

Lemma sole_bucket_row h b s : sole_bucket h b s → bucket_row h s = Some b.
Proof. unfold sole_bucket, bucket_row. by intros ->. Qed.

Lemma sole_bucket_elem h b s :
  sole_bucket h b s → b ∈ Db.bucketmodel s ∧ BucketModel.hash_key b = h.
Proof.
  unfold sole_bucket. intros Hf.
  assert (In b (List.filter (λ b, bool_decide (BucketModel.hash_key b = h)) (Db.bucketmodel s)))
    as Hin by (rewrite Hf; by left).
  apply filter_In in Hin as [Hin Hh]. split; [by apply list_elem_of_In|].
  by apply bool_decide_eq_true in Hh.
Qed.

Lemma sole_bucket_unique h b s b' :
  sole_bucket h b s → b' ∈ Db.bucketmodel s → BucketModel.hash_key b' = h → b' = b.
Proof.
  unfold sole_bucket. intros Hf Hb' Hh.
  assert (In b' (List.filter (λ b, bool_decide (BucketModel.hash_key b = h)) (Db.bucketmodel s)))
    as Hin.
  { apply filter_In. split; [by apply list_elem_of_In|]. by apply bool_decide_eq_true. }
  rewrite Hf in Hin. by destruct Hin as [<-|[]].
Qed.

Lemma sole_bucket_cache h b s :
  consistent s → sole_bucket h b s → Db.bucket_hash_keys s !! h = Some (BucketModel.key b).
Proof.
  intros Hs Hf. rewrite (cache_fresh s Hs), hash_keys_of_lookup.
  unfold sole_bucket in Hf. by rewrite Hf.
Qed.

(** ** Deleting a bucket *)

Lemma delete_bucket_gone (h : string) (s : Db.t) (b : BucketModel.t) :
  consistent s → sole_bucket h b s →
  let s' := snd (PeeweeStorage.delete_bucket h s) in
  fst (PeeweeStorage.delete_bucket h s) = Ok tt
  ∧ (∀ b', b' ∈ Db.bucketmodel s' ↔ b' ∈ Db.bucketmodel s ∧ b' ≠ b)
  ∧ (∀ r, r ∈ Db.eventmodel s' ↔
          r ∈ Db.eventmodel s ∧ EventModel.bucket r ≠ BucketModel.key b)
  ∧ Db.bucket_hash_keys s' !! h = None
  ∧ bucket_row h s' = None.
Proof.
  intros Hs Hsole s'.
  pose proof (sole_bucket_cache h b s Hs Hsole) as Hk.
  destruct (sole_bucket_elem h b s Hsole) as [Hb Hh].
  unfold s'. rewrite (delete_bucket_run _ _ (BucketModel.key b)) by done. simpl.
  assert (∀ b', b' ∈ Db.bucketmodel s → BucketModel.key b' = BucketModel.key b → b' = b)
    as Hkeys.
  { intros b' Hb' Hkey. apply list_elem_of_lookup in Hb' as [i Hi], Hb as [j Hj].
    assert (i = j) as ->; [|congruence].
    apply (NoDup_lookup _ i j (BucketModel.key b) (bucket_keys_unique s Hs));
      rewrite list_lookup_fmap; [rewrite Hi|rewrite Hj]; simpl; congruence. }
  assert (∀ b', b' ∈ List.filter (λ b0, negb (bool_decide (BucketModel.key b0 = BucketModel.key b)))
                       (Db.bucketmodel s)
                ↔ b' ∈ Db.bucketmodel s ∧ b' ≠ b) as Hrows.
  { intros b'. rewrite !list_elem_of_In, filter_In, negb_true_iff, bool_decide_eq_false.
    rewrite <- list_elem_of_In. split.
    - intros [Hb' Hne]. split; [done|]. by intros ->.
    - intros [Hb' Hne]. split; [done|]. intros Hkey. by apply Hne, Hkeys. }
  split; [done|]. split; [done|]. split; [|split].
  - intros r. by rewrite !list_elem_of_In, filter_In, negb_true_iff, bool_decide_eq_false.
  - apply hash_keys_of_None. intros b' Hb' Hh'. apply Hrows in Hb' as [Hb' Hne].
    apply Hne. by eapply sole_bucket_unique.
  - unfold bucket_row. simpl.
    destruct (List.filter (λ b0, bool_decide (BucketModel.hash_key b0 = h)) _)
      as [|b' rest] eqn:Hf; [done|].
    assert (In b' (b' :: rest)) as Hin by (by left). rewrite <- Hf in Hin.
    apply filter_In in Hin as [Hin Hh']. apply bool_decide_eq_true in Hh'.
    apply list_elem_of_In, Hrows in Hin as [Hin Hne].
    destruct Hne. by eapply sole_bucket_unique.
Qed.

(** X4.  [delete_bucket] on a hash key the cache does not know raises
    [ValueError] and changes nothing.  On a consistent store, deleting the
    only bucket of a hash key removes that bucket row and exactly the events
    of that bucket; afterwards the hash key is unknown: counting, inserting
    and reading metadata through it raise, [get_events] with a non-zero
    limit raises [DoesNotExist], and a second [delete_bucket] raises
    [ValueError]. *)
Theorem deleted_bucket_is_gone (h : string) (s : Db.t) :
  (Db.bucket_hash_keys s !! h = None →
   PeeweeStorage.delete_bucket h s = (Raise ValueError, s))
  ∧ (∀ b : BucketModel.t,
       consistent s → sole_bucket h b s →
       let s' := snd (PeeweeStorage.delete_bucket h s) in
       fst (PeeweeStorage.delete_bucket h s) = Ok tt
       ∧ (∀ b', b' ∈ Db.bucketmodel s' ↔ b' ∈ Db.bucketmodel s ∧ b' ≠ b)
       ∧ (∀ r, r ∈ Db.eventmodel s' ↔
               r ∈ Db.eventmodel s ∧ EventModel.bucket r ≠ BucketModel.key b)
       ∧ (∀ st en, fst (PeeweeStorage.get_eventcount h st en s') = Raise KeyError)
       ∧ (∀ limit st en, limit ≠ 0 →
            fst (PeeweeStorage.get_events h limit st en s') = Raise DoesNotExist)
       ∧ (∀ event, PeeweeStorage.insert_one h event s' = (Raise KeyError, s'))
       ∧ fst (PeeweeStorage.get_metadata h s') = Raise ValueError
       ∧ PeeweeStorage.delete_bucket h s' = (Raise ValueError, s')).
Proof.
  split; [apply delete_bucket_unknown|].
  intros b Hs Hsole s'.
  destruct (delete_bucket_gone h s b Hs Hsole) as (Hok & Hrows & Hevents & Hcache & Hrow).
  fold s' in Hrows, Hevents, Hcache, Hrow.
  split; [done|]. split; [done|]. split; [done|]. split; [|split; [|split; [|split]]].
  - intros st en. by rewrite get_eventcount_outcome, Hcache.
  - intros limit st en Hl. by rewrite get_events_no_bucket.
  - intros event. by apply insert_one_no_bucket.
  - by rewrite get_metadata_outcome, Hcache.
  - by apply delete_bucket_unknown.
Qed.

Lemma deleted_bucket_is_gone_witness :
  consistent store_with_two_buckets
  ∧ sole_bucket (Bucket_.bucket_hash_key bucket_b) row_b store_with_two_buckets
  ∧ fst (PeeweeStorage.delete_bucket (Bucket_.bucket_hash_key bucket_b) store_with_two_buckets)
    = Ok tt
  ∧ PeeweeStorage.insert_one (Bucket_.bucket_hash_key bucket_b) (Event.mk None 1000 1000 "{}")
      (snd (PeeweeStorage.delete_bucket (Bucket_.bucket_hash_key bucket_b)
              store_with_two_buckets))
    = (Raise KeyError,
       snd (PeeweeStorage.delete_bucket (Bucket_.bucket_hash_key bucket_b)
              store_with_two_buckets)).
Proof.
  split; [exact store_with_two_buckets_consistent|].
  split; [exact store_with_two_buckets_b|].
  destruct (proj2 (deleted_bucket_is_gone (Bucket_.bucket_hash_key bucket_b)
                     store_with_two_buckets)
              row_b store_with_two_buckets_consistent store_with_two_buckets_b)
    as (Hok & _ & _ & _ & _ & Hins & _).
  split; [exact Hok | exact (Hins (Event.mk None 1000 1000 "{}"))].
Defined.

(** ** The handle cache of [Datastore] *)

Lemma keyed_lookup {V} (f : BucketModel.t → V) (rows : list BucketModel.t) (h : string) :
  foldl (λ d bucket, <[BucketModel.hash_key bucket := f bucket]> d) (∅ : gmap string V) rows !! h
  = f <$> last (List.filter (λ b, bool_decide (BucketModel.hash_key b = h)) rows).
Proof.
  induction rows as [|b rows IH] using rev_ind; [done|].
  rewrite foldl_app, List.filter_app. simpl.
  destruct (decide (BucketModel.hash_key b = h)) as [<-|Hne].
  - rewrite lookup_insert_eq, bool_decide_true by done. by rewrite last_snoc.
  - rewrite lookup_insert_ne, bool_decide_false by done. by rewrite app_nil_r.
Qed.

Lemma keyed_is_Some {V} (f : BucketModel.t → V) (rows : list BucketModel.t) (h : string) :
  is_Some (foldl (λ d bucket, <[BucketModel.hash_key bucket := f bucket]> d)
             (∅ : gmap string V) rows !! h)
  ↔ is_Some (head (List.filter (λ b, bool_decide (BucketModel.hash_key b = h)) rows)).
Proof.
  rewrite keyed_lookup.
  destruct (List.filter _ rows) as [|b l] using rev_ind.
  - simpl. split; by intros [? ?].
  - rewrite last_snoc. simpl. split; intros _; [|by eexists].
    destruct l; simpl; by eexists.
Qed.

Lemma owners_known_forall (s : Db.t) :
  owners_known s ↔ ∀ b, b ∈ Db.bucketmodel s → owner_known s b.
Proof. unfold owners_known. by rewrite Forall_forall. Qed.

Lemma owners_known_same_store (s s' : Db.t) :
  same_store s s' → owners_known s → owners_known s'.
Proof.
  rewrite !owners_known_forall.
  intros Hsame Hk b Hb. apply (owner_known_same_store s s' b Hsame). apply Hk.
  destruct Hsame as (Hrows & _). by rewrite <- Hrows.
Qed.

Lemma bucket_entry_run (b : BucketModel.t) (s0 : Db.t) :
  (j ← BucketModel_json b; mret (BucketModel.hash_key b, j)) s0
  = (match fst (BucketModel_json b s0) with
     | Ok j => Ok (BucketModel.hash_key b, j)
     | Raise e => Raise e
     end,
     snd (BucketModel_json b s0)).
Proof. unfold_monad. by destruct (BucketModel_json b s0) as [[j|e] s1]. Qed.

Lemma buckets_unfold (s : Db.t) :
  PeeweeStorage.buckets s
  = let run :=
      comprehension (Db.bucketmodel s)
        (λ bucket, j ← BucketModel_json bucket; mret (BucketModel.hash_key bucket, j))
        (after_statements [SELECT "bucketmodel"] s) in
    (match fst run with
     | Ok entries =>
         Ok (foldl (λ d (kv : string * BucketModel.json_t), <[kv.1 := kv.2]> d) ∅ entries)
     | Raise e => Raise e
     end,
     snd run).
Proof.
  unfold PeeweeStorage.buckets, BucketModel_select, Db.execute_sql, after_statements.
  unfold_monad. simpl.
  by destruct (comprehension _ _ _) as [[entries|e] s1].
Qed.

(** [buckets()] reads the owner of every stored bucket: it returns the
    dictionary of all buckets when every owner has a user row, and raises
    [DoesNotExist] otherwise. *)
Lemma buckets_outcome (s : Db.t) :
  same_store s (snd (PeeweeStorage.buckets s))
  ∧ (owners_known s →
     fst (PeeweeStorage.buckets s)
     = Ok (foldl (λ d bucket, <[BucketModel.hash_key bucket := json_in s bucket]> d) ∅
             (Db.bucketmodel s)))
  ∧ (¬ owners_known s → fst (PeeweeStorage.buckets s) = Raise DoesNotExist).
Proof.
  rewrite buckets_unfold. cbv zeta.
  destruct (comprehension_outcome s
              (λ bucket, j ← BucketModel_json bucket; mret (BucketModel.hash_key bucket, j))
              (λ b, (BucketModel.hash_key b, json_in s b)) (owner_known s) DoesNotExist
              (Db.bucketmodel s)) with (s0 := after_statements [SELECT "bucketmodel"] s)
    as (H1 & H2 & H3).
  - intros x s0 Hs0. rewrite bucket_entry_run. simpl.
    eapply same_store_trans; [exact Hs0 | apply BucketModel_json_same_store].
  - intros x s0 Hs0 HP. rewrite bucket_entry_run. simpl.
    rewrite BucketModel_json_known by (by apply (owner_known_same_store s s0)).
    by rewrite (json_in_same_store s s0).
  - intros x s0 Hs0 HP. rewrite bucket_entry_run. simpl.
    rewrite BucketModel_json_unknown; [done|].
    by rewrite (owner_known_same_store s s0).
  - apply same_store_after_statements.
  - simpl. split; [done|]. split.
    + intros Hk. rewrite H2 by done.
      f_equal. change (map ?g (Db.bucketmodel s)) with (g <$> Db.bucketmodel s).
      by rewrite foldl_fmap.
    + intros Hn. by rewrite H3.
Qed.

Lemma getitem_cached {S} `{AbstractStorage.t S} (h : string) (ds : Datastore.t S) (b : Bucket_.t) :
  Datastore.bucket_instances ds !! h = Some b →
  Datastore.__getitem__ h ds = (Ok b, ds).
Proof.
  intros Hc. unfold Datastore.__getitem__. unfold_monad.
  rewrite decide_False by (by rewrite Hc). cbv beta iota. by rewrite Hc.
Qed.

(** A lookup that misses the cache, in terms of what [buckets()] does. *)
Lemma getitem_miss_run (h : string) (ds : Datastore.t Db.t) :
  Datastore.bucket_instances ds !! h = None →
  Datastore.__getitem__ h ds
  = match fst (PeeweeStorage.buckets (Datastore.storage_strategy ds)) with
    | Ok bs =>
        if decide (is_Some (bs !! h))
        then (Ok (Bucket_.mk h),
              Datastore.mk (<[h := Bucket_.mk h]> (Datastore.bucket_instances ds))
                (snd (PeeweeStorage.buckets (Datastore.storage_strategy ds)))
                (Datastore.logger ds))
        else (Raise KeyError,
              Datastore.mk (Datastore.bucket_instances ds)
                (snd (PeeweeStorage.buckets (Datastore.storage_strategy ds)))
                (Datastore.logger ds ++ [LogError "Cannot create a Bucket object" h]))
    | Raise e =>
        (Raise e,
         Datastore.mk (Datastore.bucket_instances ds)
           (snd (PeeweeStorage.buckets (Datastore.storage_strategy ds)))
           (Datastore.logger ds))
    end.
Proof.
  intros Hc. unfold Datastore.__getitem__, Datastore.buckets, Datastore.call, Datastore.log.
  unfold_monad. rewrite decide_True by done. simpl.
  change (AbstractStorage.buckets (Datastore.storage_strategy ds))
    with (PeeweeStorage.buckets (Datastore.storage_strategy ds)).
  destruct (PeeweeStorage.buckets (Datastore.storage_strategy ds)) as [[bs|e] s1]; [|done].
  simpl. case_decide; [|done]. simpl. by rewrite lookup_insert_eq.
Qed.

Lemma getitem_found (h : string) (ds : Datastore.t Db.t) :
  Datastore.bucket_instances ds !! h = None →
  owners_known (Datastore.storage_strategy ds) →
  is_Some (bucket_row h (Datastore.storage_strategy ds)) →
  Datastore.__getitem__ h ds
  = (Ok (Bucket_.mk h),
     Datastore.mk (<[h := Bucket_.mk h]> (Datastore.bucket_instances ds))
       (snd (PeeweeStorage.buckets (Datastore.storage_strategy ds)))
       (Datastore.logger ds)).
Proof.
  intros Hc Hk Hb. rewrite getitem_miss_run by done.
  destruct (buckets_outcome (Datastore.storage_strategy ds)) as (_ & Hok & _).
  rewrite (Hok Hk). rewrite decide_True; [done|]. by apply keyed_is_Some.
Qed.

Lemma getitem_missing (h : string) (ds : Datastore.t Db.t) :
  Datastore.bucket_instances ds !! h = None →
  owners_known (Datastore.storage_strategy ds) →
  bucket_row h (Datastore.storage_strategy ds) = None →
  Datastore.__getitem__ h ds
  = (Raise KeyError,
     Datastore.mk (Datastore.bucket_instances ds)
       (snd (PeeweeStorage.buckets (Datastore.storage_strategy ds)))
       (Datastore.logger ds ++ [LogError "Cannot create a Bucket object" h])).
Proof.
  intros Hc Hk Hb. rewrite getitem_miss_run by done.
  destruct (buckets_outcome (Datastore.storage_strategy ds)) as (_ & Hok & _).
  rewrite (Hok Hk). rewrite decide_False; [done|].
  rewrite keyed_is_Some. unfold bucket_row in Hb. rewrite Hb. by intros [? ?].
Qed.

Lemma getitem_unreadable (h : string) (ds : Datastore.t Db.t) :
  Datastore.bucket_instances ds !! h = None →
  ¬ owners_known (Datastore.storage_strategy ds) →
  Datastore.__getitem__ h ds
  = (Raise DoesNotExist,
     Datastore.mk (Datastore.bucket_instances ds)
       (snd (PeeweeStorage.buckets (Datastore.storage_strategy ds)))
       (Datastore.logger ds)).
Proof.
  intros Hc Hk. rewrite getitem_miss_run by done.
  destruct (buckets_outcome (Datastore.storage_strategy ds)) as (_ & _ & Hraise).
  by rewrite (Hraise Hk).
Qed.

(** X5.  Looking a handle up in the datastore: a cached handle is returned
    as it is, without asking the storage, even when the bucket is no longer
    stored.  On a cache miss the storage is asked for its buckets, which
    reads the owner of every stored bucket and changes no table: when the
    owner of some stored bucket has no user row, [DoesNotExist] is raised
    and nothing is cached or logged; otherwise either a bucket row with
    this hash key exists, and a new handle is cached and returned, or
    [KeyError] is raised, an error logged and nothing cached. *)
Theorem getitem_looks_up_before_constructing (h : string) :
  (∀ S (storage : AbstractStorage.t S) (ds : Datastore.t S) (b : Bucket_.t),
     Datastore.bucket_instances ds !! h = Some b →
     Datastore.__getitem__ h ds = (Ok b, ds))
  ∧ (∀ ds : Datastore.t Db.t,
       Datastore.bucket_instances ds !! h = None →
       ∃ s' : Db.t,
         same_store (Datastore.storage_strategy ds) s'
         ∧ (owners_known (Datastore.storage_strategy ds) →
            is_Some (bucket_row h (Datastore.storage_strategy ds)) →
            Datastore.__getitem__ h ds
            = (Ok (Bucket_.mk h),
               Datastore.mk (<[h := Bucket_.mk h]> (Datastore.bucket_instances ds)) s'
                 (Datastore.logger ds)))
         ∧ (owners_known (Datastore.storage_strategy ds) →
            bucket_row h (Datastore.storage_strategy ds) = None →
            Datastore.__getitem__ h ds
            = (Raise KeyError,
               Datastore.mk (Datastore.bucket_instances ds) s'
                 (Datastore.logger ds ++ [LogError "Cannot create a Bucket object" h])))
         ∧ (¬ owners_known (Datastore.storage_strategy ds) →
            Datastore.__getitem__ h ds
            = (Raise DoesNotExist,
               Datastore.mk (Datastore.bucket_instances ds) s' (Datastore.logger ds)))).
Proof.
  split.
  - intros S storage ds b. apply getitem_cached.
  - intros ds Hc. exists (snd (PeeweeStorage.buckets (Datastore.storage_strategy ds))).
    split; [apply buckets_outcome|]. split; [|split].
    + by apply getitem_found.
    + by apply getitem_missing.
    + by apply getitem_unreadable.
Qed.

Lemma getitem_looks_up_before_constructing_witness :
  Datastore.bucket_instances (Datastore.init store_with_two_buckets)
    !! Bucket_.bucket_hash_key bucket_c = None
  ∧ owners_known (Datastore.storage_strategy (Datastore.init store_with_two_buckets))
  ∧ is_Some (bucket_row (Bucket_.bucket_hash_key bucket_c)
               (Datastore.storage_strategy (Datastore.init store_with_two_buckets)))
  ∧ fst (Datastore.__getitem__ (Bucket_.bucket_hash_key bucket_c)
           (Datastore.init store_with_two_buckets))
    = Ok (Bucket_.mk (Bucket_.bucket_hash_key bucket_c)).
Proof.
  assert (Datastore.bucket_instances (Datastore.init store_with_two_buckets)
            !! Bucket_.bucket_hash_key bucket_c = None) as Hc by reflexivity.
  assert (is_Some (bucket_row (Bucket_.bucket_hash_key bucket_c)
                     (Datastore.storage_strategy (Datastore.init store_with_two_buckets)))) as Hb.
  { exists row_c. exact (sole_bucket_row _ _ _ store_with_two_buckets_c). }
  split; [exact Hc|]. split; [exact store_with_two_buckets_owners|]. split; [exact Hb|].
  destruct (proj2 (getitem_looks_up_before_constructing (Bucket_.bucket_hash_key bucket_c))
              (Datastore.init store_with_two_buckets) Hc) as (s' & _ & Hfound & _).
  exact (f_equal fst (Hfound store_with_two_buckets_owners Hb)).
Defined.

Lemma datastore_delete_bucket_run {S} `{AbstractStorage.t S} (h : string) (ds : Datastore.t S) :
  let run := AbstractStorage.delete_bucket h (Datastore.storage_strategy ds) in
  Datastore.delete_bucket h ds
  = (fst run,
     Datastore.mk (delete h (Datastore.bucket_instances ds)) (snd run)
       (Datastore.logger ds ++ [LogInfo "Deleting bucket" h])).
Proof.
  intros run. unfold Datastore.delete_bucket, Datastore.log, Datastore.call.
  unfold_monad. simpl. fold run. by destruct run as [[[]|e] s'].
Qed.

(** X6.  [Datastore.delete_bucket] drops the cached handle of the hash key
    before it calls the storage, so the handle is gone whether the storage
    call succeeds or raises, and the other cached handles stay.  When the
    peewee storage is consistent, the hash key names one bucket and the
    owners of the stored buckets have their user rows, the call succeeds
    and a later lookup of the hash key raises [KeyError]. *)
Theorem datastore_delete_bucket_drops_handle (h : string) :
  (∀ S (storage : AbstractStorage.t S) (ds : Datastore.t S),
     let run := AbstractStorage.delete_bucket h (Datastore.storage_strategy ds) in
     let ds' := snd (Datastore.delete_bucket h ds) in
     fst (Datastore.delete_bucket h ds) = fst run
     ∧ Datastore.storage_strategy ds' = snd run
     ∧ Datastore.bucket_instances ds' !! h = None
     ∧ ∀ h', h' ≠ h →
         Datastore.bucket_instances ds' !! h' = Datastore.bucket_instances ds !! h')
  ∧ (∀ (ds : Datastore.t Db.t) (b : BucketModel.t),
       consistent (Datastore.storage_strategy ds) →
       sole_bucket h b (Datastore.storage_strategy ds) →
       owners_known (Datastore.storage_strategy ds) →
       fst (Datastore.delete_bucket h ds) = Ok tt
       ∧ fst (Datastore.__getitem__ h (snd (Datastore.delete_bucket h ds))) = Raise KeyError).
Proof.
  split.
  - intros S storage ds run ds'. unfold ds'. rewrite datastore_delete_bucket_run. simpl.
    split; [done|]. split; [done|]. split; [apply lookup_delete_eq|].
    intros h' Hne. by apply lookup_delete_ne.
  - intros ds b Hs Hsole Hknown. rewrite datastore_delete_bucket_run. simpl.
    destruct (delete_bucket_gone h _ b Hs Hsole) as (Hok & Hrows & _ & _ & Hrow).
    split; [done|]. rewrite getitem_missing; [done| | |done].
    + simpl. apply lookup_delete_eq.
    + simpl. apply owners_known_forall. intros b' Hb'.
      pose proof (proj1 (Hrows b') Hb') as [Hb0 _].
      pose proof (proj1 (owners_known_forall _) Hknown b' Hb0) as Hb1.
      revert Hb1. unfold owner_known, user_row.
      change (AbstractStorage.delete_bucket h (Datastore.storage_strategy ds))
        with (PeeweeStorage.delete_bucket h (Datastore.storage_strategy ds)).
      rewrite (delete_bucket_run _ _ (BucketModel.key b))
        by (by apply sole_bucket_cache).
      done.
Qed.

Lemma datastore_delete_bucket_drops_handle_witness :
  consistent (Datastore.storage_strategy (Datastore.init store_with_two_buckets))
  ∧ sole_bucket (Bucket_.bucket_hash_key bucket_b) row_b
      (Datastore.storage_strategy (Datastore.init store_with_two_buckets))
  ∧ owners_known (Datastore.storage_strategy (Datastore.init store_with_two_buckets))
  ∧ fst (Datastore.delete_bucket (Bucket_.bucket_hash_key bucket_b)
           (Datastore.init store_with_two_buckets)) = Ok tt
  ∧ fst (Datastore.__getitem__ (Bucket_.bucket_hash_key bucket_b)
           (snd (Datastore.delete_bucket (Bucket_.bucket_hash_key bucket_b)
                   (Datastore.init store_with_two_buckets)))) = Raise KeyError.
Proof.
  split; [exact store_with_two_buckets_consistent|].
  split; [exact store_with_two_buckets_b|].
  split; [exact store_with_two_buckets_owners|].
  exact (proj2 (datastore_delete_bucket_drops_handle (Bucket_.bucket_hash_key bucket_b))
           (Datastore.init store_with_two_buckets) row_b
           store_with_two_buckets_consistent store_with_two_buckets_b
           store_with_two_buckets_owners).
Defined.

(** ** Creating a bucket and reading it back *)

Lemma filter_key_fresh (rows : list BucketModel.t) :
  List.filter (λ b, bool_decide (BucketModel.key b = Db.next_rowid (map BucketModel.key rows)))
    rows = [].
Proof.
  assert (∀ k l, (∀ b, b ∈ l → BucketModel.key b ≠ k) →
                 List.filter (λ b, bool_decide (BucketModel.key b = k)) l = []) as Hgen.
  { intros k l. induction l as [|x l IH]; simpl; [done|]. intros Hall.
    rewrite bool_decide_false by (apply Hall, list_elem_of_here).
    apply IH. intros b Hb. apply Hall. by apply list_elem_of_further. }
  apply Hgen. intros b Hb Hk.
  assert (BucketModel.key b ∈ map BucketModel.key rows) as Hin
    by (apply list_elem_of_fmap; by exists b).
  apply next_rowid_fresh in Hin. lia.
Qed.

Lemma created_bucket_metadata (bucket_id type_id client hostname : string) (created : datetime)
    (name data : option string) (user : option Z) (s : Db.t) :
  bucket_id ∉ map BucketModel.id (Db.bucketmodel s) →
  let s' := snd (PeeweeStorage.create_bucket bucket_id type_id client hostname created
                   name data user s) in
  let row := created_row bucket_id type_id client hostname created name data user
               (Db.bucketmodel s) in
  (owner_known s row →
   fst (PeeweeStorage.get_metadata (calculate_bucket_hash_key bucket_id user) s')
   = Ok (json_in s row))
  ∧ is_Some (bucket_row (calculate_bucket_hash_key bucket_id user) s')
  ∧ Db.bucketmodel s' = Db.bucketmodel s ++ [row]
  ∧ Db.usermodel s' = Db.usermodel s.
Proof.
  intros Hnin s' row. unfold s'. rewrite create_bucket_run by done. simpl.
  fold row. split; [|split; [|done]].
  - intros Hknown. rewrite get_metadata_outcome. simpl.
    rewrite hash_keys_of_lookup, List.filter_app. simpl.
    rewrite bool_decide_true by done. rewrite last_snoc. simpl.
    rewrite List.filter_app. simpl. rewrite bool_decide_true by done.
    unfold row at 1, created_row at 1. simpl. rewrite filter_key_fresh. simpl.
    rewrite BucketModel_json_known.
    + unfold json_in, owner_of, user_row. done.
    + revert Hknown. unfold owner_known, user_row. done.
  - unfold bucket_row. simpl. rewrite List.filter_app. simpl.
    rewrite bool_decide_true by done.
    destruct (List.filter _ (Db.bucketmodel s)); simpl; by eexists.
Qed.

Lemma datastore_create_bucket_run {S} `{AbstractStorage.t S} (now : datetime)
    (bucket_id type_id client hostname : string) (created : option datetime)
    (name data : option string) (user : option Z) (ds : Datastore.t S) :
  let run := AbstractStorage.create_bucket bucket_id type_id client hostname
               (default now created) name data user (Datastore.storage_strategy ds) in
  let ds1 := Datastore.mk (Datastore.bucket_instances ds) (snd run)
               (Datastore.logger ds ++ [LogInfo "Creating bucket" bucket_id]) in
  Datastore.create_bucket now bucket_id type_id client hostname created name data user ds
  = match fst run with
    | Ok h => Datastore.__getitem__ h ds1
    | Raise e => (Raise e, ds1)
    end.
Proof.
  intros run ds1. unfold Datastore.create_bucket, Datastore.log, Datastore.call.
  unfold mbind at 1 2, M_bind at 1 2. unfold modify_state. simpl. fold run.
  unfold ds1. by destruct run as [[h|e] s'].
Qed.

(** X7.  Where the owners of the stored buckets and the owner given (if
    any) have their user rows, creating a bucket whose id is not stored yet
    and whose hash key has no cached handle returns the handle of the hash
    key of (id, owner) and caches it; the metadata read through this handle
    are the values given at creation: [created] defaults to the current
    instant, an absent or empty [data] document reads as the empty object,
    and the owner reads as its user row. *)
Theorem created_bucket_has_its_metadata (now : datetime)
    (bucket_id type_id client hostname : string) (created : option datetime)
    (name data : option string) (user : option Z) (ds : Datastore.t Db.t) :
  let h := calculate_bucket_hash_key bucket_id user in
  let s := Datastore.storage_strategy ds in
  bucket_id ∉ map BucketModel.id (Db.bucketmodel s) →
  Datastore.bucket_instances ds !! h = None →
  owners_known s →
  (∀ u, user = Some u → is_Some (user_row u s)) →
  ∃ ds' : Datastore.t Db.t,
    Datastore.create_bucket now bucket_id type_id client hostname created name data user ds
    = (Ok (Bucket_.mk h), ds')
    ∧ Datastore.bucket_instances ds' !! h = Some (Bucket_.mk h)
    ∧ fst (Bucket.metadata (Bucket_.mk h) ds')
      = Ok (BucketModel.mk_json bucket_id (default now created) name type_id client hostname
              (match data with
               | Some d => if decide (d = "") then "{}" else d
               | None => "{}"
               end)
              (match user with Some u => user_row u s | None => None end) h).
Proof.
  intros h s Hnin Hc Hknown Howner.
  destruct (created_bucket_metadata bucket_id type_id client hostname (default now created)
              name data user s Hnin) as (Hmeta & Hrow & Hrows & Husers).
  rewrite datastore_create_bucket_run.
  change (AbstractStorage.create_bucket bucket_id type_id client hostname
            (default now created) name data user (Datastore.storage_strategy ds))
    with (PeeweeStorage.create_bucket bucket_id type_id client hostname
            (default now created) name data user s) in *.
  set (run := PeeweeStorage.create_bucket _ _ _ _ _ _ _ _ _) in *.
  set (row := created_row bucket_id type_id client hostname (default now created) name data
                user (Db.bucketmodel s)) in *.
  assert (fst run = Ok h) as Hfst by (unfold run; by rewrite create_bucket_run).
  assert (owner_known s row) as Hnew.
  { unfold owner_known, row, created_row. simpl. destruct user as [u|]; [|done].
    by apply Howner. }
  assert (owners_known (snd run)) as Hknown'.
  { unfold owners_known. rewrite Hrows. apply Forall_app. split.
    - eapply Forall_impl; [exact Hknown|]. intros b.
      unfold owner_known, user_row. by rewrite Husers.
    - constructor; [|constructor]. revert Hnew.
      unfold owner_known, user_row. by rewrite Husers. }
  rewrite Hfst. eexists. split; [|split].
  - by apply getitem_found.
  - simpl. apply lookup_insert_eq.
  - unfold Bucket.metadata, Datastore.call. simpl.
    change (AbstractStorage.get_metadata h) with (PeeweeStorage.get_metadata h).
    pose proof (get_metadata_fst_same_store h (snd run)
                  (snd (PeeweeStorage.buckets (snd run)))
                  (proj1 (buckets_outcome (snd run)))) as Hsame.
    destruct (PeeweeStorage.get_metadata h (snd (PeeweeStorage.buckets (snd run))))
      as [r s1] eqn:E.
    simpl in *. rewrite Hsame. unfold h. rewrite (Hmeta Hnew).
    unfold json_in, owner_of, row, created_row, BucketModel.json_of. simpl.
    by destruct data, user.
Qed.

Lemma created_bucket_has_its_metadata_witness :
  ("c" ∉ map BucketModel.id
            (Db.bucketmodel (Datastore.storage_strategy (Datastore.init store_with_user_3))))
  ∧ Datastore.bucket_instances (Datastore.init store_with_user_3)
      !! calculate_bucket_hash_key "c" (Some 3) = None
  ∧ owners_known (Datastore.storage_strategy (Datastore.init store_with_user_3))
  ∧ (∀ u, Some 3 = Some u →
          is_Some (user_row u (Datastore.storage_strategy (Datastore.init store_with_user_3))))
  ∧ ∃ ds' : Datastore.t Db.t,
      Datastore.create_bucket 5000 "c" "t" "c" "host" None None None (Some 3)
        (Datastore.init store_with_user_3)
      = (Ok (Bucket_.mk (calculate_bucket_hash_key "c" (Some 3))), ds')
      ∧ fst (Bucket.metadata (Bucket_.mk (calculate_bucket_hash_key "c" (Some 3))) ds')
        = Ok (BucketModel.mk_json "c" 5000 None "t" "c" "host" "{}"
                (Some (UserModel.mk 3 "third" "uuid-3" 0 "{}"))
                (calculate_bucket_hash_key "c" (Some 3))).
Proof.
  assert ("c" ∉ map BucketModel.id
                  (Db.bucketmodel (Datastore.storage_strategy (Datastore.init store_with_user_3))))
    as H1 by apply not_elem_of_nil.
  assert (Datastore.bucket_instances (Datastore.init store_with_user_3)
            !! calculate_bucket_hash_key "c" (Some 3) = None) as H2 by apply lookup_empty.
  assert (owners_known (Datastore.storage_strategy (Datastore.init store_with_user_3))) as H3
    by constructor.
  assert (∀ u, Some 3 = Some u →
               is_Some (user_row u (Datastore.storage_strategy
                                      (Datastore.init store_with_user_3)))) as H4.
  { intros u [= <-]. eexists. reflexivity. }
  split; [exact H1|]. split; [exact H2|]. split; [exact H3|]. split; [exact H4|].
  destruct (created_bucket_has_its_metadata 5000 "c" "t" "c" "host" None None None (Some 3)
              (Datastore.init store_with_user_3) H1 H2 H3 H4) as (ds' & Hrun & _ & Hmeta).
  exists ds'. split; [exact Hrun | exact Hmeta].
Defined.

(** ** Updating a bucket *)

Lemma filter_map_invariant {A} (P : A → bool) (f : A → A) (l : list A) :
  (∀ x, P (f x) = P x) → List.filter P (map f l) = map f (List.filter P l).
Proof.
  intros Hf. induction l as [|x l IH]; simpl; [done|].
  rewrite Hf. destruct (P x); simpl; by rewrite IH.
Qed.

Lemma patched_row_nothing (b : BucketModel.t) : patched_row None None None None None b = b.
Proof. by destruct b. Qed.

(** X8.  [update_bucket] is a sparse patch.  On a hash key the cache does
    not know it raises [ValueError] and changes nothing.  On a consistent
    store and a hash key that names one bucket it overwrites, in that bucket
    row only, the fields that were given (type, client, hostname, name,
    data); key, id, created, owner and hash key are kept, the other bucket
    rows, the events and the cache are untouched.  The metadata read
    afterwards are those of the patched row when the bucket has no owner or
    its owner has a user row; when the owner has no user row, reading the
    metadata raises [DoesNotExist].  With no field given the bucket table
    is unchanged. *)
Theorem update_bucket_patches_given_fields (h : string)
    (type_id client hostname name data : option string) (s : Db.t) :
  (Db.bucket_hash_keys s !! h = None →
   PeeweeStorageOps.update_bucket h type_id client hostname name data s = (Raise ValueError, s))
  ∧ (∀ b : BucketModel.t,
       consistent s → sole_bucket h b s →
       let p := patched_row type_id client hostname name data b in
       ∃ s' : Db.t,
         PeeweeStorageOps.update_bucket h type_id client hostname name data s = (Ok tt, s')
         ∧ Db.bucketmodel s' = map (λ r, if decide (r = b) then p else r) (Db.bucketmodel s)
         ∧ Db.eventmodel s' = Db.eventmodel s
         ∧ Db.bucket_hash_keys s' = Db.bucket_hash_keys s
         ∧ (owner_known s b → fst (PeeweeStorage.get_metadata h s') = Ok (json_in s p))
         ∧ (¬ owner_known s b → fst (PeeweeStorage.get_metadata h s') = Raise DoesNotExist)
         ∧ (BucketModel.key p = BucketModel.key b ∧ BucketModel.id p = BucketModel.id b
            ∧ BucketModel.created p = BucketModel.created b
            ∧ BucketModel.user p = BucketModel.user b
            ∧ BucketModel.hash_key p = BucketModel.hash_key b)
         ∧ BucketModel.type p = default (BucketModel.type b) type_id
         ∧ BucketModel.client p = default (BucketModel.client b) client
         ∧ BucketModel.hostname p = default (BucketModel.hostname b) hostname
         ∧ BucketModel.name p = (match name with Some n => Some n | None => BucketModel.name b end)
         ∧ BucketModel.datastr p
           = (match data with Some d => Some d | None => BucketModel.datastr b end))
  ∧ (∀ b : BucketModel.t,
       consistent s → sole_bucket h b s →
       Db.bucketmodel (snd (PeeweeStorageOps.update_bucket h None None None None None s))
       = Db.bucketmodel s).
Proof.
  split; [apply update_bucket_unknown|].
  assert (∀ b ty cl ho na da, consistent s → sole_bucket h b s →
            PeeweeStorageOps.update_bucket h ty cl ho na da s
            = (Ok tt,
               Db.mk (map (λ r, if decide (r = b) then patched_row ty cl ho na da b else r)
                        (Db.bucketmodel s))
                 (Db.eventmodel s) (Db.usermodel s) (Db.bucket_hash_keys s)
                 (Db.statements s
                    ++ [SELECT "bucketmodel"; UPDATE "bucketmodel" (BucketModel.key b)])))
    as Hrun.
  { intros b ty cl ho na da Hs Hsole.
    pose proof (sole_bucket_cache h b s Hs Hsole) as Hk.
    destruct (cached_key_row s Hs h _ Hk) as (b0 & Hhead & Hb0 & Hkey & Hh).
    assert (b0 = b) as -> by (by eapply sole_bucket_unique).
    rewrite (update_bucket_run _ _ _ _ _ _ _ (BucketModel.key b) b) by done.
    do 2 f_equal. apply map_ext_in. intros r Hr. apply list_elem_of_In in Hr.
    destruct (decide (r = b)) as [->|Hne]; [by rewrite decide_True|].
    rewrite decide_False; [done|]. intros Hkeq. apply Hne.
    apply list_elem_of_lookup in Hr as [i Hi], Hb0 as [j Hj].
    assert (i = j) as ->; [|congruence].
    apply (NoDup_lookup _ i j (BucketModel.key b) (bucket_keys_unique s Hs));
      rewrite list_lookup_fmap; [rewrite Hi|rewrite Hj]; simpl; congruence. }
  split.
  - intros b Hs Hsole p. eexists. split; [by apply Hrun|]. simpl.
    split; [done|]. split; [done|]. split; [done|].
    pose proof (sole_bucket_cache h b s Hs Hsole) as Hk.
    destruct (cached_key_row s Hs h _ Hk) as (b0 & Hhead & Hb0 & Hkey & Hh).
    assert (b0 = b) as -> by (by eapply sole_bucket_unique).
    match goal with |- (_ → fst (PeeweeStorage.get_metadata h ?s1) = _) ∧ _ =>
      assert (PeeweeStorage.get_metadata h s1
              = BucketModel_json p (after_statements [SELECT "bucketmodel"] s1)) as Hget
    end.
    { rewrite get_metadata_outcome. simpl. rewrite Hk.
      rewrite filter_map_invariant by (intros r; by case_decide; subst).
      destruct (List.filter _ (Db.bucketmodel s)) as [|x l]; [done|].
      simpl in *. injection Hhead as ->. by rewrite decide_True. }
    rewrite Hget. split; [|split; [|by repeat split]].
    + intros Hknown. rewrite BucketModel_json_known; [done|].
      revert Hknown. unfold owner_known, user_row, p, patched_row. done.
    + intros Hknown. rewrite BucketModel_json_unknown; [done|].
      revert Hknown. unfold owner_known, user_row, p, patched_row. done.
  - intros b Hs Hsole. rewrite (Hrun b) by done. simpl.
    rewrite patched_row_nothing. rewrite <- (map_id (Db.bucketmodel s)) at 2.
    apply map_ext. intros r. by case_decide; subst.
Qed.

Lemma update_bucket_patches_given_fields_witness :
  consistent store_with_two_buckets
  ∧ sole_bucket (Bucket_.bucket_hash_key bucket_c) row_c store_with_two_buckets
  ∧ ∃ s' : Db.t,
      PeeweeStorageOps.update_bucket (Bucket_.bucket_hash_key bucket_c)
        None (Some "client2") None (Some "label") None store_with_two_buckets = (Ok tt, s')
      ∧ fst (PeeweeStorage.get_metadata (Bucket_.bucket_hash_key bucket_c) s')
        = Ok (json_in store_with_two_buckets
                (patched_row None (Some "client2") None (Some "label") None row_c)).
Proof.
  split; [exact store_with_two_buckets_consistent|].
  split; [exact store_with_two_buckets_c|].
  destruct (proj1 (proj2 (update_bucket_patches_given_fields (Bucket_.bucket_hash_key bucket_c)
                            None (Some "client2") None (Some "label") None
                            store_with_two_buckets))
              row_c store_with_two_buckets_consistent store_with_two_buckets_c)
    as (s' & Hrun & _ & _ & _ & Hmeta & _).
  exists s'. split; [exact Hrun|].
  apply Hmeta. exact (proj1 (owners_known_forall _) store_with_two_buckets_owners row_c
                        (proj1 (sole_bucket_elem _ _ _ store_with_two_buckets_c))).
Defined.

(** ** Deleting and replacing single events *)

Lemma is_event_true event_id key r :
  is_event event_id key r = true ↔ EventModel.id r = Some event_id ∧ EventModel.bucket r = key.
Proof. unfold is_event. by rewrite andb_true_iff, !bool_decide_eq_true. Qed.

Lemma filter_is_event_at_most_one (event_id key : Z) (rows : list EventModel.t) :
  NoDup (map EventModel.id rows) →
  (length (List.filter (is_event event_id key) rows) ≤ 1)%nat.
Proof.
  intros Hnd. apply (NoDup_map_filter _ (is_event event_id key)) in Hnd.
  destruct (List.filter (is_event event_id key) rows) as [|r1 [|r2 l]] eqn:Hf; simpl; [lia..|].
  assert (EventModel.id r1 = Some event_id ∧ EventModel.id r2 = Some event_id) as [H1 H2].
  { split.
    - assert (In r1 (List.filter (is_event event_id key) rows)) as Hin
        by (rewrite Hf; by left).
      apply filter_In in Hin as [_ Hin]. by apply is_event_true in Hin as [? _].
    - assert (In r2 (List.filter (is_event event_id key) rows)) as Hin
        by (rewrite Hf; right; by left).
      apply filter_In in Hin as [_ Hin]. by apply is_event_true in Hin as [? _]. }
  simpl in Hnd. rewrite H1, H2 in Hnd.
  apply NoDup_cons in Hnd as [Hnin _]. destruct Hnin. apply list_elem_of_here.
Qed.

Lemma filter_nil_iff {A} (P : A → bool) (l : list A) :
  List.filter P l = [] ↔ ∀ x, x ∈ l → P x = false.
Proof.
  induction l as [|x l IH]; simpl.
  - split; [intros _ y Hy; by apply elem_of_nil in Hy|done].
  - destruct (P x) eqn:Hx.
    + split; [done|]. intros Hall. specialize (Hall x (list_elem_of_here _ _)). congruence.
    + rewrite IH. split.
      * intros Hall y Hy. apply elem_of_cons in Hy as [->|Hy]; [done|by apply Hall].
      * intros Hall y Hy. apply Hall. by apply list_elem_of_further.
Qed.

(** X9.  [delete] on a hash key the cache does not know raises [KeyError]
    and changes nothing.  Otherwise it removes exactly the rows that have
    the given id and belong to this bucket (an event with this id in
    another bucket stays), touches neither the bucket table nor the cache,
    and the event can no longer be fetched; with unique primary keys the
    number it returns is 1 when the event could be fetched before and 0
    when it could not. *)
Theorem delete_removes_only_that_event (h : string) (event_id : Z) (s : Db.t) :
  (Db.bucket_hash_keys s !! h = None →
   PeeweeStorageOps.delete h event_id s = (Raise KeyError, s))
  ∧ (∀ key : Z,
       Db.bucket_hash_keys s !! h = Some key →
       ∃ (n : Z) (s' : Db.t),
         PeeweeStorageOps.delete h event_id s = (Ok n, s')
         ∧ (∀ r, r ∈ Db.eventmodel s' ↔
                 r ∈ Db.eventmodel s
                 ∧ ¬ (EventModel.id r = Some event_id ∧ EventModel.bucket r = key))
         ∧ Db.bucketmodel s' = Db.bucketmodel s
         ∧ Db.bucket_hash_keys s' = Db.bucket_hash_keys s
         ∧ fst (PeeweeStorage.get_event h event_id s') = Ok None
         ∧ (primary_keys_ok (Db.eventmodel s) →
            n = match fst (PeeweeStorage.get_event h event_id s) with
                | Ok (Some _) => 1
                | _ => 0
                end)).
Proof.
  split.
  { intros Hk. by rewrite delete_outcome, Hk. }
  intros key Hk. rewrite delete_outcome, Hk. do 2 eexists. split; [done|]. simpl.
  split; [|split; [done|split; [done|split]]].
  - intros r. rewrite !list_elem_of_In, filter_In, negb_true_iff.
    rewrite <- not_true_iff_false, is_event_true. done.
  - rewrite get_event_outcome. simpl. rewrite Hk.
    replace (List.filter (is_event event_id key)
               (List.filter (λ r, negb (is_event event_id key r)) (Db.eventmodel s)))
      with (@nil EventModel.t); [done|].
    symmetry. apply filter_nil_iff. intros r Hr.
    apply list_elem_of_In, filter_In in Hr as [_ Hr]. by apply negb_true_iff in Hr.
  - intros [Hnd _]. rewrite get_event_outcome, Hk. simpl.
    pose proof (filter_is_event_at_most_one event_id key _ Hnd) as Hle.
    destruct (List.filter (is_event event_id key) (Db.eventmodel s)) as [|r [|r' l]];
      simpl in *; [done|done|lia].
Qed.

Lemma delete_removes_only_that_event_witness :
  Db.bucket_hash_keys store_with_two_buckets !! Bucket_.bucket_hash_key bucket_b = Some 1
  ∧ primary_keys_ok (Db.eventmodel store_with_two_buckets)
  ∧ ∃ (n : Z) (s' : Db.t),
      PeeweeStorageOps.delete (Bucket_.bucket_hash_key bucket_b) 3 store_with_two_buckets
      = (Ok n, s')
      ∧ fst (PeeweeStorage.get_event (Bucket_.bucket_hash_key bucket_b) 3 s') = Ok None.
Proof.
  split; [exact store_with_two_buckets_cache_b|].
  split; [exact (event_keys_ok _ store_with_two_buckets_consistent)|].
  destruct (proj2 (delete_removes_only_that_event (Bucket_.bucket_hash_key bucket_b) 3
                     store_with_two_buckets) 1 store_with_two_buckets_cache_b)
    as (n & s' & Hrun & _ & _ & _ & Hget & _).
  exists n, s'. split; [exact Hrun | exact Hget].
Defined.

(** X10.  [replace] on a hash key the cache does not know raises
    [KeyError] and changes nothing.  When no row of this bucket has the
    given id (the id is unknown, or belongs to an event of another bucket)
    it ends in [AttributeError] and leaves both tables as they were.  When
    such a row exists and primary keys are unique, its timestamp, duration
    and data are overwritten, id and bucket kept, every other row is left
    as it was, the event is returned with that id and is what [get_event]
    returns afterwards. *)
Theorem replace_overwrites_or_fails (h : string) (event_id : Z) (event : Event.t) (s : Db.t) :
  (Db.bucket_hash_keys s !! h = None →
   PeeweeStorageOps.replace h event_id event s = (Raise KeyError, s))
  ∧ (∀ key : Z,
       Db.bucket_hash_keys s !! h = Some key →
       ((∀ r, r ∈ Db.eventmodel s →
              ¬ (EventModel.id r = Some event_id ∧ EventModel.bucket r = key)) →
        ∃ s' : Db.t,
          PeeweeStorageOps.replace h event_id event s = (Ok AttributeError, s')
          ∧ same_store s s')
       ∧ (∀ r : EventModel.t,
            primary_keys_ok (Db.eventmodel s) →
            r ∈ Db.eventmodel s → EventModel.id r = Some event_id →
            EventModel.bucket r = key →
            ∃ s' : Db.t,
              PeeweeStorageOps.replace h event_id event s
              = (Ok (Returned (Event.set_id (Some event_id) event)), s')
              ∧ Db.eventmodel s'
                = map (λ x, if decide (x = r)
                            then EventModel.mk (Some event_id) key (Event.timestamp event)
                                   (Event.duration event) (Event.data event)
                            else x) (Db.eventmodel s)
              ∧ Db.bucketmodel s' = Db.bucketmodel s
              ∧ fst (PeeweeStorage.get_event h event_id s')
                = Ok (Some (Event.set_id (Some event_id) event)))).
Proof.
  split.
  { intros Hk. by rewrite replace_outcome, Hk. }
  intros key Hk. split.
  - intros Hnone. rewrite replace_outcome, Hk.
    replace (List.filter (is_event event_id key) (Db.eventmodel s)) with (@nil EventModel.t).
    + eexists. split; [done|]. apply same_store_after_statements.
    + symmetry. apply filter_nil_iff. intros r Hr. apply not_true_iff_false.
      rewrite is_event_true. by apply Hnone.
  - intros r [Hnd Hids] Hr Hid Hb. rewrite replace_outcome, Hk.
    destruct (head (List.filter (is_event event_id key) (Db.eventmodel s))) as [r0|] eqn:Hh.
    2: { apply head_None in Hh.
         assert (is_event event_id key r = false) as Hf
           by (by apply (proj1 (filter_nil_iff _ _) Hh)).
         apply not_true_iff_false in Hf. destruct Hf. by apply is_event_true. }
    set (e' := EventModel.mk (Some event_id) key (Event.timestamp event)
                 (Event.duration event) (Event.data event)).
    eexists. split; [done|]. simpl. split; [|split; [done|]].
    + unfold update_row. apply map_ext_in. intros x Hx. apply list_elem_of_In in Hx.
      destruct (decide (x = r)) as [->|Hne]; [by rewrite decide_True|].
      rewrite decide_False; [done|]. intros Hxid. apply Hne.
      apply list_elem_of_lookup in Hx as [i Hi], Hr as [j Hj].
      assert (i = j) as ->; [|congruence].
      apply (NoDup_lookup _ i j (Some event_id) Hnd);
        rewrite list_lookup_fmap; [rewrite Hi|rewrite Hj]; simpl; congruence.
    + erewrite (get_event_run h event_id key _ e'); [by destruct event|done| |done|done|].
      * simpl. unfold update_row. apply list_elem_of_fmap. exists r.
        split; [by rewrite decide_True|done].
      * simpl. intros x Hx Hxid. unfold update_row in Hx.
        apply list_elem_of_fmap in Hx as (x0 & -> & Hx0).
        case_decide as Hc; [done|]. by destruct Hc.
Qed.

Lemma replace_overwrites_or_fails_witness :
  Db.bucket_hash_keys store_with_two_buckets !! Bucket_.bucket_hash_key bucket_b = Some 1
  ∧ primary_keys_ok (Db.eventmodel store_with_two_buckets)
  ∧ EventModel.mk (Some 3) 1 3000 500 "{}" ∈ Db.eventmodel store_with_two_buckets
  ∧ ∃ s' : Db.t,
      PeeweeStorageOps.replace (Bucket_.bucket_hash_key bucket_b) 3 (Event.mk None 7000 3000 "new")
        store_with_two_buckets
      = (Ok (Returned (Event.set_id (Some 3) (Event.mk None 7000 3000 "new"))), s')
      ∧ fst (PeeweeStorage.get_event (Bucket_.bucket_hash_key bucket_b) 3 s')
        = Ok (Some (Event.set_id (Some 3) (Event.mk None 7000 3000 "new"))).
Proof.
  assert (EventModel.mk (Some 3) 1 3000 500 "{}" ∈ Db.eventmodel store_with_two_buckets)
    as Hin.
  { rewrite store_with_two_buckets_events.
    apply list_elem_of_further, list_elem_of_further, list_elem_of_here. }
  split; [exact store_with_two_buckets_cache_b|].
  split; [exact (event_keys_ok _ store_with_two_buckets_consistent)|].
  split; [exact Hin|].
  destruct (proj2 (proj2 (replace_overwrites_or_fails (Bucket_.bucket_hash_key bucket_b) 3
                            (Event.mk None 7000 3000 "new") store_with_two_buckets)
                     1 store_with_two_buckets_cache_b)
              (EventModel.mk (Some 3) 1 3000 500 "{}")
              (event_keys_ok _ store_with_two_buckets_consistent) Hin eq_refl eq_refl)
    as (s' & Hrun & _ & _ & Hget).
  exists s'. split; [exact Hrun | exact Hget].
Defined.

(** ** Counting and listing *)

Lemma count_query_matches key st en r :
  Query.matches (count_query key st en) r = true
  ↔ EventModel.bucket r = key ∧ in_range st en r.
Proof.
  unfold count_query, in_range, Query.matches, reaches.
  destruct st as [st|], en as [en|]; simpl;
    rewrite ?andb_true_iff, ?bool_decide_eq_true; tauto.
Qed.

Lemma events_query_clauses key limit st en :
  Query.clauses (PeeweeStorage.events_query key limit st en)
  = Query.clauses (count_query key st en).
Proof. by destruct st, en. Qed.

Lemma events_query_selected key limit st en rows :
  Query.selected (PeeweeStorage.events_query key limit st en) rows
  = Query.sort_desc (List.filter (Query.matches (count_query key st en)) rows).
Proof.
  unfold Query.selected.
  replace (Query.order_by_timestamp_desc (PeeweeStorage.events_query key limit st en))
    with true by (by destruct st, en).
  unfold Query.matches. by rewrite events_query_clauses.
Qed.

Lemma count_query_rows key st en rows :
  Query.result_rows (count_query key st en) rows
  = List.filter (Query.matches (count_query key st en)) rows.
Proof. by destruct st, en. Qed.

Lemma filter_length_mono {A} (P Q : A → bool) (l : list A) :
  (∀ x, P x = true → Q x = true) →
  (length (List.filter P l) ≤ length (List.filter Q l))%nat.
Proof.
  intros HPQ. induction l as [|x l IH]; simpl; [done|].
  destruct (P x) eqn:HP.
  - rewrite (HPQ x HP). simpl. lia.
  - destruct (Q x); simpl; lia.
Qed.

Lemma get_events_unbounded_run h limit st en s b :
  consistent s → sole_bucket h b s → limit < 0 →
  PeeweeStorage.get_events h limit st en s
  = (Ok (map (PeeweeStorage.trim st en)
           (map EventModel.json
              (Query.sort_desc
                 (List.filter (Query.matches (count_query (BucketModel.key b) st en))
                    (Db.eventmodel s))))),
     after_statements [SELECT "bucketmodel"; SELECT "eventmodel"] s).
Proof.
  intros Hs Hsole Hl.
  rewrite (get_events_run _ _ _ _ _ b) by (by apply sole_bucket_row || lia).
  by rewrite result_rows_negative_limit, events_query_selected.
Qed.

Lemma get_eventcount_run h st en s b :
  consistent s → sole_bucket h b s →
  PeeweeStorage.get_eventcount h st en s
  = (Ok (Z.of_nat (length (List.filter (Query.matches (count_query (BucketModel.key b) st en))
                             (Db.eventmodel s)))),
     after_statements [SELECT "eventmodel"] s).
Proof.
  intros Hs Hsole. rewrite get_eventcount_outcome, (sole_bucket_cache h b s Hs Hsole).
  fold (count_query (BucketModel.key b) st en). by rewrite count_query_rows.
Qed.

(** X11.  On a consistent store and a hash key that names one bucket,
    [get_eventcount] for a range returns the number of events that
    [get_events] returns for the same range with a negative limit. *)
Theorem eventcount_is_length_of_unbounded_get (h : string) (limit : Z)
    (starttime endtime : option datetime) (s : Db.t) (b : BucketModel.t) :
  consistent s → sole_bucket h b s → limit < 0 →
  ∃ events : list Event.t,
    fst (PeeweeStorage.get_events h limit starttime endtime s) = Ok events
    ∧ fst (PeeweeStorage.get_eventcount h starttime endtime s) = Ok (Z.of_nat (length events)).
Proof.
  intros Hs Hsole Hl. eexists. split.
  - by rewrite (get_events_unbounded_run _ _ _ _ _ b).
  - rewrite (get_eventcount_run _ _ _ _ b) by done. simpl.
    by rewrite !length_map, sort_desc_Permutation.
Qed.

Lemma eventcount_is_length_of_unbounded_get_witness :
  consistent store_with_two_buckets
  ∧ sole_bucket (Bucket_.bucket_hash_key bucket_b) row_b store_with_two_buckets
  ∧ -1 < 0
  ∧ ∃ events : list Event.t,
      fst (PeeweeStorage.get_events (Bucket_.bucket_hash_key bucket_b) (-1) None None
             store_with_two_buckets) = Ok events
      ∧ fst (PeeweeStorage.get_eventcount (Bucket_.bucket_hash_key bucket_b) None None
               store_with_two_buckets) = Ok (Z.of_nat (length events)).
Proof.
  split; [exact store_with_two_buckets_consistent|].
  split; [exact store_with_two_buckets_b|].
  split; [reflexivity|].
  exact (eventcount_is_length_of_unbounded_get (Bucket_.bucket_hash_key bucket_b) (-1)
           None None store_with_two_buckets row_b
           store_with_two_buckets_consistent store_with_two_buckets_b eq_refl).
Defined.

(** Truncating the start to the millisecond keeps a row selected. *)
Lemma reaches_rounded st r : reaches st r → reaches (1000 * (st `div` 1000)) r.
Proof.
  unfold reaches, starttime_le_dt_plus_duration.
  destruct (dt_plus_duration _ _) as [t|]; [|done].
  unfold Sqlite.isoformat_le_strftime, microsecond.
  assert ((1000 * (st `div` 1000)) `div` 1000 = st `div` 1000) as ->.
  { rewrite (Z.mul_comm 1000 (st `div` 1000)), Z.div_mul by lia. done. }
  repeat case_decide; rewrite !bool_decide_eq_true; try lia.
  Z.div_mod_to_equations. lia.
Qed.

Lemma in_range_rounded st en r :
  in_range st en r →
  in_range ((λ d, 1000 * (d `div` 1000)) <$> st) ((λ d, 1000 * (d `div` 1000) + 1000) <$> en) r.
Proof.
  unfold in_range. intros [H1 H2]. split.
  - destruct st as [st|]; simpl; [|done]. destruct H1 as [H1 H3].
    split; [|by apply reaches_rounded]. Z.div_mod_to_equations. lia.
  - destruct en as [en|]; simpl; [|done]. simpl in H2. Z.div_mod_to_equations. lia.
Qed.

(** X12.  [Bucket.get_eventcount] passes its boundaries on as they are,
    [Bucket.get] rounds them outwards: on a consistent store and a handle
    that names one bucket, the count for a range is never more than the
    number of events that [get] returns for it without limit. *)
Theorem bucket_count_at_most_unbounded_get (self : Bucket_.t)
    (starttime endtime : option datetime) (ds : Datastore.t Db.t) (b : BucketModel.t) :
  consistent (Datastore.storage_strategy ds) →
  sole_bucket (Bucket_.bucket_hash_key self) b (Datastore.storage_strategy ds) →
  ∃ (n : Z) (events : list Event.t),
    fst (Bucket.get_eventcount self starttime endtime ds) = Ok n
    ∧ fst (Bucket.get self (-1) starttime endtime ds) = Ok events
    ∧ n ≤ Z.of_nat (length events).
Proof.
  intros Hs Hsole. do 2 eexists. split; [|split].
  - unfold Bucket.get_eventcount, Datastore.call. simpl.
    change (AbstractStorage.get_eventcount (Bucket_.bucket_hash_key self) starttime endtime)
      with (PeeweeStorage.get_eventcount (Bucket_.bucket_hash_key self) starttime endtime).
    by rewrite (get_eventcount_run _ _ _ _ b).
  - rewrite get_unfold. unfold Datastore.call. simpl.
    change (AbstractStorage.get_events (Bucket_.bucket_hash_key self) (-1))
      with (PeeweeStorage.get_events (Bucket_.bucket_hash_key self) (-1)).
    by rewrite (get_events_unbounded_run _ _ _ _ _ b).
  - rewrite !length_map, sort_desc_Permutation. apply inj_le, filter_length_mono.
    intros r. rewrite !count_query_matches. intros [Hb Hr].
    split; [done|]. by apply in_range_rounded.
Qed.

Lemma bucket_count_at_most_unbounded_get_witness :
  consistent (Datastore.storage_strategy (Datastore.init store_with_two_buckets))
  ∧ sole_bucket (Bucket_.bucket_hash_key bucket_b) row_b
      (Datastore.storage_strategy (Datastore.init store_with_two_buckets))
  ∧ ∃ (n : Z) (events : list Event.t),
      fst (Bucket.get_eventcount bucket_b (Some 1500) (Some 2999)
             (Datastore.init store_with_two_buckets)) = Ok n
      ∧ fst (Bucket.get bucket_b (-1) (Some 1500) (Some 2999)
               (Datastore.init store_with_two_buckets)) = Ok events
      ∧ n ≤ Z.of_nat (length events).
Proof.
  split; [exact store_with_two_buckets_consistent|].
  split; [exact store_with_two_buckets_b|].
  exact (bucket_count_at_most_unbounded_get bucket_b (Some 1500) (Some 2999)
           (Datastore.init store_with_two_buckets) row_b
           store_with_two_buckets_consistent store_with_two_buckets_b).
Defined.

(** The boundaries matter: event 3 of bucket "b" starts at 3000, after the
    end 2999 that is counted but within the end 3000 that [get] uses. *)
Example bucket_count_below_unbounded_get :
  fst (Bucket.get_eventcount bucket_b (Some 1500) (Some 2999)
         (Datastore.init store_with_two_buckets)) = Ok 1
  ∧ length <$> (match fst (Bucket.get bucket_b (-1) (Some 1500) (Some 2999)
                             (Datastore.init store_with_two_buckets)) with
                | Ok events => Some events
                | Raise _ => None
                end) = Some 2%nat.
Proof. vm_compute. split; reflexivity. Qed.

(** ** Order and size of what [get] returns *)

Lemma trim_timestamp st en e :
  Event.timestamp (PeeweeStorage.trim st en e)
  = match st with
    | Some st =>
        if decide (Event.timestamp e < st) then 1000 * (st `div` 1000) else Event.timestamp e
    | None => Event.timestamp e
    end.
Proof.
  unfold PeeweeStorage.trim. destruct st as [st|], en as [en|], e as [i ts du da]; simpl;
    repeat case_decide; simpl; lia.
Qed.

Lemma StronglySorted_take {A} (R : relation A) (n : nat) (l : list A) :
  StronglySorted R l → StronglySorted R (take n l).
Proof.
  intros Hl. rewrite <- (take_drop n l) in Hl. by apply StronglySorted_app_1_l in Hl.
Qed.

Lemma result_rows_sorted key limit st en rows :
  StronglySorted Query.newer_first
    (Query.result_rows (PeeweeStorage.events_query key limit st en) rows).
Proof.
  pose proof (events_query_sorted key limit st en rows) as Hs.
  unfold Query.result_rows, Query.apply_limit.
  destruct (Query.limit_ _) as [n|]; [|done].
  case_decide; [done|]. by apply StronglySorted_take.
Qed.

Lemma result_rows_length key limit st en rows :
  0 ≤ limit →
  (length (Query.result_rows (PeeweeStorage.events_query key limit st en) rows)
   ≤ Z.to_nat limit)%nat.
Proof.
  intros Hl. rewrite result_rows_limit by done. rewrite length_take. lia.
Qed.

Lemma get_events_sorted h limit st en (s s' : Db.t) events :
  PeeweeStorage.get_events h limit st en s = (Ok events, s') →
  StronglySorted newer_event_first events
  ∧ (0 ≤ limit → (length events ≤ Z.to_nat limit)%nat).
Proof.
  intros Hrun.
  destruct (decide (limit = 0)) as [->|Hl].
  { rewrite get_events_zero in Hrun. injection Hrun as <- <-.
    split; [constructor|]. simpl. lia. }
  destruct (bucket_row h s) as [b|] eqn:Hb.
  2: { by rewrite get_events_no_bucket in Hrun. }
  rewrite (get_events_run _ _ _ _ _ b) in Hrun by done. injection Hrun as <- <-.
  split.
  - rewrite map_map.
    apply (StronglySorted_fmap _ Query.newer_first newer_event_first);
      [|apply result_rows_sorted].
    intros r1 r2. unfold Query.newer_first, newer_event_first.
    rewrite !trim_timestamp. simpl.
    destruct st as [z|]; [|lia].
    repeat case_decide; Z.div_mod_to_equations; lia.
  - intros Hpos. rewrite !length_map. by apply result_rows_length.
Qed.

(** X13.  Whatever [Bucket.get] returns is sorted by timestamp, newest
    first (the timestamps as reported, after trimming), and has at most
    [limit] events when [limit] is not negative. *)
Theorem get_returns_newest_first (self : Bucket_.t) (limit : Z)
    (starttime endtime : option datetime) (ds ds' : Datastore.t Db.t) (events : list Event.t) :
  Bucket.get self limit starttime endtime ds = (Ok events, ds') →
  StronglySorted newer_event_first events
  ∧ (0 ≤ limit → (length events ≤ Z.to_nat limit)%nat).
Proof.
  rewrite get_unfold. unfold Datastore.call. simpl.
  change (AbstractStorage.get_events (Bucket_.bucket_hash_key self) limit)
    with (PeeweeStorage.get_events (Bucket_.bucket_hash_key self) limit).
  destruct (PeeweeStorage.get_events _ _ _ _ _) as [[evs|e] s1] eqn:Hrun; [|done].
  intros [= <- <-]. by eapply get_events_sorted.
Qed.

Lemma get_returns_newest_first_witness :
  ∃ events : list Event.t,
    Bucket.get bucket_b 1 None None (Datastore.init store_with_two_buckets)
    = (Ok events, snd (Bucket.get bucket_b 1 None None (Datastore.init store_with_two_buckets)))
    ∧ events = [Event.mk (Some 3) 3000 500 "{}"]
    ∧ StronglySorted newer_event_first events
    ∧ (0 ≤ 1 → (length events ≤ Z.to_nat 1)%nat).
Proof.
  exists [Event.mk (Some 3) 3000 500 "{}"].
  assert (Bucket.get bucket_b 1 None None (Datastore.init store_with_two_buckets)
          = (Ok [Event.mk (Some 3) 3000 500 "{}"],
             snd (Bucket.get bucket_b 1 None None (Datastore.init store_with_two_buckets))))
    as Hrun by (vm_compute; reflexivity).
  split; [exact Hrun|]. split; [reflexivity|].
  exact (get_returns_newest_first bucket_b 1 None None _ _ _ Hrun).
Defined.

(** ** Inserting through a handle whose bucket the storage does not know *)

(** X14.  When the storage's cache does not know the hash key of the handle
    (the bucket was deleted, say), [insert] of an event or of a non-empty
    list raises [KeyError] and stores nothing, but the warnings for events
    reaching into the future have been logged by then; [insert] of the empty
    list succeeds. *)
Theorem insert_into_unknown_bucket (self : Bucket_.t) (now : datetime)
    (ds : Datastore.t Db.t) :
  Db.bucket_hash_keys (Datastore.storage_strategy ds) !! Bucket_.bucket_hash_key self = None →
  (∀ event : Event.t,
     Bucket.insert self now (AnEvent event) ds
     = (Raise KeyError,
        Datastore.mk (Datastore.bucket_instances ds) (Datastore.storage_strategy ds)
          (Datastore.logger ds ++ future_warnings (Bucket_.bucket_hash_key self) now [event])))
  ∧ (∀ events : list Event.t,
       Bucket.insert self now (AList events) ds
       = (match events with [] => Ok None | _ => Raise KeyError end,
          Datastore.mk (Datastore.bucket_instances ds) (Datastore.storage_strategy ds)
            (Datastore.logger ds ++ future_warnings (Bucket_.bucket_hash_key self) now events))).
Proof.
  intros Hk. split.
  - intros event. rewrite insert_event_run.
    change (AbstractStorage.insert_one (Bucket_.bucket_hash_key self) event)
      with (PeeweeStorage.insert_one (Bucket_.bucket_hash_key self) event).
    by rewrite insert_one_no_bucket.
  - intros events. rewrite insert_list_run.
    change (AbstractStorage.insert_many (Bucket_.bucket_hash_key self) events)
      with (PeeweeStorage.insert_many (Bucket_.bucket_hash_key self) events).
    rewrite insert_many_unknown by done. by destruct events.
Qed.

Lemma insert_into_unknown_bucket_witness :
  Db.bucket_hash_keys (Datastore.storage_strategy (Datastore.init Db.empty))
    !! Bucket_.bucket_hash_key bucket_b = None
  ∧ Bucket.insert bucket_b 6000 (AnEvent (Event.mk None 5000 2000 "{}")) (Datastore.init Db.empty)
    = (Raise KeyError,
       Datastore.mk ∅ Db.empty
         (future_warnings (Bucket_.bucket_hash_key bucket_b) 6000 [Event.mk None 5000 2000 "{}"])).
Proof.
  assert (Db.bucket_hash_keys (Datastore.storage_strategy (Datastore.init Db.empty))
            !! Bucket_.bucket_hash_key bucket_b = None) as Hk by apply lookup_empty.
  split; [exact Hk|].
  exact (proj1 (insert_into_unknown_bucket bucket_b 6000 (Datastore.init Db.empty) Hk)
           (Event.mk None 5000 2000 "{}")).
Defined.

(** ** [chunks] in general *)

(** X15.  [chunks(ls, n)] with [n = 0] raises [ValueError].  With a
    positive [n] it yields ceil(len(ls) / n) slices whose concatenation is
    [ls]; every slice is non-empty and has at most [n] elements, and every
    slice but the last has exactly [n]; an empty list yields no slice. *)
Theorem chunks_partition_the_list {S A : Type} (ls : list A) (n : nat) (s : S) :
  (n = 0%nat → chunks ls n s = (Raise ValueError, s))
  ∧ (n ≠ 0%nat →
     ∃ cs : list (list A),
       chunks ls n s = (Ok cs, s)
       ∧ concat cs = ls
       ∧ length cs = ((length ls + n - 1) / n)%nat
       ∧ Forall (λ c, 0 < length c ≤ n)%nat cs
       ∧ (∀ i c, cs !! i = Some c → (Datatypes.S i < length cs)%nat → length c = n)
       ∧ (ls = [] → cs = [])).
Proof.
  split.
  - intros ->. reflexivity.
  - intros Hn. exists (slices ls n).
    split; [by apply chunks_run|].
    split; [apply concat_slices; lia|].
    split; [unfold slices, range0; by rewrite !length_map, length_seq|].
    split; [apply slices_lengths; lia|].
    split; [intros i c; apply slices_full; lia|].
    intros ->. apply slices_nil. lia.
Qed.

Lemma chunks_partition_the_list_witness :
  3%nat ≠ 0%nat
  ∧ ∃ cs : list (list Z),
      chunks [1; 2; 3; 4; 5; 6; 7] 3 tt = (Ok cs, tt)
      ∧ concat cs = [1; 2; 3; 4; 5; 6; 7]
      ∧ length cs = 3%nat.
Proof.
  assert (3%nat ≠ 0%nat) as Hn by discriminate.
  split; [exact Hn|].
  destruct (proj2 (chunks_partition_the_list (S:=unit) [1; 2; 3; 4; 5; 6; 7] 3 tt) Hn)
    as (cs & Hrun & Hcat & Hlen & _).
  exists cs. split; [exact Hrun|]. split; [exact Hcat | exact Hlen].
Defined.

(** ** Reading back what was inserted *)

Lemma filter_snoc_true {A} (f : A → bool) (l : list A) (x : A) :
  f x = true → List.filter f (l ++ [x]) = List.filter f l ++ [x].
Proof. intros H. rewrite List.filter_app. simpl. by rewrite H. Qed.

Lemma trim_unbounded (events : list Event.t) :
  map (PeeweeStorage.trim None None) events = events.
Proof. induction events as [|e l IH]; [done|]. simpl. by rewrite IH. Qed.

Lemma insert_one_new_run h event s b :
  consistent s → sole_bucket h b s → Event.id event = None →
  let pk := Db.next_rowid (omap EventModel.id (Db.eventmodel s)) in
  let s' := Db.mk (Db.bucketmodel s)
              (Db.eventmodel s
               ++ [EventModel.set_id (Some pk) (EventModel.from_event (BucketModel.key b) event)])
              (Db.usermodel s) (Db.bucket_hash_keys s) (Db.statements s ++ [INSERT "eventmodel" 1]) in
  PeeweeStorage.insert_one h event s = (Ok (Event.set_id (Some pk) event), s')
  ∧ consistent s' ∧ sole_bucket h b s'.
Proof.
  intros Hs Hsole Hid pk s'.
  pose proof (sole_bucket_cache _ _ _ Hs Hsole) as Hk.
  assert (PeeweeStorage.insert_one h event s = (Ok (Event.set_id (Some pk) event), s')) as Hrun.
  { rewrite (insert_one_run _ _ _ _ Hk), Hid.
    unfold write_step, saved_rows, save_statement, insert_row, EventModel.from_event.
    simpl. by rewrite Hid. }
  split; [done|]. split; [|exact Hsole].
  pose proof (consistent_insert_one h event s Hs) as Hs'. by rewrite Hrun in Hs'.
Qed.

(** X16.  An event without id inserted through a bucket handle is read back
    by [get]: with no limit and no range, [get] after the insertion returns
    the events it returned before plus the inserted event under its new id,
    an id that none of the earlier events has. *)
Theorem inserted_event_is_read_back (self : Bucket_.t) (now : datetime) (event : Event.t)
    (ds : Datastore.t Db.t) (b : BucketModel.t) :
  consistent (Datastore.storage_strategy ds) →
  sole_bucket (Bucket_.bucket_hash_key self) b (Datastore.storage_strategy ds) →
  Event.id event = None →
  ∃ (pk : Z) (ds' : Datastore.t Db.t) (before after : list Event.t),
    Bucket.insert self now (AnEvent event) ds = (Ok (Some (Event.set_id (Some pk) event)), ds')
    ∧ fst (Bucket.get self (-1) None None ds) = Ok before
    ∧ fst (Bucket.get self (-1) None None ds') = Ok after
    ∧ after ≡ₚ Event.set_id (Some pk) event :: before
    ∧ ∀ e, e ∈ before → Event.id e ≠ Some pk.
Proof.
  intros Hs Hsole Hid.
  destruct (insert_one_new_run _ _ _ _ Hs Hsole Hid) as (Hrun & Hs' & Hsole').
  set (pk := Db.next_rowid (omap EventModel.id (Db.eventmodel (Datastore.storage_strategy ds))))
    in *.
  set (new := EventModel.set_id (Some pk)
                (EventModel.from_event (BucketModel.key b) event)) in *.
  exists pk. eexists. eexists. eexists.
  split.
  { rewrite insert_event_run.
    change (AbstractStorage.insert_one (Bucket_.bucket_hash_key self) event)
      with (PeeweeStorage.insert_one (Bucket_.bucket_hash_key self) event).
    rewrite Hrun. reflexivity. }
  split.
  { rewrite get_unfold. unfold Datastore.call. simpl.
    change (AbstractStorage.get_events (Bucket_.bucket_hash_key self) (-1))
      with (PeeweeStorage.get_events (Bucket_.bucket_hash_key self) (-1)).
    rewrite (get_events_unbounded_run _ _ _ _ _ b) by (done || lia). reflexivity. }
  split.
  { rewrite get_unfold. unfold Datastore.call. simpl.
    change (AbstractStorage.get_events (Bucket_.bucket_hash_key self) (-1))
      with (PeeweeStorage.get_events (Bucket_.bucket_hash_key self) (-1)).
    rewrite (get_events_unbounded_run _ _ _ _ _ b) by (done || lia). reflexivity. }
  assert (Query.matches (count_query (BucketModel.key b) None None) new = true) as Hnew.
  { apply count_query_matches. by repeat split. }
  split.
  - rewrite !trim_unbounded. simpl Db.eventmodel.
    rewrite (filter_snoc_true _ _ _ Hnew).
    rewrite !sort_desc_Permutation.
    rewrite map_app. cbn [map].
    rewrite <- Permutation_cons_append.
    by destruct event.
  - intros e. rewrite trim_unbounded.
    intros (r & -> & Hr)%list_elem_of_fmap Hpk.
    rewrite sort_desc_Permutation in Hr.
    apply list_elem_of_In, filter_In in Hr as [Hr%list_elem_of_In _].
    pose proof (next_rowid_above_rows _ _ _ Hr Hpk). unfold pk in *. lia.
Qed.

Lemma inserted_event_is_read_back_witness :
  consistent (Datastore.storage_strategy (Datastore.init store_with_two_buckets))
  ∧ sole_bucket (Bucket_.bucket_hash_key bucket_b) row_b
      (Datastore.storage_strategy (Datastore.init store_with_two_buckets))
  ∧ Event.id (Event.mk None 4000 500 "{}") = None
  ∧ ∃ (pk : Z) (ds' : Datastore.t Db.t) (before after : list Event.t),
      Bucket.insert bucket_b 5000 (AnEvent (Event.mk None 4000 500 "{}"))
        (Datastore.init store_with_two_buckets)
      = (Ok (Some (Event.set_id (Some pk) (Event.mk None 4000 500 "{}"))), ds')
      ∧ fst (Bucket.get bucket_b (-1) None None (Datastore.init store_with_two_buckets))
        = Ok before
      ∧ fst (Bucket.get bucket_b (-1) None None ds') = Ok after
      ∧ after ≡ₚ Event.set_id (Some pk) (Event.mk None 4000 500 "{}") :: before
      ∧ ∀ e, e ∈ before → Event.id e ≠ Some pk.
Proof.
  split; [exact store_with_two_buckets_consistent|].
  split; [exact store_with_two_buckets_b|].
  split; [reflexivity|].
  exact (inserted_event_is_read_back bucket_b 5000 (Event.mk None 4000 500 "{}")
           (Datastore.init store_with_two_buckets) row_b
           store_with_two_buckets_consistent store_with_two_buckets_b eq_refl).
Defined.

(** ** Two buckets with one hash key *)

(** X17.  Bucket ids are unique, hash keys are not: when two stored buckets
    carry the same hash key, an event inserted under that hash key is stored
    in the later bucket, while [get_events] under the same hash key reads
    the earlier one, so the inserted event is not among the events
    returned. *)
Theorem shared_hash_key_splits_insert_and_get (h : string) (b1 b2 : BucketModel.t)
    (event : Event.t) (s : Db.t) :
  consistent s →
  List.filter (λ b, bool_decide (BucketModel.hash_key b = h)) (Db.bucketmodel s) = [b1; b2] →
  Event.id event = None →
  ∃ (pk : Z) (s' : Db.t) (events : list Event.t),
    PeeweeStorage.insert_one h event s = (Ok (Event.set_id (Some pk) event), s')
    ∧ EventModel.set_id (Some pk) (EventModel.from_event (BucketModel.key b2) event)
      ∈ Db.eventmodel s'
    ∧ BucketModel.key b1 ≠ BucketModel.key b2
    ∧ fst (PeeweeStorage.get_events h (-1) None None s') = Ok events
    ∧ (∀ e, e ∈ events →
         Event.id e ≠ Some pk
         ∧ ∃ r, r ∈ Db.eventmodel s ∧ EventModel.bucket r = BucketModel.key b1
                ∧ e = EventModel.json r).
Proof.
  intros Hs Hf Hid.
  assert (Db.bucket_hash_keys s !! h = Some (BucketModel.key b2)) as Hk.
  { rewrite (cache_fresh _ Hs), hash_keys_of_lookup, Hf. reflexivity. }
  assert (BucketModel.key b1 ≠ BucketModel.key b2) as Hne.
  { pose proof (NoDup_map_filter BucketModel.key
                  (λ b, bool_decide (BucketModel.hash_key b = h)) _
                  (bucket_keys_unique _ Hs)) as Hnd.
    rewrite Hf in Hnd. simpl in Hnd. apply NoDup_cons in Hnd as [Hnd _].
    intros Heq. apply Hnd. rewrite Heq. apply list_elem_of_here. }
  set (pk := Db.next_rowid (omap EventModel.id (Db.eventmodel s))).
  set (new := EventModel.set_id (Some pk) (EventModel.from_event (BucketModel.key b2) event)).
  set (s' := Db.mk (Db.bucketmodel s) (Db.eventmodel s ++ [new]) (Db.usermodel s)
               (Db.bucket_hash_keys s)
               (Db.statements s ++ [INSERT "eventmodel" 1])).
  assert (PeeweeStorage.insert_one h event s = (Ok (Event.set_id (Some pk) event), s')) as Hrun.
  { rewrite (insert_one_run _ _ _ _ Hk), Hid.
    unfold write_step, saved_rows, save_statement, insert_row, EventModel.from_event.
    simpl. by rewrite Hid. }
  assert (bucket_row h s' = Some b1) as Hrow.
  { unfold bucket_row, s'. simpl. by rewrite Hf. }
  exists pk, s'. eexists.
  split; [exact Hrun|].
  split; [apply elem_of_app; right; apply list_elem_of_here|].
  split; [exact Hne|].
  split.
  { rewrite (get_events_run _ _ _ _ _ b1) by done. reflexivity. }
  intros e. rewrite trim_unbounded.
  intros (r & -> & Hr)%list_elem_of_fmap.
  apply elem_of_result_rows in Hr as [Hr Hm].
  assert (EventModel.bucket r = BucketModel.key b1) as Hb.
  { unfold Query.matches in Hm. rewrite events_query_clauses in Hm.
    change (Query.matches (count_query (BucketModel.key b1) None None) r = true) in Hm.
    by apply count_query_matches in Hm as [Hm _]. }
  simpl in Hr. apply elem_of_app in Hr as [Hr | Hr%list_elem_of_singleton].
  - split; [|by exists r].
    intros Hpk. pose proof (next_rowid_above_rows _ _ _ Hr Hpk). unfold pk in *. lia.
  - subst r. simpl in Hb. congruence.
Qed.

Lemma store_with_shared_hash_key_consistent : consistent store_with_shared_hash_key.
Proof. apply consistent_state_after_all, consistent_empty. Qed.

Lemma store_with_shared_hash_key_rows :
  List.filter (λ b, bool_decide (BucketModel.hash_key b = calculate_bucket_hash_key "x" (Some 12)))
    (Db.bucketmodel store_with_shared_hash_key)
  = [row_x1; row_x].
Proof. vm_compute. reflexivity. Qed.

Lemma shared_hash_key_splits_insert_and_get_witness :
  consistent store_with_shared_hash_key
  ∧ List.filter
      (λ b, bool_decide (BucketModel.hash_key b = calculate_bucket_hash_key "x" (Some 12)))
      (Db.bucketmodel store_with_shared_hash_key)
    = [row_x1; row_x]
  ∧ Event.id (Event.mk None 1000 500 "{}") = None
  ∧ ∃ (pk : Z) (s' : Db.t) (events : list Event.t),
      PeeweeStorage.insert_one (calculate_bucket_hash_key "x" (Some 12))
        (Event.mk None 1000 500 "{}") store_with_shared_hash_key
      = (Ok (Event.set_id (Some pk) (Event.mk None 1000 500 "{}")), s')
      ∧ EventModel.set_id (Some pk)
          (EventModel.from_event (BucketModel.key row_x) (Event.mk None 1000 500 "{}"))
        ∈ Db.eventmodel s'
      ∧ BucketModel.key row_x1 ≠ BucketModel.key row_x
      ∧ fst (PeeweeStorage.get_events (calculate_bucket_hash_key "x" (Some 12)) (-1) None None s')
        = Ok events
      ∧ (∀ e, e ∈ events →
           Event.id e ≠ Some pk
           ∧ ∃ r, r ∈ Db.eventmodel store_with_shared_hash_key
                  ∧ EventModel.bucket r = BucketModel.key row_x1
                  ∧ e = EventModel.json r).
Proof.
  split; [exact store_with_shared_hash_key_consistent|].
  split; [exact store_with_shared_hash_key_rows|].
  split; [reflexivity|].
  exact (shared_hash_key_splits_insert_and_get (calculate_bucket_hash_key "x" (Some 12))
           row_x1 row_x (Event.mk None 1000 500 "{}") store_with_shared_hash_key
           store_with_shared_hash_key_consistent store_with_shared_hash_key_rows eq_refl).
Defined.

(** ** [get_buckets_for_user] *)

Lemma get_eventcount_fst_same_store h st en (s s0 : Db.t) :
  same_store s s0 →
  fst (PeeweeStorage.get_eventcount h st en s0) = fst (PeeweeStorage.get_eventcount h st en s).
Proof.
  intros (_ & He & _ & Hk). rewrite !get_eventcount_outcome, Hk, He.
  by destruct (Db.bucket_hash_keys s !! h).
Qed.

Lemma get_eventcount_known h st en (s : Db.t) :
  is_Some (Db.bucket_hash_keys s !! h) →
  ∃ n : nat, PeeweeStorage.get_eventcount h st en s
             = (Ok (Z.of_nat n), after_statements [SELECT "eventmodel"] s).
Proof. intros [k Hk]. rewrite get_eventcount_outcome, Hk. by eexists. Qed.

(** One entry of the dictionary that [get_buckets_for_user] builds: the
    metadata of the bucket are read first, then its events are counted. *)
Lemma summary_entry_run (st en : option datetime) (b : BucketModel.t) (s0 : Db.t) :
  (j ← BucketModel_json b;
   n ← PeeweeStorage.get_eventcount (BucketModel.hash_key b) st en;
   mret (BucketModel.hash_key b, (j, n))) s0
  = match fst (BucketModel_json b s0) with
    | Ok j =>
        let run := PeeweeStorage.get_eventcount (BucketModel.hash_key b) st en
                     (snd (BucketModel_json b s0)) in
        (match fst run with
         | Ok n => Ok (BucketModel.hash_key b, (j, n))
         | Raise e => Raise e
         end, snd run)
    | Raise e => (Raise e, snd (BucketModel_json b s0))
    end.
Proof.
  unfold_monad. destruct (BucketModel_json b s0) as [[j|e] s1]; [|done]. simpl.
  by destruct (PeeweeStorage.get_eventcount _ _ _ s1) as [[n|e] s2].
Qed.

(** [comprehension_outcome] for an element expression that behaves only on
    the elements of the list. *)
Lemma comprehension_outcome_in {A B} (s : Db.t) (f : A → M Db.t B) (g : A → B)
    (P : A → Prop) `{∀ x, Decision (P x)} (e : exn) (l : list A) :
  (∀ x s0, x ∈ l → same_store s s0 → same_store s (snd (f x s0))) →
  (∀ x s0, x ∈ l → same_store s s0 → P x → fst (f x s0) = Ok (g x)) →
  (∀ x s0, x ∈ l → same_store s s0 → ¬ P x → fst (f x s0) = Raise e) →
  ∀ s0, same_store s s0 →
  same_store s (snd (comprehension l f s0))
  ∧ (Forall P l → fst (comprehension l f s0) = Ok (map g l))
  ∧ (¬ Forall P l → fst (comprehension l f s0) = Raise e).
Proof.
  induction l as [|x l IH]; intros Hsame Hok Hraise s0 Hs0.
  - simpl. split; [done|]. split; [done|]. intros Hn. destruct Hn. constructor.
  - assert (x ∈ x :: l) as Hin by apply list_elem_of_here.
    specialize (IH (λ y s1 Hy, Hsame y s1 (list_elem_of_further _ _ _ Hy))
                   (λ y s1 Hy, Hok y s1 (list_elem_of_further _ _ _ Hy))
                   (λ y s1 Hy, Hraise y s1 (list_elem_of_further _ _ _ Hy))).
    pose proof (Hsame x s0 Hin Hs0) as Hx.
    pose proof (Hok x s0 Hin Hs0) as Hfx.
    pose proof (Hraise x s0 Hin Hs0) as Hfx'.
    clear Hsame Hok Hraise.
    simpl. unfold mbind, M_bind, mret, M_ret.
    destruct (f x s0) as [r s1]. simpl in Hfx, Hfx', Hx.
    destruct (decide (P x)) as [HP|HP].
    + rewrite (Hfx HP).
      destruct (IH s1 Hx) as (Hl & Hall & Hsome).
      destruct (comprehension l f s1) as [[ys|e'] s2]; simpl in *.
      * split; [done|]. split.
        -- intros HF. apply Forall_cons in HF as [_ HF]. specialize (Hall HF). congruence.
        -- intros HF. assert (¬ Forall P l) as HF' by (intros HF'; apply HF; by constructor).
           by specialize (Hsome HF').
      * split; [done|]. split.
        -- intros HF. apply Forall_cons in HF as [_ HF]. by specialize (Hall HF).
        -- intros HF. assert (¬ Forall P l) as HF' by (intros HF'; apply HF; by constructor).
           by specialize (Hsome HF').
    + rewrite (Hfx' HP). simpl.
      split; [done|]. split; [|done].
      intros HF. apply Forall_cons in HF as [HF _]. done.
Qed.

(** The entries of [get_buckets_for_user]: [counts] is what
    [get_eventcount] returns in the state [s]. *)
Lemma summaries_run (st en : option datetime) (s : Db.t) (rows : list BucketModel.t) :
  (∀ b, b ∈ rows → is_Some (Db.bucket_hash_keys s !! BucketModel.hash_key b)) →
  ∃ counts : string → Z,
    (∀ b, b ∈ rows →
       fst (PeeweeStorage.get_eventcount (BucketModel.hash_key b) st en s)
       = Ok (counts (BucketModel.hash_key b))
       ∧ 0 ≤ counts (BucketModel.hash_key b))
    ∧ ∀ s0, same_store s s0 →
        let run :=
          comprehension rows
            (λ b, j ← BucketModel_json b;
                  n ← PeeweeStorage.get_eventcount (BucketModel.hash_key b) st en;
                  mret (BucketModel.hash_key b, (j, n))) s0 in
        (Forall (owner_known s) rows →
         fst run
         = Ok (map (λ b, (BucketModel.hash_key b,
                          (json_in s b, counts (BucketModel.hash_key b)))) rows))
        ∧ (¬ Forall (owner_known s) rows → fst run = Raise DoesNotExist).
Proof.
  intros Hknown.
  assert (∀ b, b ∈ rows →
            ∃ n : nat, fst (PeeweeStorage.get_eventcount (BucketModel.hash_key b) st en s)
                       = Ok (Z.of_nat n)) as Hcount.
  { intros b Hb. destruct (get_eventcount_known _ st en s (Hknown b Hb)) as [n Hn].
    exists n. by rewrite Hn. }
  set (counts := λ h, match fst (PeeweeStorage.get_eventcount h st en s) with
                      | Ok n => n
                      | Raise _ => 0
                      end).
  exists counts.
  split.
  { intros b Hb. unfold counts. destruct (Hcount b Hb) as [n Hn]. rewrite Hn.
    split; [done | lia]. }
  intros s0 Hs0 run. unfold run.
  apply (comprehension_outcome_in s _
           (λ b, (BucketModel.hash_key b, (json_in s b, counts (BucketModel.hash_key b))))
           (owner_known s) DoesNotExist rows); [| | |done].
  - intros b s1 Hb Hs1. rewrite summary_entry_run.
    pose proof (BucketModel_json_same_store b s1) as Hj.
    assert (same_store s (snd (BucketModel_json b s1))) as Hs2
      by (by eapply same_store_trans).
    destruct (fst (BucketModel_json b s1)); [|done]. cbv zeta. simpl.
    eapply same_store_trans; [exact Hs2|]. apply get_eventcount_same_store.
  - intros b s1 Hb Hs1 HP. rewrite summary_entry_run.
    pose proof (BucketModel_json_same_store b s1) as Hj.
    assert (same_store s (snd (BucketModel_json b s1))) as Hs2
      by (by eapply same_store_trans).
    rewrite BucketModel_json_known by (by apply (owner_known_same_store s s1)).
    cbv zeta. simpl.
    rewrite (get_eventcount_fst_same_store _ st en s _ Hs2).
    unfold counts. destruct (Hcount b Hb) as [n Hn]. rewrite Hn.
    by rewrite (json_in_same_store s s1).
  - intros b s1 Hb Hs1 HP. rewrite summary_entry_run.
    by rewrite BucketModel_json_unknown by (by rewrite (owner_known_same_store s s1)).
Qed.

(** X18.  On a store in order [get_buckets_for_user] changes no table.  It
    reads the owner of every bucket asked for (all of them, or those of the
    given owner): when one of these owners has no user row it raises
    [DoesNotExist].  Otherwise it succeeds; the result has an entry for
    every stored bucket asked for under its hash key, and no other entry;
    an entry carries the metadata of such a bucket, as [events_count] what
    [get_eventcount] returns for that hash key from the start of 2020
    (local time) to now, which is not negative, and as [estimated_size] 150
    times that count. *)
Theorem get_buckets_for_user_summarises (utc_offset : timedelta) (now : datetime)
    (user : user_filter) (s : Db.t) :
  consistent s →
  same_store s (snd (PeeweeStorageOps.get_buckets_for_user utc_offset now user s))
  ∧ ((∃ b, b ∈ Db.bucketmodel s ∧ wanted_by user b ∧ ¬ owner_known s b) →
     fst (PeeweeStorageOps.get_buckets_for_user utc_offset now user s) = Raise DoesNotExist)
  ∧ ((∀ b, b ∈ Db.bucketmodel s → wanted_by user b → owner_known s b) →
     ∃ summaries : gmap string bucket_summary,
       fst (PeeweeStorageOps.get_buckets_for_user utc_offset now user s) = Ok summaries
       ∧ (∀ b, b ∈ Db.bucketmodel s → wanted_by user b →
               is_Some (summaries !! BucketModel.hash_key b))
       ∧ (∀ h v, summaries !! h = Some v →
            (∃ b, b ∈ Db.bucketmodel s ∧ wanted_by user b ∧ BucketModel.hash_key b = h
                  ∧ summary_json v = json_in s b)
            ∧ fst (PeeweeStorage.get_eventcount h
                     (Some (PeeweeStorageOps.local_2020 utc_offset)) (Some now) s)
              = Ok (events_count v)
            ∧ 0 ≤ events_count v
            ∧ estimated_size v = events_count v * 150)).
Proof.
  intros Hs. split; [apply get_buckets_for_user_same_store|].
  set (rows := match user with
               | AllUsers => Db.bucketmodel s
               | User u => List.filter (λ b, bool_decide (BucketModel.user b = u))
                             (Db.bucketmodel s)
               end).
  assert (∀ b, b ∈ rows ↔ b ∈ Db.bucketmodel s ∧ wanted_by user b) as Hrows.
  { intros b. unfold rows, wanted_by. destruct user as [|u]; [tauto|].
    rewrite !list_elem_of_In, filter_In, bool_decide_eq_true. tauto. }
  destruct (summaries_run (Some (PeeweeStorageOps.local_2020 utc_offset)) (Some now) s rows)
    as (counts & Hcounts & Hrun).
  { intros b [Hb _]%Hrows. rewrite (cache_fresh _ Hs).
    destruct (hash_keys_of (Db.bucketmodel s) !! BucketModel.hash_key b) eqn:Hl; [by eexists|].
    rewrite hash_keys_of_None in Hl. by destruct (Hl b Hb). }
  destruct (Hrun (after_statements [SELECT "bucketmodel"] s)
              (same_store_after_statements _ _)) as [Hok Hraise].
  assert (PeeweeStorageOps.get_buckets_for_user utc_offset now user s
          = let run :=
              comprehension rows
                (λ b, j ← BucketModel_json b;
                      n ← PeeweeStorage.get_eventcount (BucketModel.hash_key b)
                            (Some (PeeweeStorageOps.local_2020 utc_offset)) (Some now);
                      mret (BucketModel.hash_key b, (j, n)))
                (after_statements [SELECT "bucketmodel"] s) in
            (match fst run with
             | Ok entries =>
                 Ok ((λ v : BucketModel.json_t * Z, mk_bucket_summary v.1 v.2 (v.2 * 150))
                       <$> foldl (λ d (kv : string * (BucketModel.json_t * Z)),
                                    <[kv.1 := kv.2]> d) ∅ entries)
             | Raise e => Raise e
             end, snd run)) as Hunfold.
  { clear. unfold PeeweeStorageOps.get_buckets_for_user, BucketModel_select, Db.execute_sql,
      after_statements.
    unfold_monad. simpl. fold rows.
    by destruct (comprehension rows _ _) as [[entries|e] s1]. }
  rewrite Hunfold. cbv zeta. split.
  - intros (b & Hb & Hw & Hn). simpl. rewrite Hraise; [done|].
    rewrite Forall_forall. intros Hall. apply Hn, Hall, Hrows. by split.
  - intros Hknown. simpl. rewrite Hok.
    2: { apply Forall_forall. intros b [Hb Hw]%Hrows. by apply Hknown. }
    eexists. split; [reflexivity|].
    assert (∀ h,
      ((λ v : BucketModel.json_t * Z, mk_bucket_summary v.1 v.2 (v.2 * 150))
         <$> foldl (λ d (kv : string * (BucketModel.json_t * Z)), <[kv.1 := kv.2]> d)
               (∅ : gmap string (BucketModel.json_t * Z))
               (map (λ b, (BucketModel.hash_key b,
                           (json_in s b, counts (BucketModel.hash_key b)))) rows)) !! h
      = (λ b, mk_bucket_summary (json_in s b) (counts (BucketModel.hash_key b))
                (counts (BucketModel.hash_key b) * 150))
          <$> last (List.filter (λ b, bool_decide (BucketModel.hash_key b = h)) rows)) as Hlook.
    { intros h. rewrite lookup_fmap.
      change (map ?g rows) with (g <$> rows). rewrite foldl_fmap. simpl.
      rewrite (keyed_lookup (λ b, (json_in s b, counts (BucketModel.hash_key b)))).
      by destruct (last _). }
    split.
    + intros b Hb Hw. rewrite Hlook.
      apply fmap_is_Some, last_is_Some.
      intros Hnil.
      assert (In b (List.filter
                      (λ b', bool_decide (BucketModel.hash_key b' = BucketModel.hash_key b))
                      rows)) as Hin.
      { apply filter_In. split; [apply list_elem_of_In, Hrows; by split|].
        by apply bool_decide_eq_true. }
      by rewrite Hnil in Hin.
    + intros h v. rewrite Hlook.
      destruct (last _) as [b|] eqn:Hlast; [|done]. intros [= <-].
      apply last_Some_elem_of, list_elem_of_In, filter_In in Hlast as [Hin Hb].
      apply bool_decide_eq_true in Hb. apply list_elem_of_In in Hin.
      destruct (Hcounts b Hin) as [Hc Hpos]. rewrite Hb in Hc, Hpos. subst h.
      apply Hrows in Hin as [Hin Hw]. simpl.
      split; [by exists b|]. by repeat split.
Qed.

Lemma get_buckets_for_user_summarises_witness :
  consistent store_with_two_buckets
  ∧ (∀ b, b ∈ Db.bucketmodel store_with_two_buckets → wanted_by (User (Some 3)) b →
          owner_known store_with_two_buckets b)
  ∧ ∃ summaries : gmap string bucket_summary,
      fst (PeeweeStorageOps.get_buckets_for_user 0 (at_time 19000 0 0 0 0) (User (Some 3))
             store_with_two_buckets) = Ok summaries
      ∧ (∀ b, b ∈ Db.bucketmodel store_with_two_buckets → wanted_by (User (Some 3)) b →
              is_Some (summaries !! BucketModel.hash_key b)).
Proof.
  assert (∀ b, b ∈ Db.bucketmodel store_with_two_buckets → wanted_by (User (Some 3)) b →
               owner_known store_with_two_buckets b) as Hknown.
  { intros b Hb _. exact (proj1 (owners_known_forall _) store_with_two_buckets_owners b Hb). }
  split; [exact store_with_two_buckets_consistent|]. split; [exact Hknown|].
  destruct (proj2 (proj2 (get_buckets_for_user_summarises 0 (at_time 19000 0 0 0 0)
                            (User (Some 3)) store_with_two_buckets
                            store_with_two_buckets_consistent)) Hknown)
    as (summaries & Hrun & Hall & _).
  exists summaries. split; [exact Hrun | exact Hall].
Defined.

(** ** [get_by_id] and [get] *)

(** X19.  [get_by_id] and [get] agree: for a bucket that is the only one of
    its hash key in a store in order, [get_by_id] returns an event exactly
    when the unbounded, unrestricted [get] lists that event under the id
    asked for, and [None] when it lists no event of that id. *)
Theorem get_by_id_agrees_with_get (self : Bucket_.t) (event_id : Z)
    (ds : Datastore.t Db.t) (b : BucketModel.t) :
  consistent (Datastore.storage_strategy ds) →
  sole_bucket (Bucket_.bucket_hash_key self) b (Datastore.storage_strategy ds) →
  ∃ (found : option Event.t) (events : list Event.t),
    fst (Bucket.get_by_id self event_id ds) = Ok found
    ∧ fst (Bucket.get self (-1) None None ds) = Ok events
    ∧ (∀ e, found = Some e ↔ e ∈ events ∧ Event.id e = Some event_id).
Proof.
  intros Hs Hsole.
  pose proof (sole_bucket_cache _ _ _ Hs Hsole) as Hk.
  set (s := Datastore.storage_strategy ds) in *.
  set (key := BucketModel.key b) in *.
  exists (EventModel.json <$> head (List.filter (is_event event_id key) (Db.eventmodel s))).
  exists (map EventModel.json
            (Query.sort_desc
               (List.filter (Query.matches (count_query key None None)) (Db.eventmodel s)))).
  split.
  { unfold Bucket.get_by_id, Datastore.call.
    change (AbstractStorage.get_event (Bucket_.bucket_hash_key self) event_id)
      with (PeeweeStorage.get_event (Bucket_.bucket_hash_key self) event_id).
    fold s. rewrite get_event_outcome, Hk. reflexivity. }
  split.
  { rewrite get_unfold. unfold Datastore.call. simpl.
    change (AbstractStorage.get_events (Bucket_.bucket_hash_key self) (-1))
      with (PeeweeStorage.get_events (Bucket_.bucket_hash_key self) (-1)).
    fold s. rewrite (get_events_unbounded_run _ _ _ _ _ b) by (done || lia).
    simpl. by rewrite trim_unbounded. }
  assert (∀ r, r ∈ Query.sort_desc
                     (List.filter (Query.matches (count_query key None None)) (Db.eventmodel s))
               ↔ r ∈ Db.eventmodel s ∧ EventModel.bucket r = key) as Hlisted.
  { intros r. rewrite sort_desc_Permutation, !list_elem_of_In, filter_In, count_query_matches.
    unfold in_range. tauto. }
  pose proof (filter_is_event_at_most_one event_id key (Db.eventmodel s)
                (proj1 (event_keys_ok _ Hs))) as Hone.
  assert (∀ r, In r (List.filter (is_event event_id key) (Db.eventmodel s))
               ↔ r ∈ Db.eventmodel s ∧ EventModel.id r = Some event_id
                 ∧ EventModel.bucket r = key) as Hhit.
  { intros r. rewrite filter_In, is_event_true, list_elem_of_In. tauto. }
  intros e. split.
  - destruct (List.filter (is_event event_id key) (Db.eventmodel s)) as [|r l] eqn:Hf; [done|].
    simpl. intros [= <-].
    destruct (proj1 (Hhit r) (or_introl eq_refl)) as (Hr & Hid & Hb).
    split; [|done]. apply list_elem_of_fmap. exists r. split; [done|]. by apply Hlisted.
  - intros [(r & -> & [Hr Hb]%Hlisted)%list_elem_of_fmap Hid]. simpl in Hid.
    assert (In r (List.filter (is_event event_id key) (Db.eventmodel s))) as Hin
      by (by apply Hhit).
    destruct (List.filter (is_event event_id key) (Db.eventmodel s)) as [|r' [|r'' l]];
      [done| |simpl in Hone; lia].
    destruct Hin as [->|[]]. reflexivity.
Qed.

Lemma get_by_id_agrees_with_get_witness :
  consistent (Datastore.storage_strategy (Datastore.init store_with_two_buckets))
  ∧ sole_bucket (Bucket_.bucket_hash_key bucket_b) row_b
      (Datastore.storage_strategy (Datastore.init store_with_two_buckets))
  ∧ ∃ (found : option Event.t) (events : list Event.t),
      fst (Bucket.get_by_id bucket_b 2 (Datastore.init store_with_two_buckets)) = Ok found
      ∧ fst (Bucket.get bucket_b (-1) None None (Datastore.init store_with_two_buckets))
        = Ok events
      ∧ (∀ e, found = Some e ↔ e ∈ events ∧ Event.id e = Some 2).
Proof.
  split; [exact store_with_two_buckets_consistent|].
  split; [exact store_with_two_buckets_b|].
  exact (get_by_id_agrees_with_get bucket_b 2 (Datastore.init store_with_two_buckets) row_b
           store_with_two_buckets_consistent store_with_two_buckets_b).
Defined.

(** ** A bucket just created *)

Lemma no_event_of_fresh_key (s : Db.t) (r : EventModel.t) :
  consistent s → r ∈ Db.eventmodel s →
  EventModel.bucket r ≠ Db.next_rowid (map BucketModel.key (Db.bucketmodel s)).
Proof.
  intros Hs Hr Heq. pose proof (events_owned _ Hs r Hr) as Hin.
  apply next_rowid_fresh in Hin. lia.
Qed.

(** X20.  A bucket created in a store in order is empty, whatever was stored
    and deleted before: counting its events gives 0 and looking one up by id
    gives [None]; and when no other stored bucket has its hash key,
    [get_events] returns no event for any limit and range. *)
Theorem created_bucket_is_empty (bucket_id type_id client hostname : string)
    (created : datetime) (name data : option string) (user : option Z) (s : Db.t) :
  let h := calculate_bucket_hash_key bucket_id user in
  consistent s →
  bucket_id ∉ map BucketModel.id (Db.bucketmodel s) →
  ∃ s' : Db.t,
    PeeweeStorage.create_bucket bucket_id type_id client hostname created name data user s
    = (Ok h, s')
    ∧ (∀ starttime endtime, fst (PeeweeStorage.get_eventcount h starttime endtime s') = Ok 0)
    ∧ (∀ event_id, fst (PeeweeStorage.get_event h event_id s') = Ok None)
    ∧ ((∀ b, b ∈ Db.bucketmodel s → BucketModel.hash_key b ≠ h) →
       ∀ limit starttime endtime,
         fst (PeeweeStorage.get_events h limit starttime endtime s') = Ok []).
Proof.
  intros h Hs Hfresh.
  set (new := created_row bucket_id type_id client hostname created name data user
                (Db.bucketmodel s)).
  set (key := Db.next_rowid (map BucketModel.key (Db.bucketmodel s))).
  eexists. split; [by apply create_bucket_run|].
  set (s' := Db.mk _ _ _ _ _).
  assert (Db.bucket_hash_keys s' !! h = Some key) as Hk.
  { unfold s'. simpl. rewrite hash_keys_of_snoc. apply lookup_insert_eq. }
  assert (∀ st en, List.filter (Query.matches (count_query key st en)) (Db.eventmodel s) = [])
    as Hnone.
  { intros st en. apply filter_nil_iff. intros r Hr.
    destruct (Query.matches _ r) eqn:Hm; [|done].
    apply count_query_matches in Hm as [Hb _].
    by destruct (no_event_of_fresh_key s r Hs Hr). }
  split; [|split].
  - intros st en. rewrite get_eventcount_outcome, Hk. simpl.
    change (PeeweeStorage._where_range _ st en) with (count_query key st en).
    by rewrite count_query_rows, Hnone.
  - intros event_id. rewrite get_event_outcome, Hk. simpl.
    replace (List.filter (is_event event_id key) (Db.eventmodel s)) with (@nil EventModel.t);
      [done|].
    symmetry. apply filter_nil_iff. intros r Hr.
    destruct (is_event event_id key r) eqn:Hm; [|done].
    apply is_event_true in Hm as [_ Hb].
    by destruct (no_event_of_fresh_key s r Hs Hr).
  - intros Hsole limit st en.
    destruct (decide (limit = 0)) as [->|Hl]; [by rewrite get_events_zero|].
    assert (bucket_row h s' = Some new) as Hrow.
    { unfold bucket_row, s'. simpl. rewrite List.filter_app.
      replace (List.filter _ (Db.bucketmodel s)) with (@nil BucketModel.t).
      - simpl. by rewrite bool_decide_eq_true_2.
      - symmetry. apply filter_nil_iff. intros b Hb.
        apply bool_decide_eq_false. by apply Hsole. }
    rewrite (get_events_run _ _ _ _ _ new) by done.
    change (BucketModel.key new) with key. change (Db.eventmodel s') with (Db.eventmodel s).
    assert (Query.result_rows (PeeweeStorage.events_query key limit st en) (Db.eventmodel s)
            = []) as ->; [|done].
    destruct (Query.result_rows _ _) as [|r l] eqn:Hres; [done|].
    assert (r ∈ Query.result_rows (PeeweeStorage.events_query key limit st en)
                  (Db.eventmodel s)) as Hin by (rewrite Hres; apply list_elem_of_here).
    apply elem_of_result_rows in Hin as [Hr Hm].
    unfold Query.matches in Hm. rewrite events_query_clauses in Hm.
    change (Query.matches (count_query key st en) r = true) in Hm.
    apply count_query_matches in Hm as [Hb _].
    by destruct (no_event_of_fresh_key s r Hs Hr).
Qed.

Lemma store_after_delete_b_consistent : consistent store_after_delete_b.
Proof. apply consistent_state_after, store_with_two_buckets_consistent. Qed.

Lemma store_after_delete_b_ids :
  map BucketModel.id (Db.bucketmodel store_after_delete_b) = ["c"].
Proof. vm_compute. reflexivity. Qed.

Lemma store_after_delete_b_fresh :
  "b" ∉ map BucketModel.id (Db.bucketmodel store_after_delete_b).
Proof.
  rewrite store_after_delete_b_ids. intros [H|H]%elem_of_cons; [discriminate|].
  by apply not_elem_of_nil in H.
Qed.

Lemma created_bucket_is_empty_witness :
  consistent store_after_delete_b
  ∧ ("b" ∉ map BucketModel.id (Db.bucketmodel store_after_delete_b))
  ∧ ∃ s' : Db.t,
      PeeweeStorage.create_bucket "b" "t" "c" "host" 0 None None None store_after_delete_b
      = (Ok (calculate_bucket_hash_key "b" None), s')
      ∧ (∀ starttime endtime,
           fst (PeeweeStorage.get_eventcount (calculate_bucket_hash_key "b" None)
                  starttime endtime s') = Ok 0)
      ∧ (∀ event_id,
           fst (PeeweeStorage.get_event (calculate_bucket_hash_key "b" None) event_id s')
           = Ok None).
Proof.
  split; [exact store_after_delete_b_consistent|].
  split; [exact store_after_delete_b_fresh|].
  destruct (created_bucket_is_empty "b" "t" "c" "host" 0 None None None store_after_delete_b
              store_after_delete_b_consistent store_after_delete_b_fresh)
    as (s' & Hrun & Hcount & Hget & _).
  exists s'. split; [exact Hrun|]. split; [exact Hcount | exact Hget].
Defined.
